(** * Raite: trading analytics and accounting core

    A shallow embedding of the ledger ([PaperTradingService],
    [HoldingRepository], [PositionRepository], [OrderRepository]), of the
    backtest simulator ([StrategyService]) and of the open-interest
    classifier ([HistoricalDataService.calculateOIInterpretation]).

    JavaScript numbers are modelled as exact rationals ([Q]); the relational
    tables are finite maps keyed by their primary (or unique) key; [async]
    methods are computations in a state-and-exception monad over the
    database. *)

From Stdlib Require Import QArith Qabs Qminmax Lqa Lia List Sorted.
From stdpp Require Import gmap strings list list_numbers fin_maps pretty.

Open Scope Q_scope.

(** ** JavaScript number helpers *)

Module JS.

(** Truthiness of a number: [0] is falsy. *)
Definition truthy (x : Q) : bool := negb (Qeq_bool x 0).

(** [a || b] on numbers. *)
Definition or (a b : Q) : Q := if truthy a then a else b.

(** [a || b] where [a] may be [undefined] / [null]. *)
Definition or_opt (a : option Q) (b : Q) : Q :=
  match a with
  | Some v => or v b
  | None => b
  end.

(** [a === b] on numbers. *)
Definition eqb (a b : Q) : bool := Qeq_bool a b.

(** [a < b], [a > b], [a <= b], [a >= b] on numbers. *)
Definition ltb (a b : Q) : bool := negb (Qle_bool b a).
Definition gtb (a b : Q) : bool := ltb b a.
Definition leb (a b : Q) : bool := Qle_bool a b.
Definition geb (a b : Q) : bool := Qle_bool b a.

End JS.

(** ** Data model (the [@/types] interfaces and the SQL schema) *)

Inductive Side := BUY | SELL.
Inductive OrderStatus := PENDING | FILLED | CANCELLED.
Inductive PositionStatus := OPEN | CLOSED.

(** Timestamps ([Date] values and epoch times) are integers. *)
Abbreviation Date := Z.

Record Order := mkOrder {
  o_id : nat;
  o_instrument : string;
  o_side : Side;
  o_quantity : Q;
  o_price : Q;
  o_status : OrderStatus;
  o_filled_quantity : Q;
  o_filled_price : option Q;
  o_order_time : Date;
  o_filled_time : option Date
}.

Record Holding := mkHolding {
  h_instrument : string;
  h_quantity : Q;
  h_average_price : Q;
  h_total_value : Q;
  h_unrealized_pnl : Q;
  h_realized_pnl : Q
}.

Record Position := mkPosition {
  p_id : nat;
  p_instrument : string;
  p_side : Side;
  p_entry_price : Q;
  p_exit_price : option Q;
  p_quantity : Q;
  p_status : PositionStatus;
  p_pnl : Q;
  p_entry_time : Date;
  p_exit_time : option Date;
  p_strategy_id : option nat
}.

Definition Side_eqb (a b : Side) : bool :=
  match a, b with BUY, BUY | SELL, SELL => true | _, _ => false end.

Definition OrderStatus_eqb (a b : OrderStatus) : bool :=
  match a, b with
  | PENDING, PENDING | FILLED, FILLED | CANCELLED, CANCELLED => true
  | _, _ => false
  end.

Definition PositionStatus_eqb (a b : PositionStatus) : bool :=
  match a, b with OPEN, OPEN | CLOSED, CLOSED => true | _, _ => false end.

(** ** The database and the monad of the [async] methods *)

(** The tables [orders], [holdings] (unique on [instrument]) and
    [positions]; [next_id] stands for the stream of fresh [uuidv4()]
    identifiers and [now] for the clock read by [NOW()] and [new Date()]. *)
Record Db := mkDb {
  orders : gmap nat Order;
  holdings : gmap string Holding;
  positions : gmap nat Position;
  next_id : nat;
  now : Date
}.

Inductive Error :=
| NotFoundError (msg : string)
| ValidationError (msg : string)
| GenericError (msg : string).

(** A computation reads and writes the database and either returns a value
    or throws; writes made before a throw stay (there is no transaction). *)
Definition M (A : Type) : Type := Db -> (Error + A) * Db.

Definition ret {A} (a : A) : M A := fun db => (inr a, db).
Definition throw {A} (e : Error) : M A := fun db => (inl e, db).
Definition bind {A B} (m : M A) (k : A -> M B) : M B :=
  fun db =>
    match m db with
    | (inl e, db') => (inl e, db')
    | (inr a, db') => k a db'
    end.
Definition get : M Db := fun db => (inr db, db).
Definition put (db' : Db) : M unit := fun _ => (inr tt, db').

Declare Scope m_scope.
Delimit Scope m_scope with M.
Notation "'let!' x ':=' m 'in' k" := (bind m (fun x => k))
  (at level 10, x name, m at level 100, k at level 200) : m_scope.
Notation "'do!' m 'in' k" := (bind m (fun _ => k))
  (at level 10, m at level 100, k at level 200) : m_scope.
Open Scope m_scope.

Definition set_orders (f : gmap nat Order -> gmap nat Order) (db : Db) : Db :=
  mkDb (f (orders db)) (holdings db) (positions db) (next_id db) (now db).
Definition set_holdings (f : gmap string Holding -> gmap string Holding) (db : Db) : Db :=
  mkDb (orders db) (f (holdings db)) (positions db) (next_id db) (now db).
Definition set_positions (f : gmap nat Position -> gmap nat Position) (db : Db) : Db :=
  mkDb (orders db) (holdings db) (f (positions db)) (next_id db) (now db).

(** An empty database. *)
Definition emptyDb : Db := mkDb ∅ ∅ ∅ 0 0%Z.

(** [uuidv4()]: a fresh identifier. *)
Definition uuidv4 : M nat :=
  fun db => (inr (next_id db),
             mkDb (orders db) (holdings db) (positions db) (S (next_id db)) (now db)).

(** ** OrderRepository *)

Record CreateOrderRequest := mkCreateOrderRequest {
  r_instrument : string;
  r_side : Side;
  r_quantity : Q;
  r_price : Q;
  r_order_time : option Date
}.

Module OrderRepository.

Definition createOrder (orderData : CreateOrderRequest) : M Order :=
  let! id := uuidv4 in
  let! db := get in
  let orderTime := default (now db) (r_order_time orderData) in
  let row := mkOrder id (r_instrument orderData) (r_side orderData)
               (r_quantity orderData) (r_price orderData)
               PENDING 0 None orderTime None in
  do! put (set_orders (insert id row) db) in
  ret row.

Definition getOrderById (id : nat) : M (option Order) :=
  let! db := get in ret (orders db !! id).

(** [UPDATE orders SET status = $2 [, filled_quantity, filled_time]
    [, filled_price] WHERE id = $1 RETURNING *]. *)
Definition updateOrderStatus (id : nat) (status : OrderStatus)
    (filledQuantity filledPrice : option Q) : M (option Order) :=
  let! db := get in
  match orders db !! id with
  | None => ret None
  | Some o =>
      let row :=
        match status, filledQuantity with
        | FILLED, Some filledQuantity =>
            mkOrder (o_id o) (o_instrument o) (o_side o) (o_quantity o) (o_price o)
              status filledQuantity
              (match filledPrice with
               | Some filledPrice => Some filledPrice
               | None => o_filled_price o
               end)
              (o_order_time o) (Some (now db))
        | _, _ =>
            mkOrder (o_id o) (o_instrument o) (o_side o) (o_quantity o) (o_price o)
              status (o_filled_quantity o) (o_filled_price o)
              (o_order_time o) (o_filled_time o)
        end in
      do! put (set_orders (insert id row) db) in
      ret (Some row)
  end.

End OrderRepository.

(** ** HoldingRepository *)

Module HoldingRepository.

Definition getHolding (instrument : string) : M (option Holding) :=
  let! db := get in ret (holdings db !! instrument).

(** [INSERT ... ON CONFLICT (instrument) DO UPDATE]: quantity, average
    price and total value are overwritten, the realized P&L is added to
    the stored one, the unrealized P&L column is left as it is. The
    identifier drawn for the [id] column is kept by a new row only; the
    record carries neither that column nor the timestamps. *)
Definition updateHolding (instrument : string) (quantity averagePrice realizedPnl : Q)
    : M Holding :=
  let totalValue := quantity * averagePrice in
  let! _id := uuidv4 in
  let! db := get in
  let row :=
    match holdings db !! instrument with
    | None => mkHolding instrument quantity averagePrice totalValue 0 realizedPnl
    | Some h =>
        mkHolding instrument quantity averagePrice totalValue
          (h_unrealized_pnl h) (h_realized_pnl h + realizedPnl)
    end in
  do! put (set_holdings (insert instrument row) db) in
  ret row.

(** [UPDATE holdings SET unrealized_pnl, total_value WHERE instrument]. *)
Definition updateUnrealizedPnl (instrument : string) (currentPrice : Q)
    : M (option Holding) :=
  let! holding := getHolding instrument in
  match holding with
  | None => ret None
  | Some holding =>
      let unrealizedPnl :=
        (currentPrice - h_average_price holding) * h_quantity holding in
      let totalValue := h_quantity holding * currentPrice in
      let! db := get in
      match holdings db !! instrument with
      | None => ret None
      | Some row =>
          let row' :=
            mkHolding (h_instrument row) (h_quantity row) (h_average_price row)
              totalValue unrealizedPnl (h_realized_pnl row) in
          do! put (set_holdings (insert instrument row') db) in
          ret (Some row')
      end
  end.

(** [DELETE FROM holdings WHERE instrument = $1]: was a row deleted? *)
Definition deleteHolding (instrument : string) : M bool :=
  let! db := get in
  match holdings db !! instrument with
  | None => ret false
  | Some _ =>
      do! put (set_holdings (delete instrument) db) in
      ret true
  end.

End HoldingRepository.

(** ** PositionRepository *)

Module PositionRepository.

Definition createPosition (instrument : string) (side : Side)
    (entryPrice quantity : Q) (entryTime : option Date) (strategyId : option nat)
    : M Position :=
  let! db0 := get in
  let entryTime := default (now db0) entryTime in
  let! id := uuidv4 in
  let! db := get in
  let row := mkPosition id instrument side entryPrice None quantity OPEN 0
               entryTime None strategyId in
  do! put (set_positions (insert id row) db) in
  ret row.

Definition getPositionById (id : nat) : M (option Position) :=
  let! db := get in ret (positions db !! id).

Definition calculatePnl (position : Position) (currentPrice : Q) : Q :=
  let priceDiff :=
    if Side_eqb (p_side position) BUY
    then currentPrice - p_entry_price position
    else p_entry_price position - currentPrice in
  priceDiff * p_quantity position.

Definition closePosition (id : nat) (exitPrice : Q) (exitTime : option Date)
    : M (option Position) :=
  let! db0 := get in
  let exitTime := default (now db0) exitTime in
  let! position := getPositionById id in
  match position with
  | None => ret None
  | Some position =>
      if PositionStatus_eqb (p_status position) CLOSED then ret None
      else
        let pnl := calculatePnl position exitPrice in
        let! db := get in
        match positions db !! id with
        | None => ret None
        | Some row =>
            let row' :=
              mkPosition (p_id row) (p_instrument row) (p_side row)
                (p_entry_price row) (Some exitPrice) (p_quantity row)
                CLOSED pnl (p_entry_time row) (Some exitTime)
                (p_strategy_id row) in
            do! put (set_positions (insert id row') db) in
            ret (Some row')
        end
  end.

(** [UPDATE positions SET pnl = $2 WHERE id = $1], refused for a missing
    or CLOSED position. *)
Definition updatePositionPnl (id : nat) (currentPrice : Q) : M (option Position) :=
  let! position := getPositionById id in
  match position with
  | None => ret None
  | Some position =>
      if PositionStatus_eqb (p_status position) CLOSED then ret None
      else
        let unrealizedPnl := calculatePnl position currentPrice in
        let! db := get in
        match positions db !! id with
        | None => ret None
        | Some row =>
            let row' :=
              mkPosition (p_id row) (p_instrument row) (p_side row)
                (p_entry_price row) (p_exit_price row) (p_quantity row)
                (p_status row) unrealizedPnl (p_entry_time row) (p_exit_time row)
                (p_strategy_id row) in
            do! put (set_positions (insert id row') db) in
            ret (Some row')
        end
  end.

Section Queries.

(** [ORDER BY entry_time DESC] leaves the order of rows with equal entry
    times to the database: [rowOrder] is the order in which the rows of
    the table come out. *)
Variable rowOrder : gmap nat Position -> list Position.

(** The WHERE clause built by [getPositions]: an empty [instrument] and an
    absent [status] or [strategyId] add no condition. *)
Definition positionMatches (instrument : string) (status : option PositionStatus)
    (strategyId : option nat) (p : Position) : bool :=
  (String.eqb instrument "" || String.eqb (p_instrument p) instrument)
  && match status with
     | Some status => PositionStatus_eqb (p_status p) status
     | None => true
     end
  && match strategyId with
     | Some strategyId =>
         match p_strategy_id p with
         | Some sid => (sid =? strategyId)%nat
         | None => false
         end
     | None => true
     end.

Definition getPositions (instrument : string) (status : option PositionStatus)
    (strategyId : option nat) (limit offset : nat) : M (list Position) :=
  let! db := get in
  ret (take limit
         (drop offset
            (List.filter (positionMatches instrument status strategyId)
               (rowOrder (positions db))))).

Definition getOpenPositions (instrument : string) : M (list Position) :=
  getPositions instrument (Some OPEN) None 100 0.

End Queries.

End PositionRepository.

(** ** PaperTradingService *)

Module PaperTradingService.

(** The signed quantity of an order: [filled_quantity] for a BUY, its
    negation for a SELL. *)
Definition signedQuantity (order : Order) : Q :=
  if Side_eqb (o_side order) BUY
  then o_filled_quantity order
  else - o_filled_quantity order.

(** The arithmetic of [updateHoldingFromOrder]: from the holding read
    (if any) and the order, the three arguments handed to
    [updateHolding]: new quantity, new average price, realized P&L. *)
Definition holdingUpdate (existingHolding : option Holding) (order : Order)
    : Q * Q * Q :=
  let fresh :=
    (signedQuantity order, JS.or_opt (o_filled_price order) (o_price order), 0) in
  match existingHolding with
  | None => fresh
  | Some existingHolding =>
      if JS.eqb (h_quantity existingHolding) 0 then fresh
      else
        let currentQuantity := h_quantity existingHolding in
        let currentAveragePrice := h_average_price existingHolding in
        let orderQuantity := signedQuantity order in
        let orderPrice := JS.or_opt (o_filled_price order) (o_price order) in
        if (JS.gtb currentQuantity 0 && JS.gtb orderQuantity 0)
           || (JS.ltb currentQuantity 0 && JS.ltb orderQuantity 0)
        then
          let totalValue :=
            currentQuantity * currentAveragePrice + orderQuantity * orderPrice in
          let newQuantity := currentQuantity + orderQuantity in
          (newQuantity, totalValue / newQuantity, 0)
        else
          let closingQuantity :=
            Qmin (Qabs currentQuantity) (Qabs orderQuantity) in
          let realizedPnL :=
            if JS.gtb currentQuantity 0
            then closingQuantity * (orderPrice - currentAveragePrice)
            else closingQuantity * (currentAveragePrice - orderPrice) in
          let newQuantity := currentQuantity + orderQuantity in
          let newAveragePrice :=
            if JS.eqb newQuantity 0 then 0
            else if JS.eqb (Qabs newQuantity) (Qabs orderQuantity)
                 then orderPrice
                 else currentAveragePrice in
          (newQuantity, newAveragePrice, realizedPnL)
  end.

Definition updateHoldingFromOrder (order : Order) : M unit :=
  let! existingHolding := HoldingRepository.getHolding (o_instrument order) in
  let '(newQuantity, newAveragePrice, realizedPnL) :=
    holdingUpdate existingHolding order in
  do! HoldingRepository.updateHolding (o_instrument order)
        newQuantity newAveragePrice realizedPnL in
  ret tt.

Definition createPositionFromOrder (order : Order) : M unit :=
  do! PositionRepository.createPosition
        (o_instrument order) (o_side order)
        (JS.or_opt (o_filled_price order) (o_price order))
        (o_filled_quantity order)
        (Some (default (o_order_time order) (o_filled_time order)))
        None in
  ret tt.

Definition fillOrder (orderId : nat) (filledQuantity filledPrice : option Q)
    : M Order :=
  let! order := OrderRepository.getOrderById orderId in
  match order with
  | None => throw (NotFoundError "Order not found")
  | Some order =>
      if negb (OrderStatus_eqb (o_status order) PENDING)
      then throw (ValidationError "Order is not in pending status")
      else
        let finalFilledQuantity := JS.or_opt filledQuantity (o_quantity order) in
        let finalFilledPrice := JS.or_opt filledPrice (o_price order) in
        let! updatedOrder :=
          OrderRepository.updateOrderStatus orderId FILLED
            (Some finalFilledQuantity) (Some finalFilledPrice) in
        match updatedOrder with
        | None => throw (GenericError "Failed to update order")
        | Some updatedOrder =>
            do! updateHoldingFromOrder updatedOrder in
            do! createPositionFromOrder updatedOrder in
            ret updatedOrder
        end
  end.

(** The checks on [side] and on [order_time] are carried by the types. *)
Definition validateOrderData (orderData : CreateOrderRequest) : M unit :=
  if String.eqb (r_instrument orderData) ""
  then throw (ValidationError "Invalid instrument")
  else if JS.leb (r_quantity orderData) 0
  then throw (ValidationError "Quantity must be a positive number")
  else if JS.leb (r_price orderData) 0
  then throw (ValidationError "Price must be a positive number")
  else ret tt.

(** The final [getOrderById(...) as Order] is returned as it is read. *)
Definition createOrder (orderData : CreateOrderRequest) : M (option Order) :=
  do! validateOrderData orderData in
  let! order := OrderRepository.createOrder orderData in
  do! fillOrder (o_id order) (Some (r_quantity orderData)) (Some (r_price orderData)) in
  OrderRepository.getOrderById (o_id order).

Definition updateHoldingFromPositionClosure (position : Position) : M unit :=
  let! holding := HoldingRepository.getHolding (p_instrument position) in
  match holding with
  | None => ret tt
  | Some holding =>
      do! HoldingRepository.updateHolding (p_instrument position)
            (h_quantity holding) (h_average_price holding) (p_pnl position) in
      ret tt
  end.

Definition closePosition (positionId : nat) (exitPrice : Q) : M Position :=
  let! db := get in
  let! position :=
    PositionRepository.closePosition positionId exitPrice (Some (now db)) in
  match position with
  | None => throw (NotFoundError "Position not found or already closed")
  | Some position =>
      do! updateHoldingFromPositionClosure position in
      ret position
  end.

Definition cancelOrder (orderId : nat) : M Order :=
  let! order := OrderRepository.getOrderById orderId in
  match order with
  | None => throw (NotFoundError "Order not found")
  | Some order =>
      if negb (OrderStatus_eqb (o_status order) PENDING)
      then throw (ValidationError "Only pending orders can be cancelled")
      else
        let! updatedOrder :=
          OrderRepository.updateOrderStatus orderId CANCELLED None None in
        match updatedOrder with
        | None => throw (GenericError "Failed to cancel order")
        | Some updatedOrder => ret updatedOrder
        end
  end.

(** [for (const position of positions) await body(position)]. *)
Fixpoint forEachPosition {A} (ps : list Position) (body : Position -> M A) : M unit :=
  match ps with
  | [] => ret tt
  | position :: rest =>
      do! body position in
      forEachPosition rest body
  end.

Definition updatePositionPrices (rowOrder : gmap nat Position -> list Position)
    (instrument : string) (currentPrice : Q) : M unit :=
  let! openPositions := PositionRepository.getOpenPositions rowOrder instrument in
  do! forEachPosition openPositions
        (fun position =>
           PositionRepository.updatePositionPnl (p_id position) currentPrice) in
  do! HoldingRepository.updateUnrealizedPnl instrument currentPrice in
  ret tt.

End PaperTradingService.

(** ** StrategyService: the backtest simulator *)

Record Candle := mkCandle {
  c_id : nat;
  c_instrument : string;
  c_timeframe : string;
  c_epoch_time : Z;
  c_open_price : Q;
  c_high_price : Q;
  c_low_price : Q;
  c_close_price : Q;
  c_volume : Q;
  c_open_interest : Q
}.

(** [strategy.parameters]: the fields the simulator reads. *)
Record StrategyParameters := mkStrategyParameters {
  sp_type : string;
  short_period : option nat;
  long_period : option nat
}.

Record Strategy := mkStrategy {
  s_id : nat;
  s_parameters : StrategyParameters
}.

Record PerformanceMetrics := mkPerformanceMetrics {
  totalTrades : nat;
  winningTrades : nat;
  totalPnl : Q;
  maxDrawdown : Q;
  winRate : Q;
  sharpeRatio : Q
}.

Module StrategyService.

(** [p || d] on an optional integer parameter: [undefined] and [0] are falsy. *)
Definition period_or (p : option nat) (d : nat) : nat :=
  match p with
  | Some (S n) => S n
  | _ => d
  end.

(** [xs.slice(start, stop)]. *)
Definition slice {A} (xs : list A) (start stop : nat) : list A :=
  take (stop - start) (drop start xs).

Definition calculateSMA (candles : list Candle) (index period : nat) : Q :=
  let start := Nat.max 0 (index + 1 - period) in
  let slice := slice candles start (index + 1) in
  let sum := fold_left (fun acc candle => acc + c_close_price candle) slice 0 in
  sum / inject_Z (Z.of_nat (length slice)).

(** One iteration of the signal loop at index [i]. *)
Definition simulateStep (strategy : Strategy) (candles : list Candle)
    (shortPeriod longPeriod : nat) (i : nat) (positions : list Position)
    : M (list Position) :=
  match candles !! i with
  | None => throw (GenericError "TypeError: candles[i] is undefined")
  | Some candle =>
      let shortSMA := calculateSMA candles i shortPeriod in
      let longSMA := calculateSMA candles i longPeriod in
      let prevShortSMA := calculateSMA candles (i - 1) shortPeriod in
      let prevLongSMA := calculateSMA candles (i - 1) longPeriod in
      let exitTime := (c_epoch_time candle * 1000)%Z in
      let! positions :=
        if JS.leb prevShortSMA prevLongSMA && JS.gtb shortSMA longSMA
        then
          let! position :=
            PositionRepository.createPosition (c_instrument candle) BUY
              (c_close_price candle) 100 (Some exitTime) (Some (s_id strategy)) in
          ret (positions ++ [position])
        else ret positions in
      if JS.geb prevShortSMA prevLongSMA && JS.ltb shortSMA longSMA
         && (0 <? length positions)%nat
      then
        match positions !! (length positions - 1)%nat with
        | None => ret positions
        | Some lastPosition =>
            if PositionStatus_eqb (p_status lastPosition) OPEN
            then
              let! closedPosition :=
                PositionRepository.closePosition (p_id lastPosition)
                  (c_close_price candle) (Some exitTime) in
              match closedPosition with
              | Some closedPosition =>
                  ret (<[(length positions - 1)%nat := closedPosition]> positions)
              | None => ret positions
              end
            else ret positions
        end
      else ret positions
  end.

(** [for (i of indices) positions = step(i, positions)]. *)
Fixpoint forEach (indices : list nat)
    (step : nat -> list Position -> M (list Position))
    (positions : list Position) : M (list Position) :=
  match indices with
  | [] => ret positions
  | i :: rest =>
      let! positions := step i positions in
      forEach rest step positions
  end.

(** The indices visited by [for (let i = longPeriod; i < candles.length; i++)]. *)
Definition loopIndices (candles : list Candle) (longPeriod : nat) : list nat :=
  seq longPeriod (length candles - longPeriod).

Definition simulateStrategy (strategy : Strategy) (candles : list Candle)
    : M (list Position) :=
  if String.eqb (sp_type (s_parameters strategy)) "sma_crossover"
  then
    let shortPeriod := period_or (short_period (s_parameters strategy)) 10 in
    let longPeriod := period_or (long_period (s_parameters strategy)) 20 in
    forEach (loopIndices candles longPeriod)
      (simulateStep strategy candles shortPeriod longPeriod) []
  else ret [].

(** The state of the run after its first [k] loop iterations. *)
Definition simulatePrefix (strategy : Strategy) (candles : list Candle) (k : nat)
    : M (list Position) :=
  let shortPeriod := period_or (short_period (s_parameters strategy)) 10 in
  let longPeriod := period_or (long_period (s_parameters strategy)) 20 in
  forEach (take k (loopIndices candles longPeriod))
    (simulateStep strategy candles shortPeriod longPeriod) [].

Definition isClosed (p : Position) : bool := PositionStatus_eqb (p_status p) CLOSED.
Definition isOpen (p : Position) : bool := PositionStatus_eqb (p_status p) OPEN.

(** The drawdown loop: state [(maxDrawdown, peak, runningPnl)]. *)
Definition drawdownStep (st : Q * Q * Q) (position : Position) : Q * Q * Q :=
  let '(maxDrawdown, peak, runningPnl) := st in
  let runningPnl := runningPnl + p_pnl position in
  let peak := if JS.gtb runningPnl peak then runningPnl else peak in
  let drawdown := (peak - runningPnl) / JS.or peak 1 in
  (Qmax maxDrawdown drawdown, peak, runningPnl).

Definition calculateMaxDrawdown (closedPositions : list Position) : Q :=
  let '(maxDrawdown, _, _) := fold_left drawdownStep closedPositions (0, 0, 0) in
  maxDrawdown.

Section Metrics.

(** [Math.sqrt]. *)
Variable Math_sqrt : Q -> Q.

(** The returns are exact rationals: the rounding of their mean and
    variance, and a zero [entry_price * quantity] (a division by zero in
    the source), are outside the numbers modelled. *)
Definition calculatePerformanceMetrics (positions : list Position)
    (candles : list Candle) : PerformanceMetrics :=
  let closedPositions := filter (fun p => isClosed p = true) positions in
  let totalTrades := length closedPositions in
  let winningTrades :=
    length (filter (fun p => JS.gtb (p_pnl p) 0 = true) closedPositions) in
  let totalPnl := fold_left (fun sum p => sum + p_pnl p) closedPositions 0 in
  let winRate :=
    if (0 <? totalTrades)%nat
    then inject_Z (Z.of_nat winningTrades) / inject_Z (Z.of_nat totalTrades)
    else 0 in
  let returns :=
    map (fun p => p_pnl p / (p_entry_price p * p_quantity p)) closedPositions in
  let avgReturn :=
    if (0 <? length returns)%nat
    then fold_left Qplus returns 0 / inject_Z (Z.of_nat (length returns))
    else 0 in
  let returnVariance :=
    if (0 <? length returns)%nat
    then fold_left (fun sum ret => sum + (ret - avgReturn) ^ 2) returns 0
         / inject_Z (Z.of_nat (length returns))
    else 0 in
  let returnStdDev := Math_sqrt returnVariance in
  let sharpeRatio :=
    if JS.gtb returnStdDev 0 then avgReturn / returnStdDev else 0 in
  mkPerformanceMetrics totalTrades winningTrades totalPnl
    (calculateMaxDrawdown closedPositions) winRate sharpeRatio.

End Metrics.

End StrategyService.

(** ** HistoricalDataService: the open-interest classifier *)

Inductive Direction := UP | DOWN | FLAT.
Inductive OIInterpretation :=
| LONG_BUILDUP | SHORT_BUILDUP | LONG_UNWINDING | SHORT_COVERING | INCONCLUSIVE.
Inductive Confidence := HIGH | MEDIUM | LOW.

Record OIAnalysis := mkOIAnalysis {
  interpretation : OIInterpretation;
  priceChange : Q;
  oiChange : Q;
  priceDirection : Direction;
  oiDirection : Direction;
  confidence : Confidence
}.

(** [CandleData]: the array [[epochTime, open, high, low, close, volume,
    openInterest]] a caller submits. *)
Record CandleData := mkCandleData {
  d_epochTime : Q;
  d_open : Q;
  d_high : Q;
  d_low : Q;
  d_close : Q;
  d_volume : Q;
  d_oi : Q
}.

(** One entry of the batched "set interpretation for bar id" update. *)
Record OIUpdate := mkOIUpdate {
  u_id : nat;
  u_interpretation : OIInterpretation
}.

Definition Direction_eqb (a b : Direction) : bool :=
  match a, b with
  | UP, UP | DOWN, DOWN | FLAT, FLAT => true
  | _, _ => false
  end.

Module HistoricalDataService.

Definition PRICE_THRESHOLD : Q := 1 # 10.
Definition OI_THRESHOLD : Q := 1.

(** A previous close of 0 (a division by zero: [Infinity] or [NaN] in
    the source) is outside the numbers modelled; [validateCandles] accepts
    bars with positive prices only. *)
Definition priceChangePercent (previousCandle currentCandle : Candle) : Q :=
  ((c_close_price currentCandle - c_close_price previousCandle)
     / c_close_price previousCandle) * 100.

Definition oiChangePercent (previousCandle currentCandle : Candle) : Q :=
  if JS.gtb (c_open_interest previousCandle) 0
  then ((c_open_interest currentCandle - c_open_interest previousCandle)
          / c_open_interest previousCandle) * 100
  else 0.

Definition direction (changePercent threshold change : Q) : Direction :=
  if JS.ltb (Qabs changePercent) threshold then FLAT
  else if JS.gtb change 0 then UP else DOWN.

Definition confidenceOf (priceChangePercent oiChangePercent : Q) : Confidence :=
  if JS.gtb (Qabs priceChangePercent) (5 # 10) && JS.gtb (Qabs oiChangePercent) 2
  then HIGH
  else if JS.gtb (Qabs priceChangePercent) (2 # 10) && JS.gtb (Qabs oiChangePercent) 1
  then MEDIUM
  else LOW.

Definition calculateOIInterpretation (previousCandle currentCandle : Candle)
    : OIAnalysis :=
  let priceChange := c_close_price currentCandle - c_close_price previousCandle in
  let oiChange := c_open_interest currentCandle - c_open_interest previousCandle in
  let priceChangePercent := priceChangePercent previousCandle currentCandle in
  let oiChangePercent := oiChangePercent previousCandle currentCandle in
  let priceDirection := direction priceChangePercent PRICE_THRESHOLD priceChange in
  let oiDirection := direction oiChangePercent OI_THRESHOLD oiChange in
  let '(interpretation, confidence) :=
    if Direction_eqb priceDirection UP && Direction_eqb oiDirection UP
    then (LONG_BUILDUP, confidenceOf priceChangePercent oiChangePercent)
    else if Direction_eqb priceDirection DOWN && Direction_eqb oiDirection UP
    then (SHORT_BUILDUP, confidenceOf priceChangePercent oiChangePercent)
    else if Direction_eqb priceDirection DOWN && Direction_eqb oiDirection DOWN
    then (LONG_UNWINDING, confidenceOf priceChangePercent oiChangePercent)
    else if Direction_eqb priceDirection UP && Direction_eqb oiDirection DOWN
    then (SHORT_COVERING, confidenceOf priceChangePercent oiChangePercent)
    else (INCONCLUSIVE, LOW) in
  mkOIAnalysis interpretation priceChange oiChange priceDirection oiDirection
    confidence.

(** [Number.isInteger] on a rational. *)
Definition isInteger (x : Q) : bool := (Qnum x mod QDen x =? 0)%Z.

(** The body of the validation loop at index [i]; being an array of seven
    numbers is carried by the type. *)
Definition validateCandle (i : nat) (candle : CandleData) : Error + unit :=
  if negb (isInteger (d_epochTime candle)) || JS.leb (d_epochTime candle) 0
  then inl (ValidationError ("Invalid epoch time at index " +:+ pretty i))
  else if JS.leb (d_open candle) 0
  then inl (ValidationError ("Invalid open price at index " +:+ pretty i))
  else if JS.leb (d_high candle) 0
  then inl (ValidationError ("Invalid high price at index " +:+ pretty i))
  else if JS.leb (d_low candle) 0
  then inl (ValidationError ("Invalid low price at index " +:+ pretty i))
  else if JS.leb (d_close candle) 0
  then inl (ValidationError ("Invalid close price at index " +:+ pretty i))
  else if JS.ltb (d_high candle) (Qmax (d_open candle) (d_close candle))
          || JS.gtb (d_low candle) (Qmin (d_open candle) (d_close candle))
  then inl (ValidationError ("Invalid OHLC relationship at index " +:+ pretty i))
  else if JS.ltb (d_high candle) (d_low candle)
  then inl (ValidationError
              ("High price cannot be less than low price at index " +:+ pretty i))
  else if JS.ltb (d_volume candle) 0
  then inl (ValidationError ("Invalid volume at index " +:+ pretty i))
  else if JS.ltb (d_oi candle) 0
  then inl (ValidationError ("Invalid open interest at index " +:+ pretty i))
  else inr tt.

(** [for (let i = from; ...)] over the remaining candles. *)
Fixpoint validateCandlesFrom (i : nat) (candles : list CandleData) : Error + unit :=
  match candles with
  | [] => inr tt
  | candle :: rest =>
      match validateCandle i candle with
      | inl e => inl e
      | inr _ => validateCandlesFrom (S i) rest
      end
  end.

Definition validateCandles (candles : list CandleData) : Error + unit :=
  if (Z.of_nat (length candles) =? 0)%Z
  then inl (ValidationError "Candles array cannot be empty")
  else if (50000 <? Z.of_nat (length candles))%Z
  then inl (ValidationError "Cannot process more than 50000 candles at once")
  else validateCandlesFrom 0 candles.

(** [/^[A-Za-z0-9_-]+$/] on one character. *)
Definition isInstrumentChar (a : Ascii.ascii) : bool :=
  let n := Ascii.nat_of_ascii a in
  ((65 <=? n) && (n <=? 90))%nat || ((97 <=? n) && (n <=? 122))%nat
  || ((48 <=? n) && (n <=? 57))%nat || (n =? 95)%nat || (n =? 45)%nat.

Definition validateInstrument (instrument : string) : Error + unit :=
  if String.eqb instrument ""
  then inl (ValidationError "Invalid instrument")
  else if (String.length instrument <? 1)%nat || (50 <? String.length instrument)%nat
  then inl (ValidationError "Instrument must be between 1 and 50 characters")
  else if negb (forallb isInstrumentChar (String.list_ascii_of_string instrument))
  then inl (ValidationError
              "Instrument can only contain letters, numbers, underscores, and hyphens")
  else inr tt.

Definition validTimeframes : list string :=
  ["1m"; "3m"; "5m"; "15m"; "30m"; "1h"; "2h"; "4h"; "6h"; "8h"; "12h";
   "1d"; "3d"; "1w"; "1M"].

Definition validateTimeframe (timeframe : string) : Error + unit :=
  if String.eqb timeframe ""
  then inl (ValidationError "Invalid timeframe")
  else if negb (existsb (String.eqb timeframe) validTimeframes)
  then inl (ValidationError
              ("Invalid timeframe. Must be one of: "
               +:+ String.concat ", " validTimeframes))
  else inr tt.

(** [xs.sort((a, b) => key(a) - key(b))]: the stable ascending sort. *)
Fixpoint insertSorted {A} (key : A -> Z) (x : A) (sorted : list A) : list A :=
  match sorted with
  | [] => [x]
  | y :: rest =>
      if (key x <=? key y)%Z then x :: y :: rest
      else y :: insertSorted key x rest
  end.

Definition sortBy {A} (key : A -> Z) (xs : list A) : list A :=
  foldr (insertSorted key) [] xs.

(** [xs.findIndex(f)], [None] standing for -1. *)
Fixpoint findIndex {A} (f : A -> bool) (xs : list A) : option nat :=
  match xs with
  | [] => None
  | x :: rest => if f x then Some 0%nat else S <$> findIndex f rest
  end.

(** The inner loop of the batch analysis: the updates of one batch. *)
Fixpoint batchUpdates (sortedCandles batch : list Candle) : Error + list OIUpdate :=
  match batch with
  | [] => inr []
  | currentCandle :: rest =>
      match findIndex (fun c => (c_id c =? c_id currentCandle)%nat) sortedCandles with
      | Some 0%nat => batchUpdates sortedCandles rest
      | Some (S previousIndex) =>
          match sortedCandles !! previousIndex with
          | Some previousCandle =>
              let oiAnalysis := calculateOIInterpretation previousCandle currentCandle in
              match batchUpdates sortedCandles rest with
              | inl e => inl e
              | inr updates =>
                  inr (mkOIUpdate (c_id currentCandle) (interpretation oiAnalysis)
                         :: updates)
              end
          | None => inl (GenericError "TypeError: previousCandle is undefined")
          end
      | None => inl (GenericError "TypeError: previousCandle is undefined")
      end
  end.

Section Analysis.

(** [db.query] on the statement [UPDATE candles SET oi_interpretation =
    CASE id WHEN ... END WHERE id IN (...)] built from a batch of updates:
    [query executed updates] is what the database answers for [updates]
    after the statements built from [executed]. *)
Variable query : list (list OIUpdate) -> list OIUpdate -> Error + unit.

(** [CandleRepository.updateOIInterpretations]: nothing is sent for an
    empty list, otherwise the one statement is executed and its failure is
    thrown. *)
Definition updateOIInterpretations (executed : list (list OIUpdate))
    (updates : list OIUpdate) : Error + unit :=
  if (length updates =? 0)%nat then inr tt else query executed updates.

(** The outer loop [for (let i = 1; i < n; i += batchSize)], bounded by
    [fuel] iterations ([None]: still running when the fuel is spent). The
    state is the list of batches written by [updateOIInterpretations] so
    far and [updatedCount]; a write that fails ends the loop with its
    error. *)
Fixpoint batchLoop (fuel : nat) (sortedCandles : list Candle) (batchSize i : nat)
    (calls : list (list OIUpdate)) (updatedCount : nat)
    : option (Error + list (list OIUpdate) * nat) :=
  if negb (i <? length sortedCandles)%nat then Some (inr (calls, updatedCount))
  else
    match fuel with
    | 0%nat => None
    | S fuel =>
        let batch := StrategyService.slice sortedCandles i (i + batchSize) in
        match batchUpdates sortedCandles batch with
        | inl e => Some (inl e)
        | inr updates =>
            if (0 <? length updates)%nat
            then
              match updateOIInterpretations calls updates with
              | inl e => Some (inl e)
              | inr _ =>
                  batchLoop fuel sortedCandles batchSize (i + batchSize)
                    (calls ++ [updates]) (updatedCount + length updates)
              end
            else batchLoop fuel sortedCandles batchSize (i + batchSize)
                   calls updatedCount
        end
    end.

(** [analyzeAndUpdateOIInterpretations], given the rows [candles] that
    [getCandles] returned: the batches written and [{updated, total}], or
    the error thrown. *)
Definition analyzeAndUpdateOIInterpretations (fuel : nat)
    (instrument timeframe : string) (candles : list Candle) (batchSize : nat)
    : option (Error + list (list OIUpdate) * (nat * nat)) :=
  match validateInstrument instrument with
  | inl e => Some (inl e)
  | inr _ =>
      match validateTimeframe timeframe with
      | inl e => Some (inl e)
      | inr _ =>
          if (length candles <? 2)%nat
          then Some (inr ([], (0%nat, length candles)))
          else
            let sortedCandles := sortBy c_epoch_time candles in
            match batchLoop fuel sortedCandles batchSize 1 [] 0 with
            | None => None
            | Some (inl e) => Some (inl e)
            | Some (inr (calls, updatedCount)) =>
                Some (inr (calls, (updatedCount, length sortedCandles)))
            end
      end
  end.

End Analysis.

End HistoricalDataService.

(** ** Vocabulary of the ledger statements *)

Module Ledger.
Import PaperTradingService.

(** Existing quantity and fill quantity have opposite signs. *)
Definition oppositeSigns (existing q : Q) : Prop :=
  (0 < existing /\ q < 0) \/ (existing < 0 /\ 0 < q).

(** The fill price of an order: [filled_price || price]. *)
Definition fillPrice (order : Order) : Q :=
  JS.or_opt (o_filled_price order) (o_price order).

(** A stored long holding of 10 at average price 100. *)
Definition long10at100 (instrument : string) (unrealized realized : Q) : Holding :=
  mkHolding instrument 10 100 1000 unrealized realized.

(** The order row of a SELL of [quantity] filled at [price]. *)
Definition sellFilled (id : nat) (instrument : string) (quantity price : Q)
    (orderTime fillTime : Date) : Order :=
  mkOrder id instrument SELL quantity price FILLED quantity (Some price)
    orderTime (Some fillTime).

(** A ledger holding one row: the long of 10 at 100 on NIFTY. *)
Definition ledgerLong10 : Db :=
  mkDb ∅ {[ "NIFTY" := long10at100 "NIFTY" 0 0 ]} ∅ 0 0%Z.

(** A request accepted by [validateOrderData]. *)
Definition validRequest (r : CreateOrderRequest) : Prop :=
  0 < r_quantity r /\ 0 < r_price r /\ r_instrument r <> "".

(** The signed quantity of a request: BUY positive, SELL negative. *)
Definition requestQuantity (r : CreateOrderRequest) : Q :=
  match r_side r with
  | BUY => r_quantity r
  | SELL => - r_quantity r
  end.

(** The signed sum of the requests placed on [instrument]. *)
Fixpoint signedSum (instrument : string) (reqs : list CreateOrderRequest) : Q :=
  match reqs with
  | [] => 0
  | r :: rest =>
      (if String.eqb (r_instrument r) instrument then requestQuantity r else 0)
      + signedSum instrument rest
  end.

(** The stored quantity of an optional holding row ([0] when there is none). *)
Definition holdingQuantity (h : option Holding) : Q :=
  match h with
  | Some h => h_quantity h
  | None => 0
  end.

(** [for (r of reqs) await createOrder(r)]. *)
Fixpoint placeOrders (reqs : list CreateOrderRequest) : M unit :=
  match reqs with
  | [] => ret tt
  | r :: rest =>
      do! createOrder r in
      placeOrders rest
  end.

(** The row [updateOrderStatus] leaves for a fill of order [o]. *)
Definition filledRow (o : Order) (filledQuantity filledPrice : option Q)
    (fillTime : Date) : Order :=
  mkOrder (o_id o) (o_instrument o) (o_side o) (o_quantity o) (o_price o) FILLED
    (JS.or_opt filledQuantity (o_quantity o))
    (Some (JS.or_opt filledPrice (o_price o)))
    (o_order_time o) (Some fillTime).

(** The P&L the data model assigns to a position closed at [exitPrice]. *)
Definition closingPnl (p : Position) (exitPrice : Q) : Q :=
  match p_side p with
  | BUY => (exitPrice - p_entry_price p) * p_quantity p
  | SELL => (p_entry_price p - exitPrice) * p_quantity p
  end.

(** The stored realized P&L of an optional holding row. *)
Definition holdingRealized (h : option Holding) : Q :=
  match h with
  | Some h => h_realized_pnl h
  | None => 0
  end.

(** "Closing the OPEN position [id] at [exitPrice] yields the data-model
    P&L and the instrument's holding gains exactly that P&L." *)
Definition closeFoldsIntoHolding (db : Db) (id : nat) (exitPrice : Q) : Prop :=
  forall p,
    positions db !! id = Some p ->
    p_status p = OPEN ->
    exists p' db' h',
      closePosition id exitPrice db = (inr p', db')
      /\ p_pnl p' == closingPnl p exitPrice
      /\ holdings db' !! p_instrument p = Some h'
      /\ h_realized_pnl h'
           == holdingRealized (holdings db !! p_instrument p) + p_pnl p'.

(** The database after the backtest simulator opened one long of 10 at 100
    on NIFTY for strategy 7: a position row and no holding row. *)
Definition afterSimulatedOpen : Db :=
  (PositionRepository.createPosition "NIFTY" BUY 100 10 (Some 0%Z) (Some 7%nat)
     emptyDb).2.

(** A ledger with the long of 10 at 100 on NIFTY and the OPEN position
    that opened it. *)
Definition ledgerLong10Open : Db :=
  mkDb ∅ {[ "NIFTY" := long10at100 "NIFTY" 0 0 ]}
    {[ 1%nat := mkPosition 1 "NIFTY" BUY 100 None 10 OPEN 0 0%Z None None ]}
    2 5%Z.

(** A ledger with one PENDING order: BUY 10 NIFTY at 100. *)
Definition ledgerPending : Db :=
  mkDb {[ 0%nat := mkOrder 0 "NIFTY" BUY 10 100 PENDING 0 None 0%Z None ]}
    ∅ ∅ 1 5%Z.




End Ledger.

(** ** Vocabulary of the classifier statements *)

Module Classifier.

(** The percentage moves as the specification words them:
    [price_change_pct = price_change / previous.close * 100] and
    [oi_change_pct = oi_change / previous.open_interest * 100] if
    [previous.open_interest > 0], else 0. *)
Definition specPriceChangePct (previous current : Candle) : Q :=
  (c_close_price current - c_close_price previous) / c_close_price previous * 100.

Definition specOiChangePct (previous current : Candle) : Q :=
  if Qlt_le_dec 0 (c_open_interest previous)
  then (c_open_interest current - c_open_interest previous)
         / c_open_interest previous * 100
  else 0.

(** The direction of a percentage change as the specification words it:
    FLAT below the threshold in absolute value, else UP or DOWN by sign. *)
Definition specDirection (changePercent threshold : Q) : Direction :=
  if Qlt_le_dec (Qabs changePercent) threshold then FLAT
  else if Qlt_le_dec 0 changePercent then UP
  else DOWN.

(** The 2x2 cross of the non-FLAT directions. *)
Definition specInterpretation (price oi : Direction) : OIInterpretation :=
  match price, oi with
  | UP, UP => LONG_BUILDUP
  | DOWN, UP => SHORT_BUILDUP
  | DOWN, DOWN => LONG_UNWINDING
  | UP, DOWN => SHORT_COVERING
  | _, _ => INCONCLUSIVE
  end.

Definition candleAt (close oi : Q) : Candle :=
  mkCandle 0 "NIFTY" "1m" 0 close close close close 0 oi.

(** A bar with its prices multiplied by [k] and its open interest by [m]. *)
Definition rescale (k m : Q) (c : Candle) : Candle :=
  mkCandle (c_id c) (c_instrument c) (c_timeframe c) (c_epoch_time c)
    (k * c_open_price c) (k * c_high_price c) (k * c_low_price c)
    (k * c_close_price c) (c_volume c) (m * c_open_interest c).

(** The shape of a bar in the data model: a positive integer timestamp,
    positive prices with the high at or above open and close and the low at
    or below them, non-negative volume and open interest. *)
Definition wellFormedBar (candle : CandleData) : Prop :=
  HistoricalDataService.isInteger (d_epochTime candle) = true
  /\ 0 < d_epochTime candle
  /\ 0 < d_open candle /\ 0 < d_high candle /\ 0 < d_low candle /\ 0 < d_close candle
  /\ Qmax (d_open candle) (d_close candle) <= d_high candle
  /\ d_low candle <= Qmin (d_open candle) (d_close candle)
  /\ 0 <= d_volume candle
  /\ 0 <= d_oi candle.

(** A well-formed one-minute bar. *)
Definition sampleBar : CandleData := mkCandleData 1700000000 100 105 99 104 2500 1000.

(** The updates of a whole series: every bar but the first, classified
    against the bar just before it. *)
Definition pairUpdates (sortedCandles : list Candle) : list OIUpdate :=
  zip_with
    (fun previous current =>
       mkOIUpdate (c_id current)
         (interpretation
            (HistoricalDataService.calculateOIInterpretation previous current)))
    sortedCandles (drop 1 sortedCandles).

(** Handing the batches [todo] to the database one after the other, after
    the batches [done]: the error of the first write that fails, or all
    the batches written. *)
Fixpoint writeAll (query : list (list OIUpdate) -> list OIUpdate -> Error + unit)
    (done todo : list (list OIUpdate)) : Error + list (list OIUpdate) :=
  match todo with
  | [] => inr done
  | batch :: rest =>
      match query done batch with
      | inl e => inl e
      | inr _ => writeAll query (done ++ [batch]) rest
      end
  end.

(** A database that executes every statement. *)
Definition acceptingDatabase (executed : list (list OIUpdate))
    (updates : list OIUpdate) : Error + unit :=
  inr tt.

(** A database that rejects the statement, as PostgreSQL does when a CASE
    of string literals is assigned to an enum column. *)
Definition rejectingDatabase (executed : list (list OIUpdate))
    (updates : list OIUpdate) : Error + unit :=
  inl (GenericError
         "column oi_interpretation is of type oi_interpretation but expression is of type text").

(** Three bars of one series, newest first as the repository returns them. *)
Definition threeBars : list Candle :=
  [ mkCandle 13 "NIFTY" "1m" 180 103 103 103 103 0 1100;
    mkCandle 12 "NIFTY" "1m" 120 (1012 # 10) (1012 # 10) (1012 # 10) (1012 # 10) 0 1050;
    mkCandle 11 "NIFTY" "1m" 60 100 100 100 100 0 1000 ].

End Classifier.

(** ** Vocabulary of the backtest statements *)

Module Backtest.
Import StrategyService.

(** Cumulative P&L after the first [k] closed positions. *)
Definition cumulative (pnls : list Q) (k : nat) : Q :=
  fold_left Qplus (take k pnls) 0.

(** Running peak of the cumulative P&L after [k] closed positions (the
    walk starts from a peak of 0). *)
Definition peakAt (pnls : list Q) (k : nat) : Q :=
  fold_left Qmax (map (cumulative pnls) (seq 1 k)) 0.

(** Drawdown at step [k] for a given guard on the divisor. *)
Definition drawdownAt (divisor : Q -> Q) (pnls : list Q) (k : nat) : Q :=
  (peakAt pnls k - cumulative pnls k) / divisor (peakAt pnls k).

(** Maximum drawdown observed across the walk. *)
Definition walkMaxDrawdown (divisor : Q -> Q) (pnls : list Q) : Q :=
  fold_left Qmax (map (drawdownAt divisor pnls) (seq 1 (length pnls))) 0.

(** The divisor as the specification words it: [max(peak, 1)]. *)
Definition specDivisor (peak : Q) : Q := Qmax peak 1.

(** The divisor of the code: [peak || 1]. *)
Definition guardDivisor (peak : Q) : Q := JS.or peak 1.

Definition specMaxDrawdown (pnls : list Q) : Q := walkMaxDrawdown specDivisor pnls.

(** The P&L column of the CLOSED positions, in order. *)
Definition closedPnls (positions : list Position) : list Q :=
  map p_pnl (filter (fun p => isClosed p = true) positions).

(** A CLOSED long of 100 units entered at 100 with the given P&L. *)
Definition closedWith (id : nat) (pnl : Q) : Position :=
  mkPosition id "NIFTY" BUY 100 (Some (100 + pnl / 100)) 100 CLOSED pnl
    0%Z (Some 60%Z) (Some 7%nat).

(** A square root to six decimals, standing for [Math.sqrt]. *)
Definition sqrt6 (x : Q) : Q :=
  inject_Z (Z.sqrt (Qnum x * 1000000000000 / Zpos (Qden x))) / 1000000.

(** At most one position of the list is OPEN. *)
Definition atMostOneOpen (ps : list Position) : Prop :=
  (length (filter (fun p => isOpen p = true) ps) <= 1)%nat.

(** "At every step of the run at most one position created by it is OPEN." *)
Definition singlePositionAtEveryStep (strategy : Strategy) (candles : list Candle)
    (db : Db) : Prop :=
  forall k ps db',
    simulatePrefix strategy candles k db = (inr ps, db') -> atMostOneOpen ps.

(** The short and the long average differ at every index the loop visits. *)
Definition noTies (strategy : Strategy) (candles : list Candle) : Prop :=
  let shortPeriod := period_or (short_period (s_parameters strategy)) 10 in
  let longPeriod := period_or (long_period (s_parameters strategy)) 20 in
  forall i,
    (longPeriod <= i < length candles)%nat ->
    ~ calculateSMA candles i shortPeriod == calculateSMA candles i longPeriod.

(** The state of the run between two iterations: every recorded position
    is CLOSED, except possibly the last one, which is then stored OPEN in
    the database while the short average is above the long one at the
    index just visited. *)
Definition runInvariant (candles : list Candle) (shortPeriod longPeriod : nat)
    (i : nat) (ps : list Position) (db : Db) : Prop :=
  exists cs,
    Forall (fun p => p_status p = CLOSED) cs
    /\ (ps = cs
        \/ exists p,
             ps = cs ++ [p]
             /\ p_status p = OPEN
             /\ positions db !! p_id p = Some p
             /\ calculateSMA candles i longPeriod < calculateSMA candles i shortPeriod).

(** A crossover strategy with the given periods. *)
Definition crossover (shortPeriod longPeriod : nat) : Strategy :=
  mkStrategy 7 (mkStrategyParameters "sma_crossover" (Some shortPeriod) (Some longPeriod)).

(** Bars of one instrument with the given closes, one minute apart. *)
Definition bars (closes : list Q) : list Candle :=
  imap (fun i close =>
          mkCandle i "NIFTY" "1m" (60 * Z.of_nat i) close close close close 0 0)
       closes.

End Backtest.

(** ** Vocabulary of the further ledger statements *)

Module LedgerMore.
Import PaperTradingService Ledger.

(** Existing quantity and fill quantity have the same sign. *)
Definition sameSigns (existing q : Q) : Prop :=
  (0 < existing /\ 0 < q) \/ (existing < 0 /\ q < 0).

(** The position row [createPositionFromOrder] inserts for a request filled
    at once: the lot of the fill, OPEN, stamped with the fill time. *)
Definition openedPosition (id : nat) (r : CreateOrderRequest) (fillTime : Date)
    : Position :=
  mkPosition id (r_instrument r) (r_side r) (r_price r) None (r_quantity r)
    OPEN 0 fillTime None None.

(** The order row left by [createOrder] for an accepted request. *)
Definition filledOrder (id : nat) (r : CreateOrderRequest) (fillTime : Date)
    : Order :=
  mkOrder id (r_instrument r) (r_side r) (r_quantity r) (r_price r) FILLED
    (r_quantity r) (Some (r_price r))
    (default fillTime (r_order_time r)) (Some fillTime).

(** An order row with its status replaced. *)
Definition withStatus (o : Order) (status : OrderStatus) : Order :=
  mkOrder (o_id o) (o_instrument o) (o_side o) (o_quantity o) (o_price o)
    status (o_filled_quantity o) (o_filled_price o)
    (o_order_time o) (o_filled_time o).

(** A ledger with a short of 10 at 100 on NIFTY. *)
Definition ledgerShort10 : Db :=
  mkDb ∅ {[ "NIFTY" := mkHolding "NIFTY" (- 10) 100 (- 1000) 0 0 ]} ∅ 0 0%Z.

(** A ledger whose only order, on NIFTY, was cancelled. *)
Definition ledgerCancelled : Db :=
  mkDb {[ 0%nat := mkOrder 0 "NIFTY" BUY 10 100 CANCELLED 0 None 0%Z None ]}
    ∅ ∅ 1 5%Z.

(** The order row of a BUY of [quantity] filled at [price]. *)
Definition buyFilled (id : nat) (instrument : string) (quantity price : Q)
    (orderTime fillTime : Date) : Order :=
  mkOrder id instrument BUY quantity price FILLED quantity (Some price)
    orderTime (Some fillTime).

(** The rows of the positions table come out in some order, each once. *)
Definition enumerates (rowOrder : gmap nat Position -> list Position) : Prop :=
  forall m, rowOrder m ≡ₚ (map_to_list m).*2.

(** Every position row is stored under its own id. *)
Definition keyedById (db : Db) : Prop :=
  forall id p, positions db !! id = Some p -> p_id p = id.

(** A position with its P&L column recomputed at [price]. *)
Definition repriced (p : Position) (price : Q) : Position :=
  mkPosition (p_id p) (p_instrument p) (p_side p) (p_entry_price p)
    (p_exit_price p) (p_quantity p) (p_status p) (closingPnl p price)
    (p_entry_time p) (p_exit_time p) (p_strategy_id p).

(** The rows re-priced by a mark-to-market of [instrument]: the first 100
    OPEN rows that match, in the order the database returns them. *)
Definition markedRows (rowOrder : gmap nat Position -> list Position)
    (instrument : string) (db : Db) : list Position :=
  take 100
    (List.filter (PositionRepository.positionMatches instrument (Some OPEN) None)
       (rowOrder (positions db))).

(** A holding with its market columns recomputed at [price]. *)
Definition markedHolding (h : Holding) (price : Q) : Holding :=
  mkHolding (h_instrument h) (h_quantity h) (h_average_price h)
    (h_quantity h * price) ((price - h_average_price h) * h_quantity h)
    (h_realized_pnl h).

(** Rows by id, newest entry first. *)
Definition newestFirst (m : gmap nat Position) : list Position :=
  HistoricalDataService.sortBy (fun p => (- p_entry_time p)%Z) (map_to_list m).*2.

End LedgerMore.

(** ** Vocabulary of the further backtest statements *)

Module BacktestMore.
Import StrategyService Backtest.

(** The timestamp the simulator stamps a bar with. *)
Definition barTime (c : Candle) : Date := (c_epoch_time c * 1000)%Z.

(** The arithmetic mean of the close prices of [window]. *)
Definition meanClose (window : list Candle) : Q :=
  foldr (fun c total => c_close_price c + total) 0 window
  / inject_Z (Z.of_nat (length window)).

(** A position as the simulator records it: a long of 100 units opened at
    the close of one of the bars for the strategy under test, either still
    OPEN with no exit data, or CLOSED at the close of one of the bars with
    P&L [(exit - entry) * 100]. *)
Definition simulatedLot (strategy : Strategy) (candles : list Candle)
    (p : Position) : Prop :=
  p_side p = BUY
  /\ p_quantity p = 100
  /\ p_strategy_id p = Some (s_id strategy)
  /\ (exists c, c ∈ candles
               /\ p_instrument p = c_instrument c
               /\ p_entry_price p = c_close_price c
               /\ p_entry_time p = barTime c)
  /\ match p_status p with
     | OPEN => p_exit_price p = None /\ p_exit_time p = None /\ p_pnl p = 0
     | CLOSED =>
         exists c, c ∈ candles
                   /\ p_exit_price p = Some (c_close_price c)
                   /\ p_exit_time p = Some (barTime c)
                   /\ p_pnl p = (c_close_price c - p_entry_price p) * 100
     end.

(** What a run that started from [db0] has done so far: it has recorded
    [ps] and reached [db]. *)
Definition runState (strategy : Strategy) (candles : list Candle) (db0 : Db)
    (ps : list Position) (db : Db) : Prop :=
  orders db = orders db0
  /\ holdings db = holdings db0
  /\ now db = now db0
  /\ next_id db = (next_id db0 + length ps)%nat
  /\ map p_id ps = seq (next_id db0) (length ps)
  /\ Forall (simulatedLot strategy candles) ps
  /\ (forall p, p ∈ ps -> positions db !! p_id p = Some p)
  /\ (forall id, (id < next_id db0)%nat -> positions db !! id = positions db0 !! id).

(** The two halves of one loop iteration at bar [candle] of index [i]. *)
Definition openOnGoldenCross (strategy : Strategy) (candles : list Candle)
    (shortPeriod longPeriod i : nat) (candle : Candle) (ps : list Position)
    : M (list Position) :=
  if JS.leb (calculateSMA candles (i - 1) shortPeriod)
            (calculateSMA candles (i - 1) longPeriod)
     && JS.gtb (calculateSMA candles i shortPeriod) (calculateSMA candles i longPeriod)
  then
    let! position :=
      PositionRepository.createPosition (c_instrument candle) BUY
        (c_close_price candle) 100 (Some (c_epoch_time candle * 1000)%Z)
        (Some (s_id strategy)) in
    ret (ps ++ [position])
  else ret ps.

Definition closeOnDeathCross (candles : list Candle)
    (shortPeriod longPeriod i : nat) (candle : Candle) (ps : list Position)
    : M (list Position) :=
  if JS.geb (calculateSMA candles (i - 1) shortPeriod)
            (calculateSMA candles (i - 1) longPeriod)
     && JS.ltb (calculateSMA candles i shortPeriod) (calculateSMA candles i longPeriod)
     && (0 <? length ps)%nat
  then
    match ps !! (length ps - 1)%nat with
    | None => ret ps
    | Some lastPosition =>
        if PositionStatus_eqb (p_status lastPosition) OPEN
        then
          let! closedPosition :=
            PositionRepository.closePosition (p_id lastPosition)
              (c_close_price candle) (Some (c_epoch_time candle * 1000)%Z) in
          match closedPosition with
          | Some closedPosition =>
              ret (<[(length ps - 1)%nat := closedPosition]> ps)
          | None => ret ps
          end
        else ret ps
    end
  else ret ps.

End BacktestMore.

(** * Properties *)

(** ** Facts about the number helpers *)

Module JSFacts.
Import JS.

Lemma ltb_lt a b : ltb a b = true <-> a < b.
Proof.
  unfold ltb. rewrite negb_true_iff.
  destruct (Qle_bool b a) eqn:E.
  - apply Qle_bool_iff in E. split; [discriminate | intros H; lra].
  - split; [intros _ | reflexivity].
    apply Qnot_le_lt. intros H. apply Qle_bool_iff in H. congruence.
Qed.

Lemma ltb_ge a b : ltb a b = false <-> b <= a.
Proof.
  unfold ltb. rewrite negb_false_iff. apply Qle_bool_iff.
Qed.

Lemma gtb_gt a b : gtb a b = true <-> b < a.
Proof. apply ltb_lt. Qed.

Lemma gtb_le a b : gtb a b = false <-> a <= b.
Proof. apply ltb_ge. Qed.

Lemma leb_le a b : leb a b = true <-> a <= b.
Proof. apply Qle_bool_iff. Qed.

Lemma geb_ge a b : geb a b = true <-> b <= a.
Proof. apply Qle_bool_iff. Qed.

Lemma eqb_eq a b : eqb a b = true <-> a == b.
Proof. apply Qeq_bool_iff. Qed.

Lemma eqb_neq a b : eqb a b = false <-> ~ a == b.
Proof.
  unfold eqb. split.
  - intros E H. apply Qeq_bool_iff in H. congruence.
  - intros H. destruct (Qeq_bool a b) eqn:E; [|reflexivity].
    apply Qeq_bool_iff in E. contradiction.
Qed.

Lemma truthy_true x : truthy x = true <-> ~ x == 0.
Proof. unfold truthy. rewrite negb_true_iff. apply eqb_neq. Qed.

Lemma truthy_false x : truthy x = false <-> x == 0.
Proof. unfold truthy. rewrite negb_false_iff. apply eqb_eq. Qed.

Lemma or_same x : JS.or x x = x.
Proof. unfold JS.or. destruct (truthy x); reflexivity. Qed.

Lemma or_zero (z d : Q) : z == 0 -> JS.or z d = d.
Proof. intros H. unfold JS.or. apply truthy_false in H. rewrite H. reflexivity. Qed.

Lemma or_nonzero (x d : Q) : ~ x == 0 -> JS.or x d = x.
Proof. intros H. unfold JS.or. apply truthy_true in H. rewrite H. reflexivity. Qed.

End JSFacts.

(** ** The holding update on a fill *)

Module LedgerFacts.
Import JS JSFacts PaperTradingService Ledger.

Lemma sameDirection_false (c q : Q) :
  oppositeSigns c q ->
  (gtb c 0 && gtb q 0) || (ltb c 0 && ltb q 0) = false.
Proof.
  intros [[Hc Hq] | [Hc Hq]].
  - assert (E1 : gtb q 0 = false) by (apply gtb_le; lra).
    assert (E2 : ltb c 0 = false) by (apply ltb_ge; lra).
    rewrite E1, E2, andb_false_r. reflexivity.
  - assert (E1 : gtb c 0 = false) by (apply gtb_le; lra).
    assert (E2 : ltb q 0 = false) by (apply ltb_ge; lra).
    rewrite E1, E2, andb_false_r. reflexivity.
Qed.

Lemma oppositeSigns_nonzero (c q : Q) : oppositeSigns c q -> eqb c 0 = false.
Proof. intros [[Hc Hq] | [Hc Hq]]; apply eqb_neq; lra. Qed.

(** In the opposite-direction branch the triple handed to [updateHolding]. *)
Lemma holdingUpdate_opposite (h : Holding) (order : Order) :
  oppositeSigns (h_quantity h) (signedQuantity order) ->
  holdingUpdate (Some h) order =
    (h_quantity h + signedQuantity order,
     (if eqb (h_quantity h + signedQuantity order) 0 then 0
      else if eqb (Qabs (h_quantity h + signedQuantity order))
                  (Qabs (signedQuantity order))
           then fillPrice order else h_average_price h),
     (if gtb (h_quantity h) 0
      then Qmin (Qabs (h_quantity h)) (Qabs (signedQuantity order))
           * (fillPrice order - h_average_price h)
      else Qmin (Qabs (h_quantity h)) (Qabs (signedQuantity order))
           * (h_average_price h - fillPrice order))).
Proof.
  intros Hopp. unfold holdingUpdate.
  rewrite (oppositeSigns_nonzero _ _ Hopp), (sameDirection_false _ _ Hopp).
  reflexivity.
Qed.

(** What [updateHoldingFromOrder] writes: the row of the order's
    instrument is replaced, everything else is untouched. *)
Lemma updateHoldingFromOrder_run (order : Order) (db : Db) :
  exists row,
    updateHoldingFromOrder order db
      = (inr tt, set_holdings (insert (o_instrument order) row) (uuidv4 db).2)
    /\ h_quantity row = (holdingUpdate (holdings db !! o_instrument order) order).1.1
    /\ h_average_price row = (holdingUpdate (holdings db !! o_instrument order) order).1.2
    /\ h_realized_pnl row =
         match holdings db !! o_instrument order with
         | None => (holdingUpdate None order).2
         | Some h => h_realized_pnl h + (holdingUpdate (Some h) order).2
         end.
Proof.
  unfold updateHoldingFromOrder, HoldingRepository.getHolding,
    HoldingRepository.updateHolding, bind, get, put, ret.
  destruct (holdings db !! o_instrument order) as [h|] eqn:L.
  - destruct (holdingUpdate (Some h) order) as [[nq na] rp] eqn:E.
    cbn. rewrite L. eexists. split; [reflexivity|]. cbn. auto.
  - destruct (holdingUpdate None order) as [[nq na] rp] eqn:E.
    cbn. rewrite L. eexists. split; [reflexivity|]. cbn. auto.
Qed.

(** In the opposite-direction branch with a non-zero result, the test
    [Math.abs(newQuantity) === Math.abs(orderQuantity)] holds exactly
    when the existing quantity is minus twice the fill quantity. *)
Lemma abs_new_eq_abs_order (c q : Q) :
  oppositeSigns c q ->
  (Qabs (c + q) == Qabs q <-> c == - (2 # 1) * q).
Proof.
  intros Hopp.
  destruct (Qlt_le_dec (c + q) 0) as [Hn | Hn];
    [rewrite (Qabs_neg (c + q)) by lra | rewrite (Qabs_pos (c + q)) by lra];
    (destruct Hopp as [[Hc Hq] | [Hc Hq]];
     [rewrite (Qabs_neg q) by lra | rewrite (Qabs_pos q) by lra]);
    split; intros H; lra.
Qed.

(** The average price the code stores after an opposite-direction fill. *)
Lemma opposite_fill_average (h : Holding) (order : Order) :
  oppositeSigns (h_quantity h) (signedQuantity order) ->
  (holdingUpdate (Some h) order).1.2
  = if eqb (h_quantity h + signedQuantity order) 0 then 0
    else if eqb (h_quantity h) (- (2 # 1) * signedQuantity order)
         then fillPrice order
         else h_average_price h.
Proof.
  intros Hopp. rewrite (holdingUpdate_opposite _ _ Hopp). cbn [fst snd].
  destruct (eqb (h_quantity h + signedQuantity order) 0); [reflexivity|].
  pose proof (abs_new_eq_abs_order _ _ Hopp) as Habs.
  destruct (eqb (Qabs (h_quantity h + signedQuantity order))
              (Qabs (signedQuantity order))) eqn:E1;
    destruct (eqb (h_quantity h) (- (2 # 1) * signedQuantity order)) eqn:E2;
    try reflexivity; exfalso.
  - apply eqb_eq in E1. apply eqb_neq in E2. apply E2, Habs, E1.
  - apply eqb_neq in E1. apply eqb_eq in E2. apply E1, Habs, E2.
Qed.

(** A fill that fully reverses the holding leaves the stored average
    price as it was. *)
Lemma reversal_keeps_average (h : Holding) (order : Order) :
  oppositeSigns (h_quantity h) (signedQuantity order) ->
  Qabs (h_quantity h) < Qabs (signedQuantity order) ->
  (holdingUpdate (Some h) order).1.2 = h_average_price h.
Proof.
  intros Hopp Hrev. rewrite (opposite_fill_average _ _ Hopp).
  assert (E1 : eqb (h_quantity h + signedQuantity order) 0 = false).
  { apply eqb_neq. intros H.
    destruct Hopp as [[Hc Hq] | [Hc Hq]].
    - rewrite (Qabs_pos (h_quantity h)), (Qabs_neg (signedQuantity order)) in Hrev; lra.
    - rewrite (Qabs_neg (h_quantity h)), (Qabs_pos (signedQuantity order)) in Hrev; lra. }
  assert (E2 : eqb (h_quantity h) (- (2 # 1) * signedQuantity order) = false).
  { apply eqb_neq. intros H.
    destruct Hopp as [[Hc Hq] | [Hc Hq]].
    - rewrite (Qabs_pos (h_quantity h)), (Qabs_neg (signedQuantity order)) in Hrev; lra.
    - rewrite (Qabs_neg (h_quantity h)), (Qabs_pos (signedQuantity order)) in Hrev; lra. }
  rewrite E1, E2. reflexivity.
Qed.

(** C1 (evaluation of the code): with a long of 10 at average 100, a SELL
    of 15 at 120 flips the holding to -5 and keeps the average price 100
    (not the fill price 120), a SELL of 5 at 120 leaves 5 and moves the
    average price to the fill price 120 (not 100), and a SELL of 10
    resets the average price to 0. *)
Theorem C1_average_price_after_opposite_fill :
  let h := long10at100 "NIFTY" 0 0 in
  holdingUpdate (Some h) (sellFilled 1 "NIFTY" 15 120 0%Z 0%Z) = (-5 # 1, 100, 200)
  /\ holdingUpdate (Some h) (sellFilled 1 "NIFTY" 5 120 0%Z 0%Z) = (5 # 1, 120, 100)
  /\ holdingUpdate (Some h) (sellFilled 1 "NIFTY" 10 120 0%Z 0%Z) = (0 # 1, 0, 200).
Proof. repeat split; vm_compute; reflexivity. Qed.

(** C2: a fill whose signed quantity [q] is opposite to the existing
    quantity realizes [min(|existing|,|q|) * (p - avg)] on a long and
    [min(|existing|,|q|) * (avg - p)] on a short, added to the stored
    realized P&L, and leaves quantity [existing + q]; a long of 10 at 100
    reduced by a SELL of 4 at 120 realizes 80 and leaves 6 at 100. *)
Theorem C2_opposite_fill_realized_pnl :
  (forall (db : Db) (order : Order) (h : Holding),
      holdings db !! o_instrument order = Some h ->
      oppositeSigns (h_quantity h) (signedQuantity order) ->
      let q := signedQuantity order in
      let p := fillPrice order in
      let closing_qty := Qmin (Qabs (h_quantity h)) (Qabs q) in
      exists db' h',
        updateHoldingFromOrder order db = (inr tt, db')
        /\ holdings db' !! o_instrument order = Some h'
        /\ h_quantity h' == h_quantity h + q
        /\ h_realized_pnl h' - h_realized_pnl h
             == (if Qlt_le_dec 0 (h_quantity h)
                 then closing_qty * (p - h_average_price h)
                 else closing_qty * (h_average_price h - p)))
  /\ (forall (db : Db) (instrument : string) (unrealized realized : Q)
         (id : nat) (t t' : Date),
      holdings db !! instrument = Some (long10at100 instrument unrealized realized) ->
      exists db' h',
        updateHoldingFromOrder (sellFilled id instrument 4 120 t t') db = (inr tt, db')
        /\ holdings db' !! instrument = Some h'
        /\ h_quantity h' == 6
        /\ h_average_price h' == 100
        /\ h_realized_pnl h' == realized + 80).
Proof.
  split.
  - intros db order h L Hopp q p closing_qty.
    destruct (updateHoldingFromOrder_run order db) as (row & Hrun & Hq & _ & Hr).
    rewrite L in Hq, Hr. rewrite (holdingUpdate_opposite _ _ Hopp) in Hq, Hr.
    cbn in Hq, Hr.
    exists (set_holdings (insert (o_instrument order) row) (uuidv4 db).2), row.
    split; [exact Hrun|]. split; [cbn; apply lookup_insert_eq|].
    split; [rewrite Hq; reflexivity|].
    rewrite Hr. fold q p closing_qty.
    destruct (Qlt_le_dec 0 (h_quantity h)) as [Hs | Hs].
    + assert (E : gtb (h_quantity h) 0 = true) by (apply gtb_gt; exact Hs).
      rewrite E. ring.
    + assert (E : gtb (h_quantity h) 0 = false) by (apply gtb_le; exact Hs).
      rewrite E. ring.
  - intros db instrument unrealized realized id t t' L.
    destruct (updateHoldingFromOrder_run (sellFilled id instrument 4 120 t t') db)
      as (row & Hrun & Hq & Ha & Hr).
    cbn [o_instrument sellFilled] in *. rewrite L in Hq, Ha, Hr.
    exists (set_holdings (insert instrument row) (uuidv4 db).2), row.
    split; [exact Hrun|]. split; [cbn; apply lookup_insert_eq|].
    rewrite Hq, Ha, Hr. vm_compute. repeat split; try reflexivity.
Qed.

Lemma C2_opposite_fill_witness :
  exists db' h',
    updateHoldingFromOrder (sellFilled 1 "NIFTY" 4 120 0%Z 0%Z) ledgerLong10
      = (inr tt, db')
    /\ holdings db' !! "NIFTY" = Some h'
    /\ h_quantity h' == 10 + - 4
    /\ h_realized_pnl h' - 0 == Qmin (Qabs 10) (Qabs (- 4)) * (120 - 100).
Proof.
  apply (proj1 C2_opposite_fill_realized_pnl ledgerLong10
           (sellFilled 1 "NIFTY" 4 120 0%Z 0%Z) (long10at100 "NIFTY" 0 0)).
  - vm_compute. reflexivity.
  - left. split; reflexivity.
Defined.

(** *** Sequences of fills *)

Lemma holdingUpdate_quantity (existing : option Holding) (order : Order) :
  (holdingUpdate existing order).1.1 == holdingQuantity existing + signedQuantity order.
Proof.
  unfold holdingUpdate. destruct existing as [h|]; cbn [holdingQuantity].
  - destruct (eqb (h_quantity h) 0) eqn:E0.
    + apply eqb_eq in E0. cbn. rewrite E0. ring.
    + destruct (gtb (h_quantity h) 0 && gtb (signedQuantity order) 0
                || ltb (h_quantity h) 0 && ltb (signedQuantity order) 0);
        cbn; reflexivity.
  - cbn. ring.
Qed.

Lemma fillOrder_run (db : Db) (id : nat) (o : Order) (fq fp : option Q) :
  orders db !! id = Some o ->
  o_status o = PENDING ->
  let o' := filledRow o fq fp (now db) in
  exists row pos,
    fillOrder id fq fp db
      = (inr o',
         mkDb (<[id := o']> (orders db))
              (<[o_instrument o := row]> (holdings db))
              (<[S (next_id db) := pos]> (positions db))
              (S (S (next_id db))) (now db))
    /\ h_quantity row = (holdingUpdate (holdings db !! o_instrument o) o').1.1.
Proof.
  intros L HP o'.
  unfold fillOrder, OrderRepository.getOrderById, bind, get, ret.
  rewrite L, HP. cbn [OrderStatus_eqb negb].
  unfold OrderRepository.updateOrderStatus, bind, get, put, ret.
  rewrite L. fold (filledRow o fq fp (now db)). fold o'.
  destruct (updateHoldingFromOrder_run o' (set_orders (insert id o') db))
    as (row & Hrun & Hq & _).
  rewrite Hrun.
  unfold createPositionFromOrder, PositionRepository.createPosition,
    uuidv4, bind, get, put, ret.
  cbn. eexists row, _. split; [reflexivity|]. exact Hq.
Qed.

Lemma validateOrderData_ok (r : CreateOrderRequest) (db : Db) :
  validRequest r -> validateOrderData r db = (inr tt, db).
Proof.
  intros (Hq & Hp & Hi). unfold validateOrderData.
  assert (E1 : String.eqb (r_instrument r) "" = false) by (apply String.eqb_neq; exact Hi).
  assert (E2 : leb (r_quantity r) 0 = false).
  { destruct (leb (r_quantity r) 0) eqn:E; [|reflexivity]. apply leb_le in E. lra. }
  assert (E3 : leb (r_price r) 0 = false).
  { destruct (leb (r_price r) 0) eqn:E; [|reflexivity]. apply leb_le in E. lra. }
  rewrite E1, E2, E3. reflexivity.
Qed.

(** An accepted request is filled at once; in the [holdings] table only the
    row of its instrument changes, and its quantity moves by the signed
    quantity of the request. *)
Lemma createOrder_run (r : CreateOrderRequest) (db : Db) :
  validRequest r ->
  exists o db' row,
    createOrder r db = (inr o, db')
    /\ holdings db' = <[r_instrument r := row]> (holdings db)
    /\ h_quantity row
         == holdingQuantity (holdings db !! r_instrument r) + requestQuantity r.
Proof.
  intros Hv. unfold createOrder, bind at 1.
  rewrite (validateOrderData_ok r db Hv).
  unfold OrderRepository.createOrder, uuidv4, bind, get, put, ret.
  cbn [orders holdings positions next_id now o_id].
  set (o := mkOrder (next_id db) (r_instrument r) (r_side r) (r_quantity r)
              (r_price r) PENDING 0 None (default (now db) (r_order_time r)) None).
  set (db1 := set_orders _ _).
  destruct (fillOrder_run db1 (next_id db) o (Some (r_quantity r)) (Some (r_price r)))
    as (row & pos & Hrun & Hq).
  { subst db1. cbn. apply lookup_insert_eq. }
  { reflexivity. }
  cbn [o_id o] in Hrun |- *. rewrite Hrun.
  unfold OrderRepository.getOrderById, bind, get, ret. cbn.
  eexists _, _, row. split; [reflexivity|]. split; [reflexivity|].
  rewrite Hq, holdingUpdate_quantity. cbn.
  apply Qplus_comp; [reflexivity|].
  unfold signedQuantity, requestQuantity, filledRow, or_opt.
  cbn [o_side o_filled_quantity o_quantity]. rewrite or_same.
  destruct (r_side r); cbn; reflexivity.
Qed.

Lemma placeOrders_quantity (reqs : list CreateOrderRequest) (instrument : string) :
  forall db : Db,
    Forall validRequest reqs ->
    exists db',
      placeOrders reqs db = (inr tt, db')
      /\ holdingQuantity (holdings db' !! instrument)
           == holdingQuantity (holdings db !! instrument) + signedSum instrument reqs
      /\ (holdings db' !! instrument = None ->
          holdings db !! instrument = None
          /\ Forall (fun r => r_instrument r <> instrument) reqs).
Proof.
  induction reqs as [|r rest IH]; intros db Hvalid.
  - exists db. cbn. split; [reflexivity|]. split; [ring | auto].
  - inversion Hvalid as [|? ? Hr Hrest]; subst.
    destruct (createOrder_run r db Hr) as (o & db1 & row & Hrun & Hh & Hq).
    destruct (IH db1 Hrest) as (db' & Hrun' & Hq' & Habs).
    exists db'. cbn [placeOrders]. unfold bind at 1. rewrite Hrun.
    split; [exact Hrun'|].
    rewrite Hh in Hq', Habs. cbn [signedSum].
    destruct (String.eqb (r_instrument r) instrument) eqn:E.
    + apply String.eqb_eq in E. subst instrument.
      rewrite lookup_insert_eq in Hq', Habs. cbn [holdingQuantity] in Hq'.
      split.
      * rewrite Hq', Hq. ring.
      * intros Hn. destruct (Habs Hn) as [Hx _]. discriminate Hx.
    + apply String.eqb_neq in E.
      rewrite lookup_insert_ne in Hq', Habs by exact E.
      split.
      * rewrite Hq'. ring.
      * intros Hn. destruct (Habs Hn) as [Hx Hf]. split; [exact Hx|].
        constructor; [exact E | exact Hf].
Qed.

(** C3: starting with no holding on [instrument], after any sequence of
    accepted fills (positive price and quantity) the holding's quantity is
    the signed sum of the quantities filled on that instrument, BUY counted
    positive and SELL negative; the holding is absent only if no fill
    named the instrument. *)
Theorem C3_quantity_is_signed_sum (reqs : list CreateOrderRequest)
    (instrument : string) (db : Db) :
  holdings db !! instrument = None ->
  Forall validRequest reqs ->
  exists db',
    placeOrders reqs db = (inr tt, db')
    /\ match holdings db' !! instrument with
       | Some h => h_quantity h == signedSum instrument reqs
       | None => Forall (fun r => r_instrument r <> instrument) reqs
       end.
Proof.
  intros Hnone Hvalid.
  destruct (placeOrders_quantity reqs instrument db Hvalid) as (db' & Hrun & Hq & Habs).
  exists db'. split; [exact Hrun|].
  rewrite Hnone in Hq. cbn [holdingQuantity] in Hq.
  destruct (holdings db' !! instrument) as [h|] eqn:L.
  - cbn [holdingQuantity] in Hq. rewrite Hq. ring.
  - apply Habs. reflexivity.
Qed.

Lemma C3_quantity_is_signed_sum_witness :
  exists db',
    placeOrders
      [ mkCreateOrderRequest "NIFTY" BUY 10 100 None;
        mkCreateOrderRequest "NIFTY" SELL 15 120 None;
        mkCreateOrderRequest "BANKNIFTY" BUY 7 50 None;
        mkCreateOrderRequest "NIFTY" BUY 2 90 None ]
      (mkDb ∅ ∅ ∅ 0 0%Z) = (inr tt, db')
    /\ match holdings db' !! "NIFTY" with
       | Some h =>
           h_quantity h
           == signedSum "NIFTY"
                [ mkCreateOrderRequest "NIFTY" BUY 10 100 None;
                  mkCreateOrderRequest "NIFTY" SELL 15 120 None;
                  mkCreateOrderRequest "BANKNIFTY" BUY 7 50 None;
                  mkCreateOrderRequest "NIFTY" BUY 2 90 None ]
       | None =>
           Forall (fun r => r_instrument r <> "NIFTY")
             [ mkCreateOrderRequest "NIFTY" BUY 10 100 None;
               mkCreateOrderRequest "NIFTY" SELL 15 120 None;
               mkCreateOrderRequest "BANKNIFTY" BUY 7 50 None;
               mkCreateOrderRequest "NIFTY" BUY 2 90 None ]
       end.
Proof.
  apply C3_quantity_is_signed_sum.
  - reflexivity.
  - repeat constructor; discriminate.
Defined.


(** *** Closing a position *)

(** C9: closing a position that does not exist, or that is already CLOSED,
    throws NotFound and leaves the whole database, hence the stored
    position, as it was. *)
Theorem C9_close_missing_or_closed_fails (db : Db) (positionId : nat) (exitPrice : Q) :
  (positions db !! positionId = None
   \/ exists p, positions db !! positionId = Some p /\ p_status p = CLOSED) ->
  closePosition positionId exitPrice db
    = (inl (NotFoundError "Position not found or already closed"), db).
Proof.
  intros H.
  unfold closePosition, PositionRepository.closePosition,
    PositionRepository.getPositionById, bind, get, ret, throw.
  destruct H as [H | (p & H & Hc)]; rewrite H; [reflexivity|].
  rewrite Hc. reflexivity.
Qed.

Lemma C9_close_missing_or_closed_witness :
  closePosition 3 110
    (mkDb ∅ ∅ {[ 3%nat := mkPosition 3 "NIFTY" BUY 100 (Some 105) 10 CLOSED 50
                           0%Z (Some 1%Z) None ]} 4 2%Z)
  = (inl (NotFoundError "Position not found or already closed"),
     mkDb ∅ ∅ {[ 3%nat := mkPosition 3 "NIFTY" BUY 100 (Some 105) 10 CLOSED 50
                           0%Z (Some 1%Z) None ]} 4 2%Z).
Proof.
  apply C9_close_missing_or_closed_fails.
  right. eexists. split; [vm_compute; reflexivity | reflexivity].
Defined.

Lemma calculatePnl_closingPnl (p : Position) (x : Q) :
  PositionRepository.calculatePnl p x = closingPnl p x.
Proof. unfold PositionRepository.calculatePnl, closingPnl. destruct (p_side p); reflexivity. Qed.

(** C7 (as stated) fails: a position opened by the backtest simulator has
    no holding row, and closing it records its P&L in no holding. *)
Lemma C7_close_without_holding_counterexample :
  ~ closeFoldsIntoHolding afterSimulatedOpen 0 110.
Proof.
  intros H.
  destruct (H (mkPosition 0 "NIFTY" BUY 100 None 10 OPEN 0 0%Z None (Some 7%nat)))
    as (p' & db' & h' & Hrun & _ & Hh & _).
  - vm_compute. reflexivity.
  - reflexivity.
  - vm_compute in Hrun. injection Hrun as <- <-. vm_compute in Hh. discriminate Hh.
Qed.

(** C7 (amended): closing an OPEN position at [x] succeeds, stores it
    CLOSED with pnl [(x - entry) * quantity] for a BUY and
    [(entry - x) * quantity] for a SELL; when the instrument has a holding
    row its realized P&L grows by exactly that pnl (quantity and average
    price untouched), and when it has none the holdings table is left as
    it is. A long of 10 opened at 100 by an order and closed at 110
    realizes 100. *)
Theorem C7_close_realizes_pnl :
  (forall (db : Db) (id : nat) (x : Q) (p : Position),
      positions db !! id = Some p ->
      p_status p = OPEN ->
      exists p' db',
        closePosition id x db = (inr p', db')
        /\ positions db' !! id = Some p'
        /\ p_status p' = CLOSED
        /\ p_pnl p' = closingPnl p x
        /\ match holdings db !! p_instrument p with
           | Some h =>
               exists h',
                 holdings db' !! p_instrument p = Some h'
                 /\ h_realized_pnl h' = h_realized_pnl h + closingPnl p x
                 /\ h_quantity h' = h_quantity h
                 /\ h_average_price h' = h_average_price h
           | None => holdings db' = holdings db
           end)
  /\ (exists o db1 p' db2 h1 h2,
        createOrder (mkCreateOrderRequest "NIFTY" BUY 10 100 None) emptyDb
          = (inr o, db1)
        /\ closePosition 2 110 db1 = (inr p', db2)
        /\ p_pnl p' == 100
        /\ holdings db1 !! "NIFTY" = Some h1
        /\ holdings db2 !! "NIFTY" = Some h2
        /\ h_realized_pnl h2 == h_realized_pnl h1 + 100).
Proof.
  split.
  - intros db id x p L Ho.
    unfold closePosition, PositionRepository.closePosition,
      PositionRepository.getPositionById, bind, get, put, ret, throw.
    rewrite L, Ho. cbn [PositionStatus_eqb]. rewrite L.
    unfold updateHoldingFromPositionClosure, HoldingRepository.getHolding,
      HoldingRepository.updateHolding, uuidv4, bind, get, put, ret.
    unfold set_positions.
    cbn [orders holdings positions next_id now p_instrument p_pnl].
    rewrite calculatePnl_closingPnl.
    destruct (holdings db !! p_instrument p) as [h|] eqn:Lh.
    + unfold set_holdings, set_positions.
      cbn [orders holdings positions next_id now].
      rewrite Lh. eexists _, _. split; [reflexivity|].
      cbn [positions holdings]. split; [apply lookup_insert_eq|].
      split; [reflexivity|]. split; [reflexivity|].
      eexists. split; [apply lookup_insert_eq|]. cbn. auto.
    + eexists _, _. split; [reflexivity|].
      cbn [positions holdings]. split; [apply lookup_insert_eq|].
      split; [reflexivity|]. split; reflexivity.
  - do 6 eexists.
    split; [vm_compute; reflexivity|].
    split; [vm_compute; reflexivity|].
    split; [vm_compute; reflexivity|].
    split; [vm_compute; reflexivity|].
    split; [vm_compute; reflexivity|].
    vm_compute. reflexivity.
Qed.

Lemma C7_close_realizes_pnl_witness :
  exists p' db',
    closePosition 1 110 ledgerLong10Open = (inr p', db')
    /\ positions db' !! 1%nat = Some p'
    /\ p_status p' = CLOSED
    /\ p_pnl p' = (110 - 100) * 10
    /\ exists h',
         holdings db' !! "NIFTY" = Some h'
         /\ h_realized_pnl h' = 0 + (110 - 100) * 10
         /\ h_quantity h' = 10
         /\ h_average_price h' = 100.
Proof.
  apply (proj1 C7_close_realizes_pnl ledgerLong10Open 1%nat 110
           (mkPosition 1 "NIFTY" BUY 100 None 10 OPEN 0 0%Z None None)).
  - vm_compute. reflexivity.
  - reflexivity.
Defined.

(** *** Filling an order *)





End LedgerFacts.

(** ** The open-interest classifier *)

Module ClassifierFacts.
Import JS JSFacts HistoricalDataService Classifier.

(** Dividing by a positive number and scaling by 100 keeps the sign. *)
Lemma percent_pos (x c : Q) : 0 < c -> (0 < x / c * 100 <-> 0 < x).
Proof.
  intros Hc. assert (Hi : 0 < / c) by (apply Qinv_lt_0_compat; exact Hc).
  unfold Qdiv. split; intros H.
  - destruct (Qlt_le_dec 0 x) as [Hx|Hx]; [exact Hx|]. exfalso.
    assert (x * / c <= 0) by nra. lra.
  - assert (0 < x * / c) by (apply Qmult_lt_0_compat; assumption). lra.
Qed.

Lemma percent_zero (x c : Q) : x == 0 -> x / c * 100 == 0.
Proof. intros H. rewrite H. unfold Qdiv. ring. Qed.

(** The code decides UP/DOWN on the sign of the change, the specification
    on the sign of the percentage: over a positive base they agree. *)
Lemma direction_spec (change base threshold : Q) :
  0 < base -> 0 < threshold ->
  direction (change / base * 100) threshold change
    = specDirection (change / base * 100) threshold.
Proof.
  intros Hb Ht. unfold direction, specDirection.
  destruct (Qlt_le_dec (Qabs (change / base * 100)) threshold) as [Hf|Hf].
  - assert (E : ltb (Qabs (change / base * 100)) threshold = true)
      by (apply ltb_lt; exact Hf).
    rewrite E. reflexivity.
  - assert (E : ltb (Qabs (change / base * 100)) threshold = false)
      by (apply ltb_ge; exact Hf).
    rewrite E.
    destruct (Qlt_le_dec 0 (change / base * 100)) as [Hp|Hp].
    + assert (E' : gtb change 0 = true)
        by (apply gtb_gt; apply (percent_pos change base Hb); exact Hp).
      rewrite E'. reflexivity.
    + assert (E' : gtb change 0 = false).
      { apply gtb_le. destruct (Qlt_le_dec 0 change) as [Hx|Hx]; [|exact Hx].
        apply (percent_pos change base Hb) in Hx. lra. }
      rewrite E'. reflexivity.
Qed.

Lemma direction_zero (threshold change : Q) :
  0 < threshold -> direction 0 threshold change = specDirection 0 threshold.
Proof.
  intros Ht. unfold direction, specDirection.
  assert (E : ltb (Qabs 0) threshold = true) by (apply ltb_lt; exact Ht).
  rewrite E. destruct (Qlt_le_dec (Qabs 0) threshold) as [H|H]; [reflexivity|].
  exfalso. change (Qabs 0) with 0 in H. lra.
Qed.

Lemma interpretation_table (previous current : Candle) :
  interpretation (calculateOIInterpretation previous current)
  = specInterpretation
      (priceDirection (calculateOIInterpretation previous current))
      (oiDirection (calculateOIInterpretation previous current)).
Proof.
  unfold calculateOIInterpretation.
  destruct (direction (priceChangePercent previous current) _ _),
           (direction (oiChangePercent previous current) _ _);
    reflexivity.
Qed.

(** The percentages the code computes are the specified ones. *)
Lemma priceChangePercent_spec (previous current : Candle) :
  priceChangePercent previous current = specPriceChangePct previous current.
Proof. reflexivity. Qed.

Lemma oiChangePercent_spec (previous current : Candle) :
  oiChangePercent previous current = specOiChangePct previous current.
Proof.
  unfold oiChangePercent, specOiChangePct.
  destruct (Qlt_le_dec 0 (c_open_interest previous)) as [H|H].
  - assert (E : gtb (c_open_interest previous) 0 = true) by (apply gtb_gt; exact H).
    rewrite E. reflexivity.
  - assert (E : gtb (c_open_interest previous) 0 = false) by (apply gtb_le; exact H).
    rewrite E. reflexivity.
Qed.

(** C6: over a previous bar with positive close, with the percentage moves
    [(current.close - previous.close) / previous.close * 100] and
    [(current.oi - previous.oi) / previous.oi * 100] (0 when the previous
    open interest is not positive), the computed price and OI directions
    are the specified ones (FLAT under 0.1 % resp. 1 % in absolute value,
    else by sign), the interpretation is the 2x2 table of the two
    directions with INCONCLUSIVE everywhere else, and a price move under
    0.1 % in absolute value is INCONCLUSIVE whatever the open interest
    does. *)
Theorem C6_classification_table (previous current : Candle) :
  0 < c_close_price previous ->
  let a := calculateOIInterpretation previous current in
  let price_change_pct :=
    (c_close_price current - c_close_price previous) / c_close_price previous * 100 in
  let oi_change_pct := specOiChangePct previous current in
  let price := specDirection price_change_pct (1 # 10) in
  let oi := specDirection oi_change_pct 1 in
  priceDirection a = price
  /\ oiDirection a = oi
  /\ interpretation a = specInterpretation price oi
  /\ (price = UP -> oi = UP -> interpretation a = LONG_BUILDUP)
  /\ (price = DOWN -> oi = UP -> interpretation a = SHORT_BUILDUP)
  /\ (price = DOWN -> oi = DOWN -> interpretation a = LONG_UNWINDING)
  /\ (price = UP -> oi = DOWN -> interpretation a = SHORT_COVERING)
  /\ (price = FLAT \/ oi = FLAT -> interpretation a = INCONCLUSIVE)
  /\ (Qabs price_change_pct < 1 # 10 -> interpretation a = INCONCLUSIVE).
Proof.
  intros Hc a price_change_pct oi_change_pct price oi.
  assert (Hp : priceDirection a = price).
  { subst a price price_change_pct. unfold calculateOIInterpretation.
    destruct (if Direction_eqb _ _ && _ then _ else _) as [i c]. cbn [priceDirection].
    unfold priceChangePercent, PRICE_THRESHOLD.
    apply direction_spec; [exact Hc | reflexivity]. }
  assert (Ho : oiDirection a = oi).
  { subst a oi oi_change_pct. rewrite <- oiChangePercent_spec.
    unfold calculateOIInterpretation.
    destruct (if Direction_eqb _ _ && _ then _ else _) as [i c]. cbn [oiDirection].
    unfold oiChangePercent, OI_THRESHOLD.
    destruct (gtb (c_open_interest previous) 0) eqn:E.
    - apply gtb_gt in E. apply direction_spec; [exact E | reflexivity].
    - apply direction_zero. reflexivity. }
  assert (Hi : interpretation a = specInterpretation price oi).
  { rewrite <- Hp, <- Ho. apply interpretation_table. }
  split; [exact Hp|]. split; [exact Ho|]. split; [exact Hi|].
  rewrite Hi.
  repeat split.
  - intros -> ->. reflexivity.
  - intros -> ->. reflexivity.
  - intros -> ->. reflexivity.
  - intros -> ->. reflexivity.
  - intros [-> | ->]; [reflexivity | destruct price; reflexivity].
  - intros Hflat. subst price. unfold specDirection.
    destruct (Qlt_le_dec _ (1 # 10)) as [H|H]; [reflexivity | lra].
Qed.

Lemma C6_classification_table_witness :
  (let a := calculateOIInterpretation (candleAt 100 1000) (candleAt (1012 # 10) 1050) in
   priceDirection a = UP /\ oiDirection a = UP /\ interpretation a = LONG_BUILDUP)
  /\ (let a := calculateOIInterpretation (candleAt 10000 1000) (candleAt 10005 1100) in
      priceDirection a = FLAT /\ oiDirection a = UP /\ interpretation a = INCONCLUSIVE).
Proof.
  split.
  - destruct (C6_classification_table (candleAt 100 1000) (candleAt (1012 # 10) 1050))
      as (Hp & Ho & Hi & Hlb & _).
    + reflexivity.
    + split; [exact Hp|]. split; [exact Ho|]. apply Hlb; reflexivity.
  - destruct (C6_classification_table (candleAt 10000 1000) (candleAt 10005 1100))
      as (Hp & Ho & _ & _ & _ & _ & _ & _ & Hflat).
    + reflexivity.
    + split; [exact Hp|]. split; [exact Ho|]. apply Hflat. reflexivity.
Defined.

(** The worked example of the specification: +1.2 % on price, +5 % on open
    interest is a long build-up with high confidence. *)
Example long_buildup_example :
  let a := calculateOIInterpretation (candleAt 100 1000) (candleAt (1012 # 10) 1050) in
  interpretation a = LONG_BUILDUP /\ confidence a = HIGH.
Proof. vm_compute. split; reflexivity. Qed.

End ClassifierFacts.

(** ** Performance metrics *)

Module MetricsFacts.
Import JS JSFacts StrategyService Backtest.

Lemma Qmax_if (a b : Q) : Qmax a b = if gtb b a then b else a.
Proof.
  unfold Qmax, GenericMinMax.gmax, gtb, ltb, Qle_bool, Qcompare.
  destruct (Z.compare_spec (Qnum a * QDen b) (Qnum b * QDen a)) as [H|H|H].
  - rewrite H, Z.leb_refl. reflexivity.
  - assert (E : (Qnum b * QDen a <=? Qnum a * QDen b)%Z = false)
      by (apply Z.leb_gt; exact H).
    rewrite E. reflexivity.
  - assert (E : (Qnum b * QDen a <=? Qnum a * QDen b)%Z = true)
      by (apply Z.leb_le; lia).
    rewrite E. reflexivity.
Qed.

Lemma cumulative_app_le (pnls : list Q) (x : Q) (k : nat) :
  (k <= length pnls)%nat -> cumulative (pnls ++ [x]) k = cumulative pnls k.
Proof. intros H. unfold cumulative. rewrite take_app_le by exact H. reflexivity. Qed.

Lemma cumulative_all (pnls : list Q) :
  cumulative pnls (length pnls) = fold_left Qplus pnls 0.
Proof. unfold cumulative. rewrite firstn_all. reflexivity. Qed.

Lemma cumulative_snoc (pnls : list Q) (x : Q) :
  cumulative (pnls ++ [x]) (S (length pnls)) = cumulative pnls (length pnls) + x.
Proof.
  rewrite cumulative_all. unfold cumulative.
  rewrite take_ge by (rewrite length_app; cbn; lia).
  rewrite fold_left_app. reflexivity.
Qed.

Lemma map_seq_app_le {A} (f g : nat -> A) (n : nat) :
  (forall k, (1 <= k <= n)%nat -> f k = g k) ->
  map f (seq 1 n) = map g (seq 1 n).
Proof.
  intros H. apply map_ext_in. intros k Hk. apply in_seq in Hk. apply H. lia.
Qed.

Lemma peakAt_app_le (pnls : list Q) (x : Q) (k : nat) :
  (k <= length pnls)%nat -> peakAt (pnls ++ [x]) k = peakAt pnls k.
Proof.
  intros H. unfold peakAt. f_equal. apply map_seq_app_le.
  intros j Hj. apply cumulative_app_le. lia.
Qed.

Lemma peakAt_S (pnls : list Q) (k : nat) :
  peakAt pnls (S k) = Qmax (peakAt pnls k) (cumulative pnls (S k)).
Proof.
  unfold peakAt. rewrite seq_S, map_app, fold_left_app. reflexivity.
Qed.

Lemma drawdownAt_app_le (d : Q -> Q) (pnls : list Q) (x : Q) (k : nat) :
  (k <= length pnls)%nat -> drawdownAt d (pnls ++ [x]) k = drawdownAt d pnls k.
Proof.
  intros H. unfold drawdownAt.
  rewrite peakAt_app_le, cumulative_app_le by exact H. reflexivity.
Qed.

Lemma walkMaxDrawdown_snoc (d : Q -> Q) (pnls : list Q) (x : Q) :
  walkMaxDrawdown d (pnls ++ [x])
  = Qmax (walkMaxDrawdown d pnls) (drawdownAt d (pnls ++ [x]) (S (length pnls))).
Proof.
  unfold walkMaxDrawdown. rewrite length_app. cbn [length].
  replace (length pnls + 1)%nat with (S (length pnls)) by lia.
  rewrite seq_S, map_app, fold_left_app. cbn [map fold_left].
  f_equal. f_equal. apply map_seq_app_le. intros k Hk.
  apply drawdownAt_app_le. lia.
Qed.

(** The loop invariant of the drawdown walk: after the whole list the
    state is (maximum drawdown so far, running peak, cumulative P&L). *)
Lemma drawdown_loop (ps : list Position) :
  fold_left drawdownStep ps (0, 0, 0)
  = (walkMaxDrawdown guardDivisor (map p_pnl ps),
     peakAt (map p_pnl ps) (length ps),
     cumulative (map p_pnl ps) (length ps)).
Proof.
  induction ps as [|p ps IH] using rev_ind; [reflexivity|].
  rewrite fold_left_app, IH. cbn [fold_left]. unfold drawdownStep.
  rewrite map_app, length_app. cbn [map length].
  replace (length ps + 1)%nat with (S (length ps)) by lia.
  rewrite walkMaxDrawdown_snoc, length_map.
  rewrite <- Qmax_if.
  assert (Hc : cumulative (map p_pnl ps ++ [p_pnl p]) (S (length ps))
               = cumulative (map p_pnl ps) (length ps) + p_pnl p).
  { rewrite <- (length_map p_pnl ps) at 1 2. apply cumulative_snoc. }
  assert (Hk : peakAt (map p_pnl ps ++ [p_pnl p]) (S (length ps))
               = Qmax (peakAt (map p_pnl ps) (length ps))
                   (cumulative (map p_pnl ps) (length ps) + p_pnl p)).
  { rewrite peakAt_S, Hc, peakAt_app_le by (rewrite length_map; lia). reflexivity. }
  unfold drawdownAt. rewrite Hk, Hc. reflexivity.
Qed.

Lemma maxDrawdown_metrics (sqrt : Q -> Q) (positions : list Position) (candles : list Candle) :
  maxDrawdown (calculatePerformanceMetrics sqrt positions candles)
  = walkMaxDrawdown guardDivisor (closedPnls positions).
Proof.
  unfold calculatePerformanceMetrics, calculateMaxDrawdown, closedPnls.
  cbn [maxDrawdown]. rewrite drawdown_loop. reflexivity.
Qed.

Lemma fold_left_Qmax_compat (l1 l2 : list Q) :
  Forall2 Qeq l1 l2 ->
  forall a b, a == b -> fold_left Qmax l1 a == fold_left Qmax l2 b.
Proof.
  induction 1 as [|x y l1 l2 Hxy _ IH]; intros a b Hab; cbn; [exact Hab|].
  apply IH. rewrite Hab, Hxy. reflexivity.
Qed.

Lemma divisors_agree (peak : Q) :
  peak == 0 \/ 1 <= peak -> guardDivisor peak == specDivisor peak.
Proof.
  unfold guardDivisor, specDivisor. intros [H | H].
  - rewrite (or_zero peak 1 H). symmetry. apply Q.max_r. lra.
  - rewrite or_nonzero by lra. symmetry. apply Q.max_l. exact H.
Qed.

(** C5 (as stated) fails: with cumulative P&L 1/2 then 1/4 the peak is 1/2
    and the code divides by it, reporting 1/2 where [max(peak,1)] gives 1/4. *)
Lemma C5_fractional_peak_counterexample :
  ~ calculateMaxDrawdown [closedWith 0 (1 # 2); closedWith 1 (- 1 # 4)]
    == specMaxDrawdown [1 # 2; - 1 # 4].
Proof. vm_compute. discriminate. Qed.

(** C5 (amended): the reported max_drawdown is the maximum over the
    chronological walk of [(peak - running) / (peak || 1)], the divisor
    being the peak itself whenever it is non-zero and 1 when it is zero;
    it equals the walk with divisor [max(peak, 1)] when no running peak
    lies strictly between 0 and 1. *)
Theorem C5_max_drawdown_walk (sqrt : Q -> Q) (positions : list Position)
    (candles : list Candle) :
  let pnls := closedPnls positions in
  maxDrawdown (calculatePerformanceMetrics sqrt positions candles)
    = walkMaxDrawdown guardDivisor pnls
  /\ (Forall (fun k => peakAt pnls k == 0 \/ 1 <= peakAt pnls k)
             (seq 1 (length pnls)) ->
      maxDrawdown (calculatePerformanceMetrics sqrt positions candles)
        == specMaxDrawdown pnls).
Proof.
  intros pnls. split; [apply maxDrawdown_metrics|].
  intros Hpeaks. rewrite maxDrawdown_metrics. fold pnls.
  unfold specMaxDrawdown, walkMaxDrawdown.
  apply fold_left_Qmax_compat; [|reflexivity].
  induction Hpeaks as [|k ks Hk _ IH]; cbn [map]; constructor; [|exact IH].
  unfold drawdownAt. rewrite (divisors_agree _ Hk). reflexivity.
Qed.

Lemma C5_max_drawdown_walk_witness :
  let positions := [closedWith 0 200; closedWith 1 (- 50); closedWith 2 100] in
  let pnls := closedPnls positions in
  maxDrawdown (calculatePerformanceMetrics sqrt6 positions [])
    = walkMaxDrawdown guardDivisor pnls
  /\ maxDrawdown (calculatePerformanceMetrics sqrt6 positions [])
       == specMaxDrawdown pnls.
Proof.
  destruct (C5_max_drawdown_walk sqrt6
              [closedWith 0 200; closedWith 1 (- 50); closedWith 2 100] [])
    as [Hwalk Hspec].
  split; [exact Hwalk|]. apply Hspec.
  repeat (constructor; [right; vm_compute; discriminate|]). constructor.
Defined.

(** *** Ranges of the ratio metrics *)







End MetricsFacts.

(** ** The crossover simulation *)

Module SimulationFacts.
Import JS JSFacts StrategyService Backtest.

Lemma filter_open_closed (cs : list Position) :
  Forall (fun p => p_status p = CLOSED) cs ->
  filter (fun p => isOpen p = true) cs = [].
Proof.
  induction 1 as [|p cs Hp _ IH]; [reflexivity|].
  rewrite filter_cons_False; [exact IH|].
  unfold isOpen. rewrite Hp. discriminate.
Qed.

Lemma runInvariant_atMostOneOpen candles shortPeriod longPeriod i ps db :
  runInvariant candles shortPeriod longPeriod i ps db -> atMostOneOpen ps.
Proof.
  intros (cs & Hcs & [-> | (p & -> & _)]); unfold atMostOneOpen.
  - rewrite (filter_open_closed cs Hcs). cbn. lia.
  - rewrite filter_app, (filter_open_closed cs Hcs). cbn [app].
    pose proof (length_filter (fun p => isOpen p = true) [p]) as H. cbn in H. exact H.
Qed.

Lemma last_lookup_snoc {A} (l : list A) (x : A) :
  (l ++ [x]) !! (length (l ++ [x]) - 1)%nat = Some x.
Proof.
  rewrite length_app. cbn [length].
  replace (length l + 1 - 1)%nat with (length l) by lia.
  apply list_lookup_middle. reflexivity.
Qed.

Lemma last_insert_snoc {A} (l : list A) (x y : A) :
  <[(length (l ++ [x]) - 1)%nat := y]> (l ++ [x]) = l ++ [y].
Proof.
  rewrite length_app. cbn [length].
  replace (length l + 1 - 1)%nat with (length l + 0)%nat by lia.
  rewrite insert_app_r. reflexivity.
Qed.

(** The row written by [closePosition] for an OPEN row. *)
Lemma closePosition_open (db : Db) (id : nat) (p : Position) (x : Q) (t : Date) :
  positions db !! id = Some p ->
  p_status p = OPEN ->
  exists p',
    PositionRepository.closePosition id x (Some t) db
      = (inr (Some p'), set_positions (insert id p') db)
    /\ p_status p' = CLOSED.
Proof.
  intros Hrow Hopen.
  unfold PositionRepository.closePosition, PositionRepository.getPositionById,
    bind, get, put, ret.
  rewrite Hrow, Hopen. cbn [PositionStatus_eqb]. rewrite Hrow.
  eexists. split; reflexivity.
Qed.

(** One iteration keeps the invariant, provided the two averages differ at
    the index visited. *)
Lemma simulateStep_invariant (strategy : Strategy) (candles : list Candle)
    (shortPeriod longPeriod i : nat) (ps : list Position) (db : Db) (c : Candle) :
  candles !! i = Some c ->
  ~ calculateSMA candles i shortPeriod == calculateSMA candles i longPeriod ->
  runInvariant candles shortPeriod longPeriod (i - 1) ps db ->
  exists ps' db',
    simulateStep strategy candles shortPeriod longPeriod i ps db = (inr ps', db')
    /\ runInvariant candles shortPeriod longPeriod i ps' db'.
Proof.
  intros Hc Hne (cs & Hcs & Hst).
  unfold simulateStep. rewrite Hc. cbv zeta.
  set (S := calculateSMA candles i shortPeriod) in *.
  set (L := calculateSMA candles i longPeriod) in *.
  set (S' := calculateSMA candles (i - 1) shortPeriod) in *.
  set (L' := calculateSMA candles (i - 1) longPeriod) in *.
  destruct Hst as [-> | (p & -> & Hopen & Hrow & Hprev)].
  - (* every position is closed *)
    destruct (leb S' L' && gtb S L) eqn:Egold.
    + apply andb_true_iff in Egold as [_ Hgt]. apply gtb_gt in Hgt.
      assert (Elt : ltb S L = false) by (apply ltb_ge; lra).
      unfold bind, PositionRepository.createPosition, uuidv4, get, put, ret.
      cbn [orders holdings positions next_id now set_positions].
      rewrite Elt, andb_false_r. cbn [andb].
      eexists _, _. split; [reflexivity|].
      exists cs. split; [exact Hcs|]. right. eexists. split; [reflexivity|].
      cbn [p_status p_id positions]. split; [reflexivity|].
      split; [apply lookup_insert_eq | exact Hgt].
    + unfold bind at 1. unfold ret at 1.
      assert (Hflat : runInvariant candles shortPeriod longPeriod i cs db)
        by (exists cs; split; [exact Hcs | left; reflexivity]).
      destruct (geb S' L' && ltb S L && (0 <? length cs)%nat);
        [|eexists _, _; split; [reflexivity | exact Hflat]].
      destruct (cs !! (length cs - 1)%nat) as [lastPosition|] eqn:Elast;
        [|eexists _, _; split; [reflexivity | exact Hflat]].
      assert (Hclosed : p_status lastPosition = CLOSED).
      { rewrite Forall_forall in Hcs. apply Hcs.
        eapply list_elem_of_lookup_2. exact Elast. }
      rewrite Hclosed. cbn [PositionStatus_eqb].
      eexists _, _; split; [reflexivity | exact Hflat].
  - (* the last position is open, the short average was above the long one *)
    assert (Eprev : leb S' L' = false).
    { destruct (leb S' L') eqn:E; [|reflexivity]. apply leb_le in E. lra. }
    assert (Egeb : geb S' L' = true) by (apply geb_ge; lra).
    rewrite Eprev. cbn [andb]. unfold bind at 1. unfold ret at 1.
    rewrite Egeb. cbn [andb].
    destruct (ltb S L) eqn:Elt; cbn [andb].
    + assert (Elen : (0 <? length (cs ++ [p]))%nat = true).
      { apply Nat.ltb_lt. rewrite length_app. cbn. lia. }
      rewrite Elen, last_lookup_snoc, Hopen. cbn [PositionStatus_eqb].
      destruct (closePosition_open db (p_id p) p (c_close_price c)
                  (c_epoch_time c * 1000)%Z Hrow Hopen) as (p' & Hrun & Hclosed).
      unfold bind. rewrite Hrun. unfold ret. rewrite last_insert_snoc.
      eexists _, _. split; [reflexivity|].
      eexists. split; [|left; reflexivity].
      apply Forall_app. split; [exact Hcs|]. constructor; [exact Hclosed | constructor].
    + apply ltb_ge in Elt.
      eexists _, _. split; [reflexivity|].
      exists cs. split; [exact Hcs|]. right. exists p.
      split; [reflexivity|]. split; [exact Hopen|]. split; [exact Hrow|].
      destruct (Qlt_le_dec L S) as [H|H]; [exact H|].
      exfalso. apply Hne. lra.
Qed.

(** While the last position is OPEN the golden-cross test of the next
    index is false. *)
Lemma no_golden_cross_while_open (candles : list Candle)
    (shortPeriod longPeriod i : nat) (cs : list Position) (p : Position) (db : Db) :
  runInvariant candles shortPeriod longPeriod (i - 1) (cs ++ [p]) db ->
  p_status p = OPEN ->
  leb (calculateSMA candles (i - 1) shortPeriod)
      (calculateSMA candles (i - 1) longPeriod)
  && gtb (calculateSMA candles i shortPeriod) (calculateSMA candles i longPeriod)
  = false.
Proof.
  intros (cs' & Hcs' & Hst) Hopen.
  destruct Hst as [Heq | (p' & Heq & _ & _ & Hprev)].
  - exfalso. subst cs'. rewrite Forall_app in Hcs'. destruct Hcs' as [_ Hp].
    inversion Hp as [|? ? Hc _]; subst. congruence.
  - apply andb_false_iff. left.
    destruct (leb _ _) eqn:E; [|reflexivity]. apply leb_le in E. lra.
Qed.

(** The loop over consecutive indices keeps the invariant and never throws. *)
Lemma forEach_invariant (strategy : Strategy) (candles : list Candle)
    (shortPeriod longPeriod : nat) (len : nat) :
  forall (start : nat) (ps : list Position) (db : Db),
    (forall i, (start <= i < start + len)%nat ->
       (i < length candles)%nat
       /\ ~ calculateSMA candles i shortPeriod == calculateSMA candles i longPeriod) ->
    runInvariant candles shortPeriod longPeriod (start - 1) ps db ->
    exists ps' db',
      forEach (seq start len)
        (simulateStep strategy candles shortPeriod longPeriod) ps db
        = (inr ps', db')
      /\ runInvariant candles shortPeriod longPeriod (start + len - 1) ps' db'.
Proof.
  induction len as [|len IH]; intros start ps db Hidx Hinv.
  - exists ps, db. split; [reflexivity|].
    rewrite Nat.add_0_r. exact Hinv.
  - cbn [seq forEach].
    destruct (Hidx start) as [Hlt Hne]; [lia|].
    destruct (lookup_lt_is_Some_2 candles start Hlt) as [c Hc].
    destruct (simulateStep_invariant strategy candles shortPeriod longPeriod
                start ps db c Hc Hne Hinv) as (ps1 & db1 & Hrun1 & Hinv1).
    destruct (IH (S start) ps1 db1) as (ps2 & db2 & Hrun2 & Hinv2).
    + intros i Hi. apply Hidx. lia.
    + replace (S start - 1)%nat with start by lia. exact Hinv1.
    + exists ps2, db2. unfold bind. rewrite Hrun1. split; [exact Hrun2|].
      replace (start + S len - 1)%nat with (S start + len - 1)%nat by lia.
      exact Hinv2.
Qed.

Lemma period_or_pos (p : option nat) (d : nat) : (0 < d)%nat -> (0 < period_or p d)%nat.
Proof. intros Hd. destruct p as [[|n]|]; cbn; lia. Qed.

(** The whole run is its last prefix. *)
Lemma simulateStrategy_prefix (strategy : Strategy) (candles : list Candle) :
  sp_type (s_parameters strategy) = "sma_crossover" ->
  simulateStrategy strategy candles
  = simulatePrefix strategy candles (length candles).
Proof.
  intros Ht. unfold simulateStrategy, simulatePrefix. rewrite Ht. cbn [String.eqb].
  rewrite take_ge; [reflexivity|].
  unfold loopIndices. rewrite length_seq. lia.
Qed.

(** C4 (as stated) fails: with periods 1 and 2 and closes 10, 10, 11, 11, 12
    the averages cross up at index 2, tie at index 3 and cross up again at
    index 4; the second golden cross opens a second position while the
    first is still OPEN. *)
Lemma C4_two_open_positions_counterexample :
  ~ singlePositionAtEveryStep (crossover 1 2) (bars [10; 10; 11; 11; 12]) emptyDb.
Proof.
  intros H. pose proof (H 3%nat) as H3. vm_compute in H3.
  specialize (H3 _ _ eq_refl). vm_compute in H3. lia.
Qed.

(** C4 (amended): when the short and long averages are never exactly
    equal at an index the loop visits, every prefix of the run completes
    and leaves at most one recorded position OPEN (a golden cross cannot
    then occur while a position is open). The loop itself has no guard on
    opening. *)
Theorem C4_single_open_position_without_ties (strategy : Strategy)
    (candles : list Candle) (db : Db) (k : nat) :
  noTies strategy candles ->
  exists ps db',
    simulatePrefix strategy candles k db = (inr ps, db')
    /\ atMostOneOpen ps.
Proof.
  intros Hnt. unfold simulatePrefix, loopIndices. rewrite take_seq.
  set (shortPeriod := period_or (short_period (s_parameters strategy)) 10).
  set (longPeriod := period_or (long_period (s_parameters strategy)) 20).
  destruct (forEach_invariant strategy candles shortPeriod longPeriod
              (Nat.min k (length candles - longPeriod)) longPeriod [] db)
    as (ps & db' & Hrun & Hinv).
  - intros i Hi. split; [lia|]. apply Hnt. fold longPeriod. lia.
  - exists []. split; [constructor | left; reflexivity].
  - exists ps, db'. split; [exact Hrun|].
    eapply runInvariant_atMostOneOpen. exact Hinv.
Qed.

Lemma C4_single_open_position_witness :
  exists ps db',
    simulatePrefix (crossover 1 2) (bars [10; 10; 11; 9; 12]) 3 emptyDb = (inr ps, db')
    /\ atMostOneOpen ps.
Proof.
  apply C4_single_open_position_without_ties.
  intros i Hi. cbn in Hi.
  assert (Hcases : i = 2%nat \/ i = 3%nat \/ i = 4%nat) by lia.
  destruct Hcases as [-> | [-> | ->]]; vm_compute; discriminate.
Defined.

End SimulationFacts.

(** ** Orders: validation, filling once, cancelling *)

Module OrderFacts.
Import JS JSFacts PaperTradingService Ledger LedgerMore LedgerFacts.

(** X1: a request with a non-positive quantity, a non-positive price or an
    empty instrument is refused with a ValidationError before anything is
    written. *)
Theorem createOrder_rejects_invalid (r : CreateOrderRequest) (db : Db) :
  r_instrument r = "" \/ r_quantity r <= 0 \/ r_price r <= 0 ->
  exists msg, createOrder r db = (inl (ValidationError msg), db).
Proof.
  intros H. unfold createOrder, validateOrderData, bind, throw.
  destruct (String.eqb (r_instrument r) "") eqn:Ei; [eexists; reflexivity|].
  destruct (leb (r_quantity r) 0) eqn:Eq; [eexists; reflexivity|].
  destruct (leb (r_price r) 0) eqn:Ep; [eexists; reflexivity|].
  exfalso. destruct H as [H | [H | H]].
  - apply String.eqb_neq in Ei. contradiction.
  - apply leb_le in H. congruence.
  - apply leb_le in H. congruence.
Qed.

Lemma createOrder_rejects_invalid_witness :
  exists msg,
    createOrder (mkCreateOrderRequest "NIFTY" BUY 0 100 None) ledgerLong10
    = (inl (ValidationError msg), ledgerLong10).
Proof.
  apply createOrder_rejects_invalid. right. left. cbn. discriminate.
Defined.

Lemma or_or_opt (a : option Q) (d : Q) : JS.or (or_opt a d) d = or_opt a d.
Proof.
  destruct a as [v|]; cbn [or_opt]; [|apply or_same].
  destruct (truthy v) eqn:E.
  - assert (Hx : JS.or v d = v) by (unfold JS.or; rewrite E; reflexivity).
    rewrite Hx. exact Hx.
  - assert (Hx : JS.or v d = d) by (unfold JS.or; rewrite E; reflexivity).
    rewrite Hx. apply or_same.
Qed.

(** The whole effect of filling a PENDING order. *)
Lemma fillOrder_effect (db : Db) (id : nat) (o : Order) (fq fp : option Q) :
  orders db !! id = Some o ->
  o_status o = PENDING ->
  let o' := filledRow o fq fp (now db) in
  exists row,
    fillOrder id fq fp db
      = (inr o',
         mkDb (<[id := o']> (orders db))
              (<[o_instrument o := row]> (holdings db))
              (<[S (next_id db) :=
                   mkPosition (S (next_id db)) (o_instrument o) (o_side o)
                     (or_opt fp (o_price o)) None (or_opt fq (o_quantity o))
                     OPEN 0 (now db) None None]> (positions db))
              (S (S (next_id db))) (now db)).
Proof.
  intros L HP o'.
  unfold fillOrder, OrderRepository.getOrderById, bind, get, ret.
  rewrite L, HP. cbn [OrderStatus_eqb negb].
  unfold OrderRepository.updateOrderStatus, bind, get, put, ret.
  rewrite L. fold (filledRow o fq fp (now db)). fold o'.
  destruct (updateHoldingFromOrder_run o' (set_orders (insert id o') db))
    as (row & Hrun & _).
  rewrite Hrun.
  unfold createPositionFromOrder, PositionRepository.createPosition,
    uuidv4, bind, get, put, ret.
  cbn. exists row. rewrite or_or_opt. reflexivity.
Qed.

(** X2: an accepted request is stored and filled at once at its own
    quantity and price: the order row is FILLED, one OPEN position with the
    request's side, price and quantity is inserted, and nothing else changes
    in the orders and positions tables. Three identifiers are drawn, in
    this order: for the order, for the holding row and for the position.
    (Numbers are exact rationals: the precision and range of the DECIMAL
    columns are not modelled.) *)
Theorem createOrder_fills_immediately (r : CreateOrderRequest) (db : Db) :
  validRequest r ->
  let id := next_id db in
  exists db',
    createOrder r db = (inr (Some (filledOrder id r (now db))), db')
    /\ orders db' = <[id := filledOrder id r (now db)]> (orders db)
    /\ positions db'
       = <[S (S id) := openedPosition (S (S id)) r (now db)]> (positions db)
    /\ next_id db' = S (S (S id)).
Proof.
  intros Hv id. unfold createOrder, bind at 1.
  rewrite (validateOrderData_ok r db Hv).
  unfold OrderRepository.createOrder, uuidv4, bind, get, put, ret.
  cbn [orders holdings positions next_id now o_id].
  set (o := mkOrder (next_id db) (r_instrument r) (r_side r) (r_quantity r)
              (r_price r) PENDING 0 None (default (now db) (r_order_time r)) None).
  set (db1 := set_orders _ _).
  destruct (fillOrder_effect db1 (next_id db) o (Some (r_quantity r)) (Some (r_price r)))
    as (row & Hrun).
  { subst db1. cbn. apply lookup_insert_eq. }
  { reflexivity. }
  cbn [o_id o] in Hrun |- *. rewrite Hrun.
  unfold OrderRepository.getOrderById, bind, get, ret.
  cbn [orders holdings positions next_id now db1 set_orders].
  rewrite lookup_insert_eq.
  assert (Ho : filledRow o (Some (r_quantity r)) (Some (r_price r)) (now db)
               = filledOrder id r (now db)).
  { unfold filledRow, filledOrder, or_opt. cbn. rewrite !or_same. reflexivity. }
  subst db1. cbn [now set_orders] in *. rewrite Ho.
  eexists. split; [reflexivity|]. cbn [orders positions next_id].
  split; [apply insert_insert_eq|].
  split; [|reflexivity].
  unfold openedPosition, or_opt. cbn. rewrite !or_same. reflexivity.
Qed.

Lemma createOrder_fills_immediately_witness :
  exists db',
    createOrder (mkCreateOrderRequest "NIFTY" SELL 4 120 None) ledgerLong10
    = (inr (Some (filledOrder 0 (mkCreateOrderRequest "NIFTY" SELL 4 120 None) 0%Z)), db')
    /\ orders db'
       = <[0%nat := filledOrder 0 (mkCreateOrderRequest "NIFTY" SELL 4 120 None) 0%Z]> ∅
    /\ positions db'
       = <[2%nat := openedPosition 2 (mkCreateOrderRequest "NIFTY" SELL 4 120 None) 0%Z]> ∅
    /\ next_id db' = 3%nat.
Proof.
  apply (createOrder_fills_immediately
           (mkCreateOrderRequest "NIFTY" SELL 4 120 None) ledgerLong10).
  repeat split; cbn; discriminate || reflexivity.
Defined.

(** X3: filling an unknown order throws NotFound, filling an order that is
    not PENDING throws a ValidationError; neither writes anything. *)
Theorem fillOrder_refused (db : Db) (id : nat) (fq fp : option Q) :
  match orders db !! id with
  | None =>
      fillOrder id fq fp db = (inl (NotFoundError "Order not found"), db)
  | Some o =>
      o_status o <> PENDING ->
      fillOrder id fq fp db
      = (inl (ValidationError "Order is not in pending status"), db)
  end.
Proof.
  unfold fillOrder, OrderRepository.getOrderById, bind, get, ret, throw.
  destruct (orders db !! id) as [o|]; [|reflexivity].
  intros Hs. destruct (o_status o); [contradiction | reflexivity | reflexivity].
Qed.

(** X4: an order is filled at most once: after a successful fill, a second
    fill of the same order is refused and changes nothing, whatever its
    arguments, and so is a cancellation. *)
Theorem fillOrder_only_once (db : Db) (id : nat) (o : Order)
    (fq fp fq' fp' : option Q) :
  orders db !! id = Some o ->
  o_status o = PENDING ->
  exists o' db',
    fillOrder id fq fp db = (inr o', db')
    /\ fillOrder id fq' fp' db'
       = (inl (ValidationError "Order is not in pending status"), db')
    /\ cancelOrder id db'
       = (inl (ValidationError "Only pending orders can be cancelled"), db').
Proof.
  intros L HP. destruct (fillOrder_effect db id o fq fp L HP) as (row & Hrun).
  eexists _, _. split; [exact Hrun|].
  unfold fillOrder, cancelOrder, OrderRepository.getOrderById, bind, get, ret, throw.
  cbn [orders]. rewrite lookup_insert_eq. cbn. split; reflexivity.
Qed.

Lemma fillOrder_only_once_witness :
  exists o' db',
    fillOrder 0 None None ledgerPending = (inr o', db')
    /\ fillOrder 0 (Some 5) (Some 90) db'
       = (inl (ValidationError "Order is not in pending status"), db')
    /\ cancelOrder 0 db'
       = (inl (ValidationError "Only pending orders can be cancelled"), db').
Proof.
  apply (fillOrder_only_once ledgerPending 0%nat
           (mkOrder 0 "NIFTY" BUY 10 100 PENDING 0 None 0%Z None)).
  - vm_compute. reflexivity.
  - reflexivity.
Defined.

(** X5: cancelling a PENDING order only flips its status to CANCELLED: the
    fill columns of the order, the holdings, the positions and every other
    order stay as they were; the order can then be neither filled nor
    cancelled again. An unknown order is NotFound, a non-PENDING one a
    ValidationError, both without any write. *)
Theorem cancelOrder_effect (db : Db) (id : nat) :
  match orders db !! id with
  | None => cancelOrder id db = (inl (NotFoundError "Order not found"), db)
  | Some o =>
      (o_status o <> PENDING ->
       cancelOrder id db
       = (inl (ValidationError "Only pending orders can be cancelled"), db))
      /\ (o_status o = PENDING ->
          let db' := set_orders (insert id (withStatus o CANCELLED)) db in
          cancelOrder id db = (inr (withStatus o CANCELLED), db')
          /\ (forall fq fp,
                fillOrder id fq fp db'
                = (inl (ValidationError "Order is not in pending status"), db'))
          /\ cancelOrder id db'
             = (inl (ValidationError "Only pending orders can be cancelled"), db'))
  end.
Proof.
  destruct (orders db !! id) as [o|] eqn:L.
  - split.
    + intros Hs.
      unfold cancelOrder, OrderRepository.getOrderById, bind, get, ret, throw.
      rewrite L. destruct (o_status o); [contradiction | reflexivity | reflexivity].
    + intros HP db'. split; [|split].
      * unfold cancelOrder, OrderRepository.getOrderById, bind, get, ret, throw.
        rewrite L, HP. cbn [OrderStatus_eqb negb].
        unfold OrderRepository.updateOrderStatus, bind, get, put, ret.
        rewrite L. reflexivity.
      * intros fq fp.
        unfold fillOrder, OrderRepository.getOrderById, bind, get, ret, throw.
        subst db'. cbn [orders set_orders]. rewrite lookup_insert_eq. reflexivity.
      * unfold cancelOrder, OrderRepository.getOrderById, bind, get, ret, throw.
        subst db'. cbn [orders set_orders]. rewrite lookup_insert_eq. reflexivity.
  - unfold cancelOrder, OrderRepository.getOrderById, bind, get, ret, throw.
    rewrite L. reflexivity.
Qed.

Lemma cancelOrder_effect_witness :
  let o := mkOrder 0 "NIFTY" BUY 10 100 PENDING 0 None 0%Z None in
  let db' := set_orders (insert 0%nat (withStatus o CANCELLED)) ledgerPending in
  cancelOrder 0 ledgerPending = (inr (withStatus o CANCELLED), db')
  /\ (forall fq fp,
        fillOrder 0 fq fp db'
        = (inl (ValidationError "Order is not in pending status"), db'))
  /\ cancelOrder 0 db'
     = (inl (ValidationError "Only pending orders can be cancelled"), db').
Proof.
  pose proof (cancelOrder_effect ledgerPending 0%nat) as H.
  change (orders ledgerPending !! 0%nat)
    with (Some (mkOrder 0 "NIFTY" BUY 10 100 PENDING 0 None 0%Z None)) in H.
  apply H. reflexivity.
Defined.

Lemma fillOrder_refused_witness :
  fillOrder 0 (Some 10) (Some 100) ledgerCancelled
  = (inl (ValidationError "Order is not in pending status"), ledgerCancelled).
Proof.
  pose proof (fillOrder_refused ledgerCancelled 0%nat (Some 10) (Some 100)) as H.
  change (orders ledgerCancelled !! 0%nat)
    with (Some (mkOrder 0 "NIFTY" BUY 10 100 CANCELLED 0 None 0%Z None)) in H.
  apply H. discriminate.
Defined.

End OrderFacts.

(** ** Holdings: adding to a position, opening one, marking to market *)

Module HoldingFacts.
Import JS JSFacts PaperTradingService Ledger LedgerMore LedgerFacts.

Lemma sameSigns_nonzero (c q : Q) : sameSigns c q -> eqb c 0 = false.
Proof. intros [[Hc Hq] | [Hc Hq]]; apply eqb_neq; lra. Qed.

Lemma sameSigns_branch (c q : Q) :
  sameSigns c q -> (gtb c 0 && gtb q 0) || (ltb c 0 && ltb q 0) = true.
Proof.
  intros [[Hc Hq] | [Hc Hq]].
  - assert (E1 : gtb c 0 = true) by (apply gtb_gt; lra).
    assert (E2 : gtb q 0 = true) by (apply gtb_gt; lra).
    rewrite E1, E2. reflexivity.
  - assert (E1 : ltb c 0 = true) by (apply ltb_lt; lra).
    assert (E2 : ltb q 0 = true) by (apply ltb_lt; lra).
    rewrite E1, E2. apply orb_true_r.
Qed.

Lemma holdingUpdate_same (h : Holding) (order : Order) :
  sameSigns (h_quantity h) (signedQuantity order) ->
  holdingUpdate (Some h) order
  = (h_quantity h + signedQuantity order,
     (h_quantity h * h_average_price h + signedQuantity order * fillPrice order)
       / (h_quantity h + signedQuantity order),
     0).
Proof.
  intros Hs. unfold holdingUpdate.
  rewrite (sameSigns_nonzero _ _ Hs), (sameSigns_branch _ _ Hs). reflexivity.
Qed.

(** A weighted mean of two numbers with weights of one sign lies between them. *)
Lemma weighted_mean_between (c q a p : Q) :
  sameSigns c q ->
  Qmin a p <= (c * a + q * p) / (c + q) <= Qmax a p.
Proof.
  intros Hs.
  pose proof (Q.le_min_l a p) as Hla. pose proof (Q.le_min_r a p) as Hlp.
  pose proof (Q.le_max_l a p) as Hha. pose proof (Q.le_max_r a p) as Hhp.
  set (lo := Qmin a p) in *. set (hi := Qmax a p) in *.
  destruct Hs as [[Hc Hq] | [Hc Hq]].
  - split.
    + apply Qle_shift_div_l; [lra | nra].
    + apply Qle_shift_div_r; [lra | nra].
  - assert (E : (c * a + q * p) / (c + q) == ((- c) * a + (- q) * p) / (- c + - q))
      by (field; lra).
    rewrite E. split.
    + apply Qle_shift_div_l; [lra | nra].
    + apply Qle_shift_div_r; [lra | nra].
Qed.

(** X6: a fill in the direction of the existing holding adds its quantity,
    realizes nothing, and stores the quantity-weighted average of the old
    average price and the fill price, which lies between the two. *)
Theorem same_direction_fill_averages (db : Db) (order : Order) (h : Holding) :
  holdings db !! o_instrument order = Some h ->
  sameSigns (h_quantity h) (signedQuantity order) ->
  let c := h_quantity h in
  let q := signedQuantity order in
  let p := fillPrice order in
  exists db' h',
    updateHoldingFromOrder order db = (inr tt, db')
    /\ holdings db' !! o_instrument order = Some h'
    /\ h_quantity h' = c + q
    /\ h_average_price h' * (c + q) == c * h_average_price h + q * p
    /\ Qmin (h_average_price h) p <= h_average_price h' <= Qmax (h_average_price h) p
    /\ h_realized_pnl h' == h_realized_pnl h.
Proof.
  intros L Hs c q p.
  destruct (updateHoldingFromOrder_run order db) as (row & Hrun & Hq & Ha & Hr).
  rewrite L in Hq, Ha, Hr. rewrite (holdingUpdate_same _ _ Hs) in Hq, Ha, Hr.
  cbn [fst snd] in Hq, Ha, Hr. fold c q p in Hq, Ha.
  exists (set_holdings (insert (o_instrument order) row) (uuidv4 db).2), row.
  split; [exact Hrun|]. split; [cbn; apply lookup_insert_eq|].
  split; [exact Hq|]. rewrite Ha, Hr.
  split; [|split].
  - field. destruct Hs as [[Hc Hq'] | [Hc Hq']]; subst c q; lra.
  - apply weighted_mean_between. exact Hs.
  - ring.
Qed.

Lemma same_direction_fill_averages_witness :
  exists db' h',
    updateHoldingFromOrder (buyFilled 1 "NIFTY" 30 120 0%Z 0%Z) ledgerLong10
      = (inr tt, db')
    /\ holdings db' !! "NIFTY" = Some h'
    /\ h_quantity h' = 10 + 30
    /\ h_average_price h' * (10 + 30) == 10 * 100 + 30 * 120
    /\ Qmin 100 120 <= h_average_price h' <= Qmax 100 120
    /\ h_realized_pnl h' == 0.
Proof.
  apply (same_direction_fill_averages ledgerLong10
           (buyFilled 1 "NIFTY" 30 120 0%Z 0%Z) (long10at100 "NIFTY" 0 0)).
  - vm_compute. reflexivity.
  - left. split; reflexivity.
Defined.

(** X7: on an instrument with no holding, or with a flat one, a fill sets
    the quantity to its signed quantity and the average price to its fill
    price; the realized P&L accumulated so far (0 when there was no row) is
    carried over, and the total value is quantity times price. *)
Theorem fill_on_flat_holding (db : Db) (order : Order) :
  holdingQuantity (holdings db !! o_instrument order) == 0 ->
  exists db' h',
    updateHoldingFromOrder order db = (inr tt, db')
    /\ holdings db' !! o_instrument order = Some h'
    /\ h_quantity h' = signedQuantity order
    /\ h_average_price h' = fillPrice order
    /\ h_total_value h' = signedQuantity order * fillPrice order
    /\ h_realized_pnl h' == holdingRealized (holdings db !! o_instrument order).
Proof.
  intros Hflat.
  unfold updateHoldingFromOrder, HoldingRepository.getHolding,
    HoldingRepository.updateHolding, uuidv4, bind, get, put, ret.
  destruct (holdings db !! o_instrument order) as [h|] eqn:L.
  - cbn [holdingQuantity] in Hflat. apply eqb_eq in Hflat.
    unfold holdingUpdate. rewrite Hflat. cbn [set_holdings holdings]. rewrite L.
    eexists _, _. split; [reflexivity|]. cbn [holdings].
    split; [apply lookup_insert_eq|]. cbn. repeat split; try reflexivity. ring.
  - cbn [holdingUpdate set_holdings holdings]. rewrite L.
    eexists _, _. split; [reflexivity|]. cbn [holdings].
    split; [apply lookup_insert_eq|]. cbn. repeat split; reflexivity.
Qed.

Lemma fill_on_flat_holding_witness :
  exists db' h',
    updateHoldingFromOrder (sellFilled 1 "NIFTY" 4 120 0%Z 0%Z) emptyDb = (inr tt, db')
    /\ holdings db' !! "NIFTY" = Some h'
    /\ h_quantity h' = - 4
    /\ h_average_price h' = 120
    /\ h_total_value h' = - 4 * 120
    /\ h_realized_pnl h' == 0.
Proof.
  apply (fill_on_flat_holding emptyDb (sellFilled 1 "NIFTY" 4 120 0%Z 0%Z)).
  reflexivity.
Defined.

(** X8: marking a holding to market touches neither its quantity, nor its
    average price, nor its realized P&L, and keeps no memory: marking at
    [x] and then at [y] leaves the database that marking at [y] alone
    leaves. Without a holding row nothing is written and null is returned. *)
Theorem updateUnrealizedPnl_memoryless (db : Db) (instrument : string) (x y : Q) :
  match holdings db !! instrument with
  | None => HoldingRepository.updateUnrealizedPnl instrument y db = (inr None, db)
  | Some h =>
      let marked (price : Q) :=
        mkHolding (h_instrument h) (h_quantity h) (h_average_price h)
          (h_quantity h * price) ((price - h_average_price h) * h_quantity h)
          (h_realized_pnl h) in
      HoldingRepository.updateUnrealizedPnl instrument y db
      = (inr (Some (marked y)), set_holdings (insert instrument (marked y)) db)
      /\ (do! HoldingRepository.updateUnrealizedPnl instrument x in
          HoldingRepository.updateUnrealizedPnl instrument y) db
         = HoldingRepository.updateUnrealizedPnl instrument y db
  end.
Proof.
  assert (Hone : forall (d : Db) (g : Holding) (price : Q),
             holdings d !! instrument = Some g ->
             HoldingRepository.updateUnrealizedPnl instrument price d
             = (inr (Some (mkHolding (h_instrument g) (h_quantity g)
                             (h_average_price g) (h_quantity g * price)
                             ((price - h_average_price g) * h_quantity g)
                             (h_realized_pnl g))),
                set_holdings
                  (insert instrument
                     (mkHolding (h_instrument g) (h_quantity g)
                        (h_average_price g) (h_quantity g * price)
                        ((price - h_average_price g) * h_quantity g)
                        (h_realized_pnl g))) d)).
  { intros d g price Lg.
    unfold HoldingRepository.updateUnrealizedPnl, HoldingRepository.getHolding,
      bind, get, put, ret.
    rewrite Lg. rewrite Lg. reflexivity. }
  destruct (holdings db !! instrument) as [h|] eqn:L.
  - intros marked. split; [apply Hone; exact L|].
    unfold bind. rewrite (Hone db h x L).
    rewrite (Hone _ (marked x)); [|cbn; apply lookup_insert_eq].
    rewrite (Hone db h y L). subst marked. cbn [h_instrument h_quantity
      h_average_price h_realized_pnl].
    unfold set_holdings. cbn [orders holdings positions next_id now].
    rewrite insert_insert_eq. reflexivity.
  - unfold HoldingRepository.updateUnrealizedPnl, HoldingRepository.getHolding,
      bind, get, put, ret.
    rewrite L. reflexivity.
Qed.

End HoldingFacts.

(** ** Positions: the OPEN to CLOSED life cycle *)

Module PositionFacts.
Import JS JSFacts PaperTradingService Ledger LedgerMore LedgerFacts.

(** The row [updatePositionPnl] writes for an OPEN position. *)
Lemma updatePositionPnl_open (db : Db) (id : nat) (p : Position) (x : Q) :
  positions db !! id = Some p ->
  p_status p = OPEN ->
  let p' :=
    mkPosition (p_id p) (p_instrument p) (p_side p) (p_entry_price p)
      (p_exit_price p) (p_quantity p) (p_status p) (closingPnl p x)
      (p_entry_time p) (p_exit_time p) (p_strategy_id p) in
  PositionRepository.updatePositionPnl id x db
  = (inr (Some p'), set_positions (insert id p') db).
Proof.
  intros L Ho p'.
  unfold PositionRepository.updatePositionPnl, PositionRepository.getPositionById,
    bind, get, put, ret.
  rewrite L, Ho. cbn [PositionStatus_eqb]. rewrite L.
  subst p'. rewrite calculatePnl_closingPnl, Ho. reflexivity.
Qed.

(** The row a position is closed to. *)
Lemma service_closePosition_open (db : Db) (id : nat) (p : Position) (x : Q) :
  positions db !! id = Some p ->
  p_status p = OPEN ->
  let p' :=
    mkPosition (p_id p) (p_instrument p) (p_side p) (p_entry_price p)
      (Some x) (p_quantity p) CLOSED (closingPnl p x)
      (p_entry_time p) (Some (now db)) (p_strategy_id p) in
  exists db',
    closePosition id x db = (inr p', db')
    /\ positions db' = <[id := p']> (positions db)
    /\ orders db' = orders db.
Proof.
  intros L Ho p'.
  unfold closePosition, PositionRepository.closePosition,
    PositionRepository.getPositionById, bind, get, put, ret, throw.
  rewrite L, Ho. cbn [PositionStatus_eqb]. rewrite L.
  unfold updateHoldingFromPositionClosure, HoldingRepository.getHolding,
    HoldingRepository.updateHolding, uuidv4, bind, get, put, ret.
  unfold set_positions.
  cbn [orders holdings positions next_id now p_instrument p_pnl].
  rewrite calculatePnl_closingPnl. fold p'.
  destruct (holdings db !! p_instrument p) as [h|] eqn:Lh.
  - unfold set_holdings. cbn [orders holdings positions next_id now].
    rewrite Lh. eexists. split; [reflexivity|]. cbn. auto.
  - eexists. split; [reflexivity|]. cbn. auto.
Qed.

(** X9: CLOSED is terminal. Once a position is closed, re-pricing it
    returns null, closing it again returns null (NotFound at the service),
    and none of these writes anything: exit price and P&L are fixed. *)
Theorem closed_position_is_final (db : Db) (id : nat) (p : Position) (x : Q) :
  positions db !! id = Some p ->
  p_status p = OPEN ->
  exists p' db',
    closePosition id x db = (inr p', db')
    /\ positions db' !! id = Some p'
    /\ p_exit_price p' = Some x
    /\ forall (y : Q) (t : option Date),
         PositionRepository.updatePositionPnl id y db' = (inr None, db')
         /\ PositionRepository.closePosition id y t db' = (inr None, db')
         /\ closePosition id y db'
            = (inl (NotFoundError "Position not found or already closed"), db').
Proof.
  intros L Ho.
  destruct (service_closePosition_open db id p x L Ho) as (db' & Hrun & Hpos & _).
  eexists _, db'. split; [exact Hrun|].
  assert (Hrow : positions db' !! id
                 = Some (mkPosition (p_id p) (p_instrument p) (p_side p)
                           (p_entry_price p) (Some x) (p_quantity p) CLOSED
                           (closingPnl p x) (p_entry_time p) (Some (now db))
                           (p_strategy_id p)))
    by (rewrite Hpos; apply lookup_insert_eq).
  split; [exact Hrow|]. split; [reflexivity|].
  intros y t. split; [|split].
  - unfold PositionRepository.updatePositionPnl, PositionRepository.getPositionById,
      bind, get, ret.
    rewrite Hrow. reflexivity.
  - unfold PositionRepository.closePosition, PositionRepository.getPositionById,
      bind, get, ret.
    rewrite Hrow. reflexivity.
  - unfold closePosition, PositionRepository.closePosition,
      PositionRepository.getPositionById, bind, get, ret, throw.
    rewrite Hrow. reflexivity.
Qed.

Lemma closed_position_is_final_witness :
  exists p' db',
    closePosition 1 110 ledgerLong10Open = (inr p', db')
    /\ positions db' !! 1%nat = Some p'
    /\ p_exit_price p' = Some 110
    /\ forall (y : Q) (t : option Date),
         PositionRepository.updatePositionPnl 1 y db' = (inr None, db')
         /\ PositionRepository.closePosition 1 y t db' = (inr None, db')
         /\ closePosition 1 y db'
            = (inl (NotFoundError "Position not found or already closed"), db').
Proof.
  apply (closed_position_is_final ledgerLong10Open 1%nat
           (mkPosition 1 "NIFTY" BUY 100 None 10 OPEN 0 0%Z None None)).
  - vm_compute. reflexivity.
  - reflexivity.
Defined.

(** X10: re-pricing an OPEN position keeps it OPEN and keeps no memory of
    earlier prices, and closing it at the price it was last marked at
    realizes exactly the P&L that was marked. *)
Theorem mark_then_close (db : Db) (id : nat) (p : Position) (x y : Q) :
  positions db !! id = Some p ->
  p_status p = OPEN ->
  exists m db1,
    PositionRepository.updatePositionPnl id y db = (inr (Some m), db1)
    /\ p_status m = OPEN
    /\ p_pnl m = closingPnl p y
    /\ (do! PositionRepository.updatePositionPnl id x in
        PositionRepository.updatePositionPnl id y) db
       = (inr (Some m), db1)
    /\ exists c db2,
         closePosition id y db1 = (inr c, db2)
         /\ p_status c = CLOSED
         /\ p_pnl c = p_pnl m.
Proof.
  intros L Ho.
  pose proof (updatePositionPnl_open db id p y L Ho) as Hy. cbv zeta in Hy.
  pose proof (updatePositionPnl_open db id p x L Ho) as Hx. cbv zeta in Hx.
  eexists _, _. split; [exact Hy|]. split; [exact Ho|]. split; [reflexivity|].
  split.
  - unfold bind. rewrite Hx.
    match goal with
    | |- PositionRepository.updatePositionPnl id y ?d = _ =>
        pose proof (fun q => updatePositionPnl_open d id q y) as H2
    end.
    cbv zeta in H2. erewrite H2; [|cbn; apply lookup_insert_eq | exact Ho].
    cbn [p_id p_instrument p_side p_entry_price p_exit_price p_quantity p_status
         p_entry_time p_exit_time p_strategy_id].
    unfold set_positions. cbn [orders holdings positions next_id now].
    rewrite insert_insert_eq. reflexivity.
  - edestruct (service_closePosition_open
                 (set_positions
                    (insert id
                       (mkPosition (p_id p) (p_instrument p) (p_side p)
                          (p_entry_price p) (p_exit_price p) (p_quantity p)
                          (p_status p) (closingPnl p y) (p_entry_time p)
                          (p_exit_time p) (p_strategy_id p))) db) id) as (db2 & Hc & _).
    + cbn. apply lookup_insert_eq.
    + exact Ho.
    + eexists _, db2. split; [exact Hc|]. split; reflexivity.
Qed.
Lemma mark_then_close_witness :
  exists m db1,
    PositionRepository.updatePositionPnl 1 105 ledgerLong10Open = (inr (Some m), db1)
    /\ p_status m = OPEN
    /\ p_pnl m = (105 - 100) * 10
    /\ (do! PositionRepository.updatePositionPnl 1 98 in
        PositionRepository.updatePositionPnl 1 105) ledgerLong10Open
       = (inr (Some m), db1)
    /\ exists c db2,
         closePosition 1 105 db1 = (inr c, db2)
         /\ p_status c = CLOSED
         /\ p_pnl c = p_pnl m.
Proof.
  apply (mark_then_close ledgerLong10Open 1%nat
           (mkPosition 1 "NIFTY" BUY 100 None 10 OPEN 0 0%Z None None) 98 105).
  - vm_compute. reflexivity.
  - reflexivity.
Defined.

End PositionFacts.

(** ** Simple moving averages *)

Module SMAFacts.
Import JS JSFacts StrategyService Backtest BacktestMore.

Lemma inject_nat_S (n : nat) :
  inject_Z (Z.of_nat (S n)) == inject_Z (Z.of_nat n) + 1.
Proof. rewrite Nat2Z.inj_succ. unfold Z.succ. rewrite inject_Z_plus. reflexivity. Qed.

(** A running sum of closes within [lo, hi] grows within [lo, hi] per bar. *)
Lemma sum_closes_between (lo hi : Q) (l : list Candle) :
  Forall (fun c => lo <= c_close_price c <= hi) l ->
  forall a,
    a + lo * inject_Z (Z.of_nat (length l))
    <= fold_left (fun acc candle => acc + c_close_price candle) l a
    <= a + hi * inject_Z (Z.of_nat (length l)).
Proof.
  induction 1 as [|c l [Hlo Hhi] _ IH]; intros a.
  - cbn [fold_left length]. change (inject_Z (Z.of_nat 0)) with 0. split; lra.
  - cbn [fold_left length]. specialize (IH (a + c_close_price c)).
    rewrite inject_nat_S. destruct IH as [IH1 IH2]. split; lra.
Qed.

Lemma slice_lookup {A} (xs : list A) (start stop k : nat) (x : A) :
  slice xs start stop !! k = Some x ->
  xs !! (start + k)%nat = Some x /\ (start + k < stop)%nat.
Proof.
  unfold slice. intros H.
  destruct (decide (k < stop - start)%nat) as [Hk|Hk].
  - rewrite lookup_take_lt in H by exact Hk. rewrite lookup_drop in H.
    split; [exact H | lia].
  - rewrite lookup_take_ge in H by lia. discriminate.
Qed.

Lemma slice_nonempty {A} (xs : list A) (start stop : nat) :
  (start < stop)%nat -> (start < length xs)%nat ->
  (0 < length (slice xs start stop))%nat.
Proof.
  intros H1 H2. unfold slice. rewrite length_take, length_drop. lia.
Qed.

(** X11: the moving average lies between any two bounds on the closes of
    its window, the bars [max(0, index - period + 1) .. index]. *)
Theorem calculateSMA_between (candles : list Candle) (index period : nat) (lo hi : Q) :
  (index < length candles)%nat ->
  (0 < period)%nat ->
  (forall j c,
      (index + 1 - period <= j <= index)%nat ->
      candles !! j = Some c ->
      lo <= c_close_price c <= hi) ->
  lo <= calculateSMA candles index period <= hi.
Proof.
  intros Hi Hp Hw. unfold calculateSMA. cbn [Nat.max].
  set (w := slice candles (index + 1 - period) (index + 1)).
  assert (Hall : Forall (fun c => lo <= c_close_price c <= hi) w).
  { apply Forall_lookup. intros k c Hk. subst w.
    apply slice_lookup in Hk as [Hk Hlt].
    apply (Hw (index + 1 - period + k)%nat c); [lia | exact Hk]. }
  assert (Hn : (0 < length w)%nat) by (subst w; apply slice_nonempty; lia).
  pose proof (sum_closes_between lo hi w Hall 0) as [H1 H2].
  assert (Hpos : 0 < inject_Z (Z.of_nat (length w))).
  { change 0 with (inject_Z 0). rewrite <- Zlt_Qlt. lia. }
  split.
  - apply Qle_shift_div_l; [exact Hpos | lra].
  - apply Qle_shift_div_r; [exact Hpos | lra].
Qed.

Lemma calculateSMA_between_witness :
  9 <= calculateSMA (bars [10; 10; 11; 9; 12]) 3 2 <= 11.
Proof.
  apply calculateSMA_between.
  - cbn. lia.
  - lia.
  - intros j c Hj Hc.
    assert (Hcases : j = 2%nat \/ j = 3%nat) by lia.
    destruct Hcases as [-> | ->]; vm_compute in Hc;
      injection Hc as Hc; subst c; cbn [c_close_price]; split; lra.
Defined.

(** The running sum of the loop is the sum of the closes. *)
Lemma sum_closes_foldr (l : list Candle) :
  forall a,
    fold_left (fun acc candle => acc + c_close_price candle) l a
    == a + foldr (fun c total => c_close_price c + total) 0 l.
Proof.
  induction l as [|c l IH]; intros a; cbn [fold_left foldr]; [ring|].
  rewrite IH. ring.
Qed.

(** X12: clipping at the start of the series: while the window would reach
    before the first bar ([period >= index + 1]), the moving average is the
    mean of the closes of the [index + 1] bars 0 .. index, and so the same
    for every such period. *)
Theorem calculateSMA_clipped (candles : list Candle) (index period : nat) :
  (index < length candles)%nat ->
  (index + 1 <= period)%nat ->
  let window := take (index + 1) candles in
  length window = (index + 1)%nat
  /\ calculateSMA candles index period == meanClose window
  /\ (forall period',
        (index + 1 <= period')%nat ->
        calculateSMA candles index period' = calculateSMA candles index period).
Proof.
  intros Hi H window.
  assert (Hclip : forall q, (index + 1 <= q)%nat ->
            calculateSMA candles index q
            = fold_left (fun acc candle => acc + c_close_price candle) window 0
              / inject_Z (Z.of_nat (length window))).
  { intros q Hq. unfold calculateSMA, slice. cbn [Nat.max].
    replace (index + 1 - q)%nat with 0%nat by lia.
    rewrite drop_0, Nat.sub_0_r. reflexivity. }
  split; [subst window; rewrite length_take; lia|].
  split.
  - rewrite (Hclip period H). unfold meanClose.
    rewrite (sum_closes_foldr window 0). unfold Qdiv.
    rewrite Qplus_0_l. reflexivity.
  - intros period' H'. rewrite (Hclip period' H'), (Hclip period H). reflexivity.
Qed.

Lemma calculateSMA_clipped_witness :
  calculateSMA (bars [10; 10; 11; 9; 12]) 2 10 == 31 # 3
  /\ calculateSMA (bars [10; 10; 11; 9; 12]) 2 20
     = calculateSMA (bars [10; 10; 11; 9; 12]) 2 10.
Proof.
  destruct (calculateSMA_clipped (bars [10; 10; 11; 9; 12]) 2 10)
    as (_ & Hmean & Hsame).
  - cbn. lia.
  - lia.
  - split.
    + rewrite Hmean. vm_compute. reflexivity.
    + apply Hsame. lia.
Defined.

End SMAFacts.

(** ** The simulation as a whole *)

Module RunFacts.
Import JS JSFacts StrategyService Backtest BacktestMore Ledger.

Lemma runState_id (strategy : Strategy) (candles : list Candle) (db0 : Db)
    (ps : list Position) (db : Db) (j : nat) (q : Position) :
  runState strategy candles db0 ps db ->
  ps !! j = Some q ->
  p_id q = (next_id db0 + j)%nat.
Proof.
  intros (_ & _ & _ & _ & Hids & _) Hj.
  assert (H : map p_id ps !! j = Some (p_id q)) by (rewrite list_lookup_fmap, Hj; reflexivity).
  rewrite Hids in H. apply lookup_seq in H. lia.
Qed.

(** Opening a position extends the run. *)
Lemma runState_open (strategy : Strategy) (candles : list Candle) (db0 : Db)
    (ps : list Position) (db : Db) (c : Candle) :
  c ∈ candles ->
  runState strategy candles db0 ps db ->
  exists p db',
    PositionRepository.createPosition (c_instrument c) BUY (c_close_price c) 100
      (Some (c_epoch_time c * 1000)%Z) (Some (s_id strategy)) db
    = (inr p, db')
    /\ runState strategy candles db0 (ps ++ [p]) db'.
Proof.
  intros Hc Hst. pose proof Hst as (Ho & Hh & Hn & Hnext & Hids & Hlots & Hrows & Hold).
  unfold PositionRepository.createPosition, uuidv4, bind, get, put, ret, set_positions.
  cbn [orders holdings positions next_id now default from_option id].
  eexists _, _. split; [reflexivity|].
  unfold runState. cbn [orders holdings positions next_id now].
  rewrite length_app, map_app. cbn [length map p_id].
  split; [exact Ho|]. split; [exact Hh|]. split; [exact Hn|].
  split; [lia|]. split.
  { rewrite seq_app, Hids. cbn [seq]. rewrite Hnext. reflexivity. }
  split.
  { apply Forall_app. split; [exact Hlots|]. constructor; [|constructor].
    unfold simulatedLot. cbn.
    split; [reflexivity|]. split; [reflexivity|]. split; [reflexivity|].
    split; [|auto]. exists c. auto. }
  split.
  { intros q Hq. apply elem_of_app in Hq as [Hq | Hq].
    - apply list_elem_of_lookup in Hq as [j Hj].
      pose proof (lookup_lt_Some _ _ _ Hj) as Hlt.
      assert (Hid : p_id q = (next_id db0 + j)%nat).
      { eapply runState_id; [exact Hst | exact Hj]. }
      rewrite lookup_insert_ne by lia. apply Hrows.
      apply list_elem_of_lookup. eauto.
    - apply list_elem_of_singleton in Hq. subst q. cbn [p_id].
      apply lookup_insert_eq. }
  intros id Hid. rewrite lookup_insert_ne by lia. apply Hold. exact Hid.
Qed.

Lemma simulateStep_split (strategy : Strategy) (candles : list Candle)
    (shortPeriod longPeriod i : nat) (c : Candle) (ps : list Position) :
  candles !! i = Some c ->
  simulateStep strategy candles shortPeriod longPeriod i ps
  = (let! ps1 := openOnGoldenCross strategy candles shortPeriod longPeriod i c ps in
     closeOnDeathCross candles shortPeriod longPeriod i c ps1).
Proof. intros Hc. unfold simulateStep. rewrite Hc. reflexivity. Qed.

Lemma runState_openOnGoldenCross (strategy : Strategy) (candles : list Candle)
    (shortPeriod longPeriod i : nat) (db0 : Db)
    (ps : list Position) (db : Db) (c : Candle) :
  c ∈ candles ->
  runState strategy candles db0 ps db ->
  exists ps' db',
    openOnGoldenCross strategy candles shortPeriod longPeriod i c ps db = (inr ps', db')
    /\ runState strategy candles db0 ps' db'
    /\ (length ps' <= S (length ps))%nat.
Proof.
  intros Hc Hst. unfold openOnGoldenCross.
  destruct (leb _ _ && gtb _ _).
  - destruct (runState_open strategy candles db0 ps db c Hc Hst) as (p & db' & Hrun & Hst').
    exists (ps ++ [p]), db'. unfold bind. rewrite Hrun.
    split; [reflexivity|]. split; [exact Hst'|]. rewrite length_app. cbn. lia.
  - exists ps, db. split; [reflexivity|]. split; [exact Hst | lia].
Qed.

(** The row written by the repository's [closePosition] for an OPEN row. *)
Lemma closePosition_open_row (db : Db) (id : nat) (p : Position) (x : Q) (t : Date) :
  positions db !! id = Some p ->
  p_status p = OPEN ->
  let p' :=
    mkPosition (p_id p) (p_instrument p) (p_side p) (p_entry_price p)
      (Some x) (p_quantity p) CLOSED (PositionRepository.calculatePnl p x)
      (p_entry_time p) (Some t) (p_strategy_id p) in
  PositionRepository.closePosition id x (Some t) db
  = (inr (Some p'), set_positions (insert id p') db).
Proof.
  intros Hrow Hopen p'.
  unfold PositionRepository.closePosition, PositionRepository.getPositionById,
    bind, get, put, ret.
  rewrite Hrow, Hopen. cbn [PositionStatus_eqb]. rewrite Hrow. reflexivity.
Qed.

Lemma runState_closeOnDeathCross (strategy : Strategy) (candles : list Candle)
    (shortPeriod longPeriod i : nat) (db0 : Db)
    (ps : list Position) (db : Db) (c : Candle) :
  c ∈ candles ->
  runState strategy candles db0 ps db ->
  exists ps' db',
    closeOnDeathCross candles shortPeriod longPeriod i c ps db = (inr ps', db')
    /\ runState strategy candles db0 ps' db'
    /\ length ps' = length ps.
Proof.
  intros Hc Hst. unfold closeOnDeathCross.
  assert (Hsame : exists ps' db',
             ret ps db = (inr ps', db')
             /\ runState strategy candles db0 ps' db' /\ length ps' = length ps)
    by (exists ps, db; auto).
  destruct (geb _ _ && ltb _ _ && (0 <? length ps)%nat); [|exact Hsame].
  destruct (ps !! (length ps - 1)%nat) as [lastPosition|] eqn:Elast; [|exact Hsame].
  destruct (p_status lastPosition) eqn:Es; cbn [PositionStatus_eqb]; [|exact Hsame].
  clear Hsame.
  pose proof Hst as (Ho & Hh & Hn & Hnext & Hids & Hlots & Hrows & Hold).
  assert (Hin : lastPosition ∈ ps) by (eapply list_elem_of_lookup_2; exact Elast).
  pose proof (Hrows _ Hin) as Hrow.
  pose proof (closePosition_open_row db (p_id lastPosition) lastPosition
                (c_close_price c) (c_epoch_time c * 1000)%Z Hrow Es) as Hrun.
  cbv zeta in Hrun. unfold bind. rewrite Hrun. unfold ret.
  set (closed := mkPosition _ _ _ _ _ _ _ _ _ _ _).
  pose proof (lookup_lt_Some _ _ _ Elast) as Hlt.
  pose proof (Forall_lookup_1 _ _ _ _ Hlots Elast)
    as (Hside & Hqty & Hsid & Hentry & _).
  eexists _, _. split; [reflexivity|].
  split; [|apply length_insert].
  unfold runState, set_positions. cbn [orders holdings positions next_id now].
  rewrite length_insert.
  split; [exact Ho|]. split; [exact Hh|]. split; [exact Hn|]. split; [exact Hnext|].
  split.
  { rewrite list_fmap_insert. rewrite <- Hids. apply list_insert_id.
    rewrite list_lookup_fmap, Elast. reflexivity. }
  split.
  { apply Forall_insert; [exact Hlots|].
    unfold simulatedLot. subst closed. cbn.
    split; [exact Hside|]. split; [exact Hqty|]. split; [exact Hsid|].
    split; [exact Hentry|].
    exists c. split; [exact Hc|]. split; [reflexivity|]. split; [reflexivity|].
    unfold PositionRepository.calculatePnl. rewrite Hside, Hqty. reflexivity. }
  split.
  { intros q Hq. apply list_elem_of_lookup in Hq as [j Hj].
    destruct (decide (j = (length ps - 1)%nat)) as [-> | Hne].
    - rewrite list_lookup_insert_eq in Hj by exact Hlt.
      injection Hj as Hj. subst q. subst closed. cbn [p_id]. apply lookup_insert_eq.
    - rewrite list_lookup_insert_ne in Hj by congruence.
      assert (Hidq : p_id q = (next_id db0 + j)%nat)
        by (eapply runState_id; [exact Hst | exact Hj]).
      assert (Hidl : p_id lastPosition = (next_id db0 + (length ps - 1))%nat)
        by (eapply runState_id; [exact Hst | exact Elast]).
      rewrite lookup_insert_ne by lia. apply Hrows.
      eapply list_elem_of_lookup_2. exact Hj. }
  intros id Hid.
  assert (Hidl : p_id lastPosition = (next_id db0 + (length ps - 1))%nat)
    by (eapply runState_id; [exact Hst | exact Elast]).
  rewrite lookup_insert_ne by lia. apply Hold. exact Hid.
Qed.

Lemma runState_step (strategy : Strategy) (candles : list Candle)
    (shortPeriod longPeriod i : nat) (db0 : Db)
    (ps : list Position) (db : Db) :
  (i < length candles)%nat ->
  runState strategy candles db0 ps db ->
  exists ps' db',
    simulateStep strategy candles shortPeriod longPeriod i ps db = (inr ps', db')
    /\ runState strategy candles db0 ps' db'
    /\ (length ps' <= S (length ps))%nat.
Proof.
  intros Hi Hst.
  destruct (lookup_lt_is_Some_2 candles i Hi) as [c Hc].
  assert (Hin : c ∈ candles) by (eapply list_elem_of_lookup_2; exact Hc).
  rewrite (simulateStep_split _ _ _ _ _ c _ Hc).
  destruct (runState_openOnGoldenCross strategy candles shortPeriod longPeriod i
              db0 ps db c Hin Hst) as (ps1 & db1 & Hrun1 & Hst1 & Hlen1).
  destruct (runState_closeOnDeathCross strategy candles shortPeriod longPeriod i
              db0 ps1 db1 c Hin Hst1) as (ps2 & db2 & Hrun2 & Hst2 & Hlen2).
  exists ps2, db2. unfold bind. rewrite Hrun1.
  split; [exact Hrun2|]. split; [exact Hst2 | lia].
Qed.

Lemma runState_forEach (strategy : Strategy) (candles : list Candle)
    (shortPeriod longPeriod : nat) (db0 : Db) (indices : list nat) :
  Forall (fun i => (i < length candles)%nat) indices ->
  forall (ps : list Position) (db : Db),
    runState strategy candles db0 ps db ->
    exists ps' db',
      forEach indices (simulateStep strategy candles shortPeriod longPeriod) ps db
      = (inr ps', db')
      /\ runState strategy candles db0 ps' db'
      /\ (length ps' <= length ps + length indices)%nat.
Proof.
  induction 1 as [|i indices Hi _ IH]; intros ps db Hst.
  - exists ps, db. split; [reflexivity|]. split; [exact Hst | cbn; lia].
  - destruct (runState_step strategy candles shortPeriod longPeriod i db0 ps db Hi Hst)
      as (ps1 & db1 & Hrun1 & Hst1 & Hlen1).
    destruct (IH ps1 db1 Hst1) as (ps2 & db2 & Hrun2 & Hst2 & Hlen2).
    exists ps2, db2. cbn [forEach]. unfold bind. rewrite Hrun1.
    split; [exact Hrun2|]. split; [exact Hst2 | cbn [length]; lia].
Qed.

Lemma runState_initial (strategy : Strategy) (candles : list Candle) (db : Db) :
  runState strategy candles db [] db.
Proof.
  unfold runState. cbn [length map seq].
  split; [reflexivity|]. split; [reflexivity|]. split; [reflexivity|].
  split; [lia|]. split; [reflexivity|]. split; [constructor|].
  split; [|auto]. intros p Hp. apply elem_of_nil in Hp. contradiction.
Qed.

Lemma loopIndices_in_range (candles : list Candle) (longPeriod : nat) :
  Forall (fun i => (i < length candles)%nat) (loopIndices candles longPeriod).
Proof.
  unfold loopIndices. apply Forall_forall. intros i Hi.
  apply elem_of_seq in Hi. lia.
Qed.

(** The whole run reaches a state described by [runState]. *)
Lemma simulateStrategy_runState (strategy : Strategy) (candles : list Candle) (db : Db) :
  exists ps db',
    simulateStrategy strategy candles db = (inr ps, db')
    /\ runState strategy candles db ps db'
    /\ (length ps
        <= length candles - period_or (long_period (s_parameters strategy)) 20)%nat.
Proof.
  unfold simulateStrategy.
  destruct (String.eqb (sp_type (s_parameters strategy)) "sma_crossover").
  - set (longPeriod := period_or (long_period (s_parameters strategy)) 20).
    destruct (runState_forEach strategy candles
                (period_or (short_period (s_parameters strategy)) 10) longPeriod db
                (loopIndices candles longPeriod)
                (loopIndices_in_range candles longPeriod) [] db
                (runState_initial strategy candles db))
      as (ps & db' & Hrun & Hst & Hlen).
    exists ps, db'. split; [exact Hrun|]. split; [exact Hst|].
    unfold loopIndices in Hlen. rewrite length_seq in Hlen. cbn in Hlen. exact Hlen.
  - exists [], db. split; [reflexivity|].
    split; [apply runState_initial | cbn; lia].
Qed.

(** X13: a run over a strategy of another type, or over no more bars than
    the long period, records no position and writes nothing. *)
Theorem simulateStrategy_nothing_to_do (strategy : Strategy) (candles : list Candle)
    (db : Db) :
  sp_type (s_parameters strategy) <> "sma_crossover"
  \/ (length candles <= period_or (long_period (s_parameters strategy)) 20)%nat ->
  simulateStrategy strategy candles db = (inr [], db).
Proof.
  intros H. unfold simulateStrategy.
  destruct (String.eqb (sp_type (s_parameters strategy)) "sma_crossover") eqn:E;
    [|reflexivity].
  destruct H as [H | H].
  - apply String.eqb_eq in E. contradiction.
  - unfold loopIndices.
    replace (length candles - period_or (long_period (s_parameters strategy)) 20)%nat
      with 0%nat by lia.
    reflexivity.
Qed.

Lemma simulateStrategy_nothing_to_do_witness :
  simulateStrategy (crossover 1 5) (bars [10; 10; 11; 11; 12]) ledgerLong10
  = (inr [], ledgerLong10).
Proof.
  apply simulateStrategy_nothing_to_do. right. cbn. lia.
Defined.


(** X15: every position a run records is a long of 100 units of the
    strategy under test, opened at the close of a bar; it is stored under
    consecutive fresh ids exactly as recorded; and when CLOSED its exit
    price is the close of a bar and its P&L is [(exit - entry) * 100]. *)
Theorem simulateStrategy_lots (strategy : Strategy) (candles : list Candle) (db : Db) :
  exists ps db',
    simulateStrategy strategy candles db = (inr ps, db')
    /\ Forall (simulatedLot strategy candles) ps
    /\ map p_id ps = seq (next_id db) (length ps)
    /\ (forall p, p ∈ ps -> positions db' !! p_id p = Some p).
Proof.
  destruct (simulateStrategy_runState strategy candles db)
    as (ps & db' & Hrun & (_ & _ & _ & _ & Hids & Hlots & Hrows & _) & _).
  exists ps, db'. auto.
Qed.

End RunFacts.

(** ** Further facts about the performance metrics *)

Module MetricsMoreFacts.
Import JS JSFacts StrategyService Backtest.

Lemma filter_closed_idem (ps : list Position) :
  filter (fun p => isClosed p = true) (filter (fun p => isClosed p = true) ps)
  = filter (fun p => isClosed p = true) ps.
Proof.
  induction ps as [|p ps IH]; [reflexivity|].
  rewrite (filter_cons (fun p => isClosed p = true) p ps).
  destruct (decide (isClosed p = true)) as [H|H]; [|exact IH].
  rewrite filter_cons. destruct (decide (isClosed p = true)); [|contradiction].
  rewrite IH. reflexivity.
Qed.

(** X16: the metrics depend on the CLOSED positions only: OPEN positions
    and the bars passed along are ignored; the trade count is the number of
    CLOSED positions, the winners are among them, and the total P&L is the
    running sum of their P&L. *)
Theorem metrics_of_closed_only (sqrt : Q -> Q) (ps : list Position)
    (candles candles' : list Candle) :
  let closed := filter (fun p => isClosed p = true) ps in
  calculatePerformanceMetrics sqrt ps candles
  = calculatePerformanceMetrics sqrt closed candles'
  /\ totalTrades (calculatePerformanceMetrics sqrt ps candles) = length closed
  /\ (winningTrades (calculatePerformanceMetrics sqrt ps candles) <= length closed)%nat
  /\ totalPnl (calculatePerformanceMetrics sqrt ps candles)
     = fold_left Qplus (map p_pnl closed) 0.
Proof.
  intros closed. split; [|split; [|split]].
  - unfold calculatePerformanceMetrics. subst closed.
    rewrite filter_closed_idem. reflexivity.
  - reflexivity.
  - unfold calculatePerformanceMetrics. cbn [winningTrades]. apply length_filter.
  - unfold calculatePerformanceMetrics. cbn [totalPnl]. fold closed.
    generalize 0. induction closed as [|p l IH]; intros a; [reflexivity|].
    cbn [map fold_left]. apply IH.
Qed.

(** The drawdown loop over trades that never lose. *)
Lemma drawdown_no_loss (l : list Position) :
  Forall (fun p => 0 <= p_pnl p) l ->
  forall m peak running,
    m == 0 -> peak == running ->
    (fold_left drawdownStep l (m, peak, running)).1.1 == 0.
Proof.
  induction 1 as [|p l Hp _ IH]; intros m peak running Hm Hpk; [exact Hm|].
  cbn [fold_left]. unfold drawdownStep at 2.
  set (r' := running + p_pnl p).
  set (pk' := if gtb r' peak then r' else peak).
  assert (Hpk' : pk' == r').
  { subst pk'. destruct (gtb r' peak) eqn:E; [reflexivity|].
    apply gtb_le in E. subst r'. lra. }
  apply IH; [|exact Hpk'].
  assert (Hd : (pk' - r') / JS.or pk' 1 == 0).
  { assert (Hz : pk' - r' == 0) by lra. unfold Qdiv. rewrite Hz. ring. }
  rewrite Hd, Hm. reflexivity.
Qed.

(** X17: a run whose closed trades never lose reports a maximum drawdown
    of 0. *)
Theorem no_losing_trade_no_drawdown (sqrt : Q -> Q) (ps : list Position)
    (candles : list Candle) :
  Forall (fun p => 0 <= p_pnl p) (filter (fun p => isClosed p = true) ps) ->
  maxDrawdown (calculatePerformanceMetrics sqrt ps candles) == 0.
Proof.
  intros H. unfold calculatePerformanceMetrics, calculateMaxDrawdown. cbn [maxDrawdown].
  pose proof (drawdown_no_loss _ H 0 0 0 (Qeq_refl 0) (Qeq_refl 0)) as Hd.
  destruct (fold_left drawdownStep _ (0, 0, 0)) as [[m pk] r]. exact Hd.
Qed.

Lemma no_losing_trade_no_drawdown_witness :
  maxDrawdown
    (calculatePerformanceMetrics sqrt6
       [closedWith 0 200; closedWith 1 0; closedWith 2 100] []) == 0.
Proof.
  apply no_losing_trade_no_drawdown.
  repeat (constructor; [cbn; lra|]). constructor.
Defined.

(** The drawdown loop over trades that never win: the peak stays 0, the
    divisor is 1 and the drawdown is the loss accumulated so far. *)
Lemma drawdown_no_gain (l : list Position) :
  Forall (fun p => p_pnl p <= 0) l ->
  forall m running,
    running <= 0 -> m == - running ->
    (fold_left drawdownStep l (m, 0, running)).1.1
    == - fold_left (fun sum p => sum + p_pnl p) l running.
Proof.
  induction 1 as [|p l Hp _ IH]; intros m running Hr Hm; [exact Hm|].
  cbn [fold_left]. unfold drawdownStep at 2.
  set (r' := running + p_pnl p).
  assert (Hr' : r' <= 0) by (subst r'; lra).
  assert (E : gtb r' 0 = false) by (apply gtb_le; exact Hr').
  rewrite E. change (JS.or 0 1) with 1.
  apply IH; [exact Hr'|].
  assert (Hd : (0 - r') / 1 == - r') by (field).
  rewrite Hd, Hm. apply Q.max_r. subst r'. lra.
Qed.

(** X18: a run whose closed trades never win reports as maximum drawdown
    the total loss itself, an amount and not a ratio: [- total_pnl]. *)
Theorem only_losing_trades_drawdown (sqrt : Q -> Q) (ps : list Position)
    (candles : list Candle) :
  Forall (fun p => p_pnl p <= 0) (filter (fun p => isClosed p = true) ps) ->
  maxDrawdown (calculatePerformanceMetrics sqrt ps candles)
  == - totalPnl (calculatePerformanceMetrics sqrt ps candles).
Proof.
  intros H. unfold calculatePerformanceMetrics, calculateMaxDrawdown.
  cbn [maxDrawdown totalPnl].
  pose proof (drawdown_no_gain _ H 0 0 (Qle_refl 0) (Qeq_refl 0)) as Hd.
  destruct (fold_left drawdownStep _ (0, 0, 0)) as [[m pk] r]. exact Hd.
Qed.

Lemma only_losing_trades_drawdown_witness :
  maxDrawdown
    (calculatePerformanceMetrics sqrt6
       [closedWith 0 (- 200); closedWith 1 0; closedWith 2 (- 100)] [])
  == - totalPnl
         (calculatePerformanceMetrics sqrt6
            [closedWith 0 (- 200); closedWith 1 0; closedWith 2 (- 100)] []).
Proof.
  apply only_losing_trades_drawdown.
  repeat (constructor; [cbn; lra|]). constructor.
Defined.

Lemma sqrt6_zero (v : Q) : v == 0 -> sqrt6 v == 0.
Proof.
  intros H. unfold sqrt6.
  assert (Hn : Qnum v = 0%Z).
  { unfold Qeq in H. cbn in H. lia. }
  rewrite Hn. reflexivity.
Qed.

(** X19: a run with exactly one CLOSED position (of non-zero entry price
    and quantity) reports a Sharpe ratio of 0: the only return is its own
    mean, the variance is zero and the guard [returnStdDev > 0] fails (for
    a square root that sends zero to zero). *)
Theorem single_trade_sharpe_zero (sqrt : Q -> Q) (ps : list Position)
    (candles : list Candle) (p : Position) :
  (forall v, v == 0 -> sqrt v == 0) ->
  filter (fun p => isClosed p = true) ps = [p] ->
  ~ p_entry_price p * p_quantity p == 0 ->
  sharpeRatio (calculatePerformanceMetrics sqrt ps candles) = 0
  /\ totalTrades (calculatePerformanceMetrics sqrt ps candles) = 1%nat.
Proof.
  intros Hsqrt Hclosed Hnz. unfold calculatePerformanceMetrics.
  cbn [sharpeRatio totalTrades]. rewrite Hclosed.
  cbn [map length Nat.ltb Nat.leb fold_left].
  split; [|reflexivity].
  set (r := p_pnl p / (p_entry_price p * p_quantity p)).
  set (n := inject_Z (Z.of_nat 1)).
  assert (Hvar : (0 + (r - (0 + r) / n) ^ 2) / n == 0).
  { subst n. change (inject_Z (Z.of_nat 1)) with 1.
    assert (Hz : r - (0 + r) / 1 == 0) by (field).
    rewrite Hz. reflexivity. }
  assert (E : gtb (sqrt ((0 + (r - (0 + r) / n) ^ 2) / n)) 0 = false).
  { apply gtb_le. rewrite (Hsqrt _ Hvar). lra. }
  rewrite E. reflexivity.
Qed.

Lemma single_trade_sharpe_zero_witness :
  sharpeRatio
    (calculatePerformanceMetrics sqrt6
       [closedWith 0 200; mkPosition 1 "NIFTY" BUY 100 None 10 OPEN 0 0%Z None None] [])
  = 0
  /\ totalTrades
       (calculatePerformanceMetrics sqrt6
          [closedWith 0 200; mkPosition 1 "NIFTY" BUY 100 None 10 OPEN 0 0%Z None None] [])
     = 1%nat.
Proof.
  apply (single_trade_sharpe_zero sqrt6 _ [] (closedWith 0 200)).
  - exact sqrt6_zero.
  - reflexivity.
  - intros H. vm_compute in H. discriminate H.
Defined.

End MetricsMoreFacts.

(** ** Further facts about the classifier *)

Module ClassifierMoreFacts.
Import JS JSFacts HistoricalDataService Classifier.

Lemma direction_flat (pct threshold change : Q) :
  direction pct threshold change = FLAT <-> Qabs pct < threshold.
Proof.
  unfold direction. destruct (ltb (Qabs pct) threshold) eqn:E.
  - apply ltb_lt in E. tauto.
  - apply ltb_ge in E. split.
    + destruct (gtb change 0); discriminate.
    + intros H. lra.
Qed.

Lemma confidenceOf_small_price (pp op : Q) :
  Qabs pp < 1 # 10 -> confidenceOf pp op = LOW.
Proof.
  intros H. unfold confidenceOf.
  assert (E1 : gtb (Qabs pp) (5 # 10) = false) by (apply gtb_le; lra).
  assert (E2 : gtb (Qabs pp) (2 # 10) = false) by (apply gtb_le; lra).
  rewrite E1, E2. reflexivity.
Qed.

Lemma confidenceOf_small_oi (pp op : Q) :
  Qabs op < 1 -> confidenceOf pp op = LOW.
Proof.
  intros H. unfold confidenceOf.
  assert (E1 : gtb (Qabs op) 2 = false) by (apply gtb_le; lra).
  assert (E2 : gtb (Qabs op) 1 = false) by (apply gtb_le; lra).
  rewrite E1, E2, !andb_false_r. reflexivity.
Qed.

Lemma confidence_grade (previous current : Candle) :
  confidence (calculateOIInterpretation previous current)
  = confidenceOf (priceChangePercent previous current)
      (oiChangePercent previous current)
  /\ (confidence (calculateOIInterpretation previous current) <> LOW ->
      interpretation (calculateOIInterpretation previous current) <> INCONCLUSIVE).
Proof.
  unfold calculateOIInterpretation.
  set (pp := priceChangePercent previous current).
  set (op := oiChangePercent previous current).
  pose proof (direction_flat pp PRICE_THRESHOLD
                (c_close_price current - c_close_price previous)) as Hp.
  pose proof (direction_flat op OI_THRESHOLD
                (c_open_interest current - c_open_interest previous)) as Ho.
  unfold PRICE_THRESHOLD, OI_THRESHOLD in *.
  destruct (direction pp _ _), (direction op _ _);
    cbn [Direction_eqb andb confidence interpretation];
    try (split; [reflexivity | intros _; discriminate]);
    (split; [| intros H; exfalso; apply H; reflexivity]); symmetry;
    first [ apply confidenceOf_small_price; apply Hp; reflexivity
          | apply confidenceOf_small_oi; apply Ho; reflexivity ].
Qed.

(** The grades of [confidenceOf] by its thresholds. *)
Lemma confidenceOf_thresholds (x y : Q) :
  (confidenceOf x y = HIGH <-> 5 # 10 < Qabs x /\ 2 < Qabs y)
  /\ (confidenceOf x y = MEDIUM
      <-> ~ (5 # 10 < Qabs x /\ 2 < Qabs y) /\ 2 # 10 < Qabs x /\ 1 < Qabs y)
  /\ (confidenceOf x y = LOW <-> ~ (2 # 10 < Qabs x /\ 1 < Qabs y)).
Proof.
  unfold confidenceOf. set (ax := Qabs x). set (ay := Qabs y).
  destruct (gtb ax (5 # 10)) eqn:E1; destruct (gtb ay 2) eqn:E2;
    destruct (gtb ax (2 # 10)) eqn:E3; destruct (gtb ay 1) eqn:E4;
    cbn [andb];
    first [apply gtb_gt in E1 | apply gtb_le in E1];
    first [apply gtb_gt in E2 | apply gtb_le in E2];
    first [apply gtb_gt in E3 | apply gtb_le in E3];
    first [apply gtb_gt in E4 | apply gtb_le in E4];
    repeat match goal with
           | |- _ /\ _ => split
           | |- _ <-> _ => split
           | |- ~ _ => intros ?
           | |- _ -> _ => intros ?
           | H : _ /\ _ |- _ => destruct H
           end;
    try discriminate; try reflexivity; try lra;
    exfalso; match goal with H : ~ _ |- _ => apply H; split; lra end.
Qed.

(** X20: over a previous bar with positive close, the confidence is decided
    in every branch by the magnitudes of the two percentage moves
    [price_change / previous.close * 100] and
    [oi_change / previous.open_interest * 100] (0 without a positive
    previous open interest): HIGH exactly when [|price %| > 0.5] and
    [|OI %| > 2]; MEDIUM exactly when that fails and [|price %| > 0.2] and
    [|OI %| > 1]; LOW otherwise. The LOW hard-coded for INCONCLUSIVE
    agrees with these thresholds, so a confidence above LOW always comes
    with a definite interpretation. *)
Theorem confidence_by_magnitudes (previous current : Candle) :
  0 < c_close_price previous ->
  let a := calculateOIInterpretation previous current in
  let price_pct := Qabs (specPriceChangePct previous current) in
  let oi_pct := Qabs (specOiChangePct previous current) in
  (confidence a = HIGH <-> 5 # 10 < price_pct /\ 2 < oi_pct)
  /\ (confidence a = MEDIUM
      <-> ~ (5 # 10 < price_pct /\ 2 < oi_pct) /\ 2 # 10 < price_pct /\ 1 < oi_pct)
  /\ (confidence a = LOW <-> ~ (2 # 10 < price_pct /\ 1 < oi_pct))
  /\ (confidence a <> LOW -> interpretation a <> INCONCLUSIVE).
Proof.
  intros _ a price_pct oi_pct.
  destruct (confidence_grade previous current) as [Hc Hi].
  fold a in Hc, Hi.
  rewrite ClassifierFacts.priceChangePercent_spec,
    ClassifierFacts.oiChangePercent_spec in Hc.
  destruct (confidenceOf_thresholds (specPriceChangePct previous current)
              (specOiChangePct previous current)) as (Hh & Hm & Hl).
  rewrite Hc. split; [exact Hh|]. split; [exact Hm|]. split; [exact Hl|].
  rewrite <- Hc. exact Hi.
Qed.

Lemma confidence_by_magnitudes_witness :
  (let a := calculateOIInterpretation (candleAt 100 1000) (candleAt (1012 # 10) 1050) in
   confidence a = HIGH /\ interpretation a <> INCONCLUSIVE)
  /\ (let a := calculateOIInterpretation (candleAt 10000 1000) (candleAt 10030 1015) in
      confidence a = MEDIUM).
Proof.
  split.
  - destruct (confidence_by_magnitudes (candleAt 100 1000) (candleAt (1012 # 10) 1050))
      as (Hh & _ & _ & Hi); [reflexivity|].
    assert (Hc : confidence
                   (calculateOIInterpretation (candleAt 100 1000)
                      (candleAt (1012 # 10) 1050)) = HIGH)
      by (apply Hh; split; reflexivity).
    split; [exact Hc|]. apply Hi. rewrite Hc. discriminate.
  - destruct (confidence_by_magnitudes (candleAt 10000 1000) (candleAt 10030 1015))
      as (_ & Hm & _); [reflexivity|].
    apply Hm. split; [|split; reflexivity].
    intros [H _]. vm_compute in H. discriminate H.
Defined.

(** X21: over a previous bar whose open interest is zero (or negative) the
    OI move counts as 0 %: the OI direction is FLAT and the pair is
    INCONCLUSIVE with LOW confidence, whatever the price does. *)
Theorem no_open_interest_base_is_inconclusive (previous current : Candle) :
  c_open_interest previous <= 0 ->
  let a := calculateOIInterpretation previous current in
  oiDirection a = FLAT /\ interpretation a = INCONCLUSIVE /\ confidence a = LOW.
Proof.
  intros H a. subst a. unfold calculateOIInterpretation, oiChangePercent.
  assert (E : gtb (c_open_interest previous) 0 = false) by (apply gtb_le; exact H).
  rewrite E.
  assert (Hflat : direction 0 OI_THRESHOLD
                    (c_open_interest current - c_open_interest previous) = FLAT)
    by reflexivity.
  rewrite Hflat.
  destruct (direction (priceChangePercent previous current) _ _); cbn; auto.
Qed.

Lemma no_open_interest_base_witness :
  let a := calculateOIInterpretation (candleAt 100 0) (candleAt 105 5000) in
  oiDirection a = FLAT /\ interpretation a = INCONCLUSIVE /\ confidence a = LOW.
Proof.
  apply (no_open_interest_base_is_inconclusive (candleAt 100 0) (candleAt 105 5000)).
  cbn. lra.
Defined.

Lemma ltb_compat (a a' b b' : Q) : a == a' -> b == b' -> ltb a b = ltb a' b'.
Proof. intros Ha Hb. unfold ltb. rewrite Ha, Hb. reflexivity. Qed.

Lemma gtb_scale (k x : Q) : 0 < k -> gtb (k * x) 0 = gtb x 0.
Proof.
  intros Hk. destruct (gtb x 0) eqn:E.
  - apply gtb_gt in E. apply gtb_gt. nra.
  - apply gtb_le in E. apply gtb_le. nra.
Qed.

Lemma percent_rescale (k x y : Q) :
  0 < k -> (k * y - k * x) / (k * x) * 100 == (y - x) / x * 100.
Proof.
  intros Hk. destruct (Qeq_dec x 0) as [Hx | Hx].
  - assert (Hkx : k * x == 0) by (rewrite Hx; ring).
    unfold Qdiv. rewrite Hkx, Hx. change (/ 0) with 0. ring.
  - field. split; [exact Hx | lra].
Qed.

Lemma direction_compat (pct pct' t change change' : Q) :
  pct == pct' -> gtb change 0 = gtb change' 0 ->
  direction pct t change = direction pct' t change'.
Proof.
  intros Hp Hc. unfold direction.
  rewrite (ltb_compat (Qabs pct) (Qabs pct') t t); [|rewrite Hp; reflexivity | reflexivity].
  rewrite Hc. reflexivity.
Qed.

Lemma confidenceOf_compat (pp pp' op op' : Q) :
  pp == pp' -> op == op' -> confidenceOf pp op = confidenceOf pp' op'.
Proof.
  intros Hp Ho. unfold confidenceOf, gtb.
  rewrite (ltb_compat (5 # 10) (5 # 10) (Qabs pp) (Qabs pp'));
    [|reflexivity | rewrite Hp; reflexivity].
  rewrite (ltb_compat (2 # 10) (2 # 10) (Qabs pp) (Qabs pp'));
    [|reflexivity | rewrite Hp; reflexivity].
  rewrite (ltb_compat 2 2 (Qabs op) (Qabs op'));
    [|reflexivity | rewrite Ho; reflexivity].
  rewrite (ltb_compat 1 1 (Qabs op) (Qabs op'));
    [|reflexivity | rewrite Ho; reflexivity].
  reflexivity.
Qed.

(** X22: the classification does not depend on the units: multiplying all
    prices of both bars by [k > 0] and both open interests by [m > 0]
    leaves directions, interpretation and confidence as they are, and
    scales the reported changes by [k] and [m]. *)
Theorem classification_is_scale_invariant (k m : Q) (previous current : Candle) :
  0 < k -> 0 < m ->
  let a := calculateOIInterpretation previous current in
  let a' := calculateOIInterpretation (rescale k m previous) (rescale k m current) in
  priceDirection a' = priceDirection a
  /\ oiDirection a' = oiDirection a
  /\ interpretation a' = interpretation a
  /\ confidence a' = confidence a
  /\ priceChange a' == k * priceChange a
  /\ oiChange a' == m * oiChange a.
Proof.
  intros Hk Hm a a'.
  assert (Hpp : priceChangePercent (rescale k m previous) (rescale k m current)
                == priceChangePercent previous current).
  { unfold priceChangePercent. cbn [rescale c_close_price]. apply percent_rescale. exact Hk. }
  assert (Hop : oiChangePercent (rescale k m previous) (rescale k m current)
                == oiChangePercent previous current).
  { unfold oiChangePercent. cbn [rescale c_open_interest].
    rewrite (gtb_scale m _ Hm).
    destruct (gtb (c_open_interest previous) 0); [|reflexivity].
    apply percent_rescale. exact Hm. }
  assert (Hpd : priceDirection a' = priceDirection a).
  { subst a a'. unfold calculateOIInterpretation.
    do 2 destruct (if Direction_eqb _ _ && _ then _ else _). cbn [priceDirection].
    apply direction_compat; [exact Hpp|].
    cbn [rescale c_close_price].
    rewrite <- (gtb_scale k (c_close_price current - c_close_price previous) Hk).
    unfold gtb. apply ltb_compat; [reflexivity | ring]. }
  assert (Hod : oiDirection a' = oiDirection a).
  { subst a a'. unfold calculateOIInterpretation.
    do 2 destruct (if Direction_eqb _ _ && _ then _ else _). cbn [oiDirection].
    apply direction_compat; [exact Hop|].
    cbn [rescale c_open_interest].
    rewrite <- (gtb_scale m (c_open_interest current - c_open_interest previous) Hm).
    unfold gtb. apply ltb_compat; [reflexivity | ring]. }
  split; [exact Hpd|]. split; [exact Hod|]. split; [|split; [|split]].
  - subst a a'. rewrite !ClassifierFacts.interpretation_table.
    rewrite Hpd, Hod. reflexivity.
  - subst a a'.
    rewrite (proj1 (confidence_grade _ _)), (proj1 (confidence_grade _ _)).
    apply confidenceOf_compat; assumption.
  - subst a a'. unfold calculateOIInterpretation.
    do 2 destruct (if Direction_eqb _ _ && _ then _ else _).
    cbn [priceChange rescale c_close_price]. ring.
  - subst a a'. unfold calculateOIInterpretation.
    do 2 destruct (if Direction_eqb _ _ && _ then _ else _).
    cbn [oiChange rescale c_open_interest]. ring.
Qed.

Lemma classification_is_scale_invariant_witness :
  let a := calculateOIInterpretation (candleAt 100 1000) (candleAt (1012 # 10) 1050) in
  let a' := calculateOIInterpretation
              (rescale 75 (1 # 50) (candleAt 100 1000))
              (rescale 75 (1 # 50) (candleAt (1012 # 10) 1050)) in
  priceDirection a' = priceDirection a
  /\ oiDirection a' = oiDirection a
  /\ interpretation a' = interpretation a
  /\ confidence a' = confidence a
  /\ priceChange a' == 75 * priceChange a
  /\ oiChange a' == (1 # 50) * oiChange a.
Proof.
  apply (classification_is_scale_invariant 75 (1 # 50)); reflexivity.
Defined.

End ClassifierMoreFacts.

(** ** Validation of submitted bars *)

Module ValidationFacts.
Import JS JSFacts HistoricalDataService Classifier.

Lemma leb_false_lt (a b : Q) : leb a b = false <-> b < a.
Proof.
  split; intros H.
  - destruct (Qlt_le_dec b a) as [Hlt|Hle]; [exact Hlt|].
    apply leb_le in Hle. congruence.
  - destruct (leb a b) eqn:E; [|reflexivity]. apply leb_le in E. lra.
Qed.

Lemma validateCandle_ok (i : nat) (candle : CandleData) :
  validateCandle i candle = inr tt <-> wellFormedBar candle.
Proof.
  unfold validateCandle, wellFormedBar. split.
  - destruct (isInteger (d_epochTime candle)); cbn [negb orb]; [|discriminate].
    destruct (leb (d_epochTime candle) 0) eqn:E1; [discriminate|].
    destruct (leb (d_open candle) 0) eqn:E2; [discriminate|].
    destruct (leb (d_high candle) 0) eqn:E3; [discriminate|].
    destruct (leb (d_low candle) 0) eqn:E4; [discriminate|].
    destruct (leb (d_close candle) 0) eqn:E5; [discriminate|].
    destruct (ltb (d_high candle) _) eqn:E6; [discriminate|].
    destruct (gtb (d_low candle) _) eqn:E7; [discriminate|]. cbn [orb].
    destruct (ltb (d_high candle) (d_low candle)) eqn:E8; [discriminate|].
    destruct (ltb (d_volume candle) 0) eqn:E9; [discriminate|].
    destruct (ltb (d_oi candle) 0) eqn:E10; [discriminate|].
    intros _.
    apply leb_false_lt in E1, E2, E3, E4, E5.
    apply ltb_ge in E6, E9, E10. apply gtb_le in E7.
    auto 12.
  - intros (Hint & H1 & H2 & H3 & H4 & H5 & H6 & H7 & H8 & H9).
    rewrite Hint. cbn [negb orb].
    apply leb_false_lt in H1, H2, H3, H4, H5. rewrite H1, H2, H3, H4, H5.
    assert (E6 : ltb (d_high candle) (Qmax (d_open candle) (d_close candle)) = false)
      by (apply ltb_ge; exact H6).
    assert (E7 : gtb (d_low candle) (Qmin (d_open candle) (d_close candle)) = false)
      by (apply gtb_le; exact H7).
    rewrite E6, E7. cbn [orb].
    assert (E8 : ltb (d_high candle) (d_low candle) = false).
    { apply ltb_ge.
      pose proof (Q.le_min_l (d_open candle) (d_close candle)).
      pose proof (Q.le_max_l (d_open candle) (d_close candle)). lra. }
    assert (E9 : ltb (d_volume candle) 0 = false) by (apply ltb_ge; exact H8).
    assert (E10 : ltb (d_oi candle) 0 = false) by (apply ltb_ge; exact H9).
    rewrite E8, E9, E10. reflexivity.
Qed.

Lemma validateCandlesFrom_ok (candles : list CandleData) :
  forall i, validateCandlesFrom i candles = inr tt <-> Forall wellFormedBar candles.
Proof.
  induction candles as [|c rest IH]; intros i; cbn [validateCandlesFrom].
  - split; [constructor | reflexivity].
  - rewrite Forall_cons, <- (IH (S i)), <- (validateCandle_ok i c).
    destruct (validateCandle i c) as [e|[]]; split.
    + discriminate.
    + intros [H _]. discriminate.
    + intros H. split; [reflexivity | exact H].
    + intros [_ H]. exact H.
Qed.

(** X23: a batch of bars is accepted exactly when it holds between 1 and
    50000 bars and every bar is well formed (positive integer timestamp,
    positive prices, high at or above and low at or below both open and
    close, non-negative volume and open interest). *)
Theorem validateCandles_accepts_well_formed (candles : list CandleData) :
  validateCandles candles = inr tt
  <-> (0 < Z.of_nat (length candles) <= 50000)%Z /\ Forall wellFormedBar candles.
Proof.
  unfold validateCandles.
  destruct (Z.of_nat (length candles) =? 0)%Z eqn:E0.
  - apply Z.eqb_eq in E0. split; [discriminate | intros [H _]; lia].
  - apply Z.eqb_neq in E0.
    destruct (50000 <? Z.of_nat (length candles))%Z eqn:E1.
    + apply Z.ltb_lt in E1. split; [discriminate | intros [H _]; lia].
    + apply Z.ltb_ge in E1. rewrite validateCandlesFrom_ok.
      split; [intros H; split; [lia | exact H] | intros [_ H]; exact H].
Qed.

Lemma validateCandles_accepts_witness :
  validateCandles [sampleBar; sampleBar] = inr tt.
Proof.
  apply validateCandles_accepts_well_formed. split; [cbn; lia|].
  repeat constructor; vm_compute; congruence.
Defined.

Lemma validateCandle_never_high_below_low (j i : nat) (candle : CandleData) :
  validateCandle j candle
  <> inl (ValidationError
            ("High price cannot be less than low price at index " +:+ pretty i)).
Proof.
  unfold validateCandle.
  destruct (negb _ || _); [intros H; cbn in H; discriminate H|].
  destruct (leb (d_open candle) 0); [intros H; cbn in H; discriminate H|].
  destruct (leb (d_high candle) 0); [intros H; cbn in H; discriminate H|].
  destruct (leb (d_low candle) 0); [intros H; cbn in H; discriminate H|].
  destruct (leb (d_close candle) 0); [intros H; cbn in H; discriminate H|].
  destruct (ltb (d_high candle) _) eqn:E6; [intros H; cbn in H; discriminate H|].
  destruct (gtb (d_low candle) _) eqn:E7; [intros H; cbn in H; discriminate H|].
  cbn [orb].
  destruct (ltb (d_high candle) (d_low candle)) eqn:E8.
  - exfalso. apply ltb_ge in E6. apply gtb_le in E7. apply ltb_lt in E8.
    pose proof (Q.le_min_l (d_open candle) (d_close candle)).
    pose proof (Q.le_max_l (d_open candle) (d_close candle)). lra.
  - destruct (ltb (d_volume candle) 0); [intros H; cbn in H; discriminate H|].
    destruct (ltb (d_oi candle) 0); [intros H; cbn in H; discriminate H|].
    discriminate.
Qed.

(** X24: the check "high below low" can never fire: whatever batch of
    (finite) numbers is submitted, validation never answers "High price
    cannot be less than low price", because a bar that passes the OHLC check
    before it already has its high at or above its low. *)
Theorem high_below_low_error_unreachable (candles : list CandleData) (i : nat) :
  validateCandles candles
  <> inl (ValidationError
            ("High price cannot be less than low price at index " +:+ pretty i)).
Proof.
  unfold validateCandles.
  destruct (_ =? 0)%Z; [intros H; cbn in H; discriminate H|].
  destruct (50000 <? _)%Z; [intros H; cbn in H; discriminate H|].
  generalize 0%nat. induction candles as [|c rest IH]; intros j; cbn [validateCandlesFrom].
  - discriminate.
  - destruct (validateCandle j c) as [e|[]] eqn:E; [|apply IH].
    rewrite <- E. apply validateCandle_never_high_below_low.
Qed.

End ValidationFacts.

(** ** The batched open-interest analysis *)

Module BatchFacts.
Import JS JSFacts StrategyService HistoricalDataService Classifier.

Lemma insertSorted_perm {A} (key : A -> Z) (x : A) (l : list A) :
  insertSorted key x l ≡ₚ x :: l.
Proof.
  induction l as [|y l IH]; cbn [insertSorted]; [reflexivity|].
  destruct (key x <=? key y)%Z; [reflexivity|].
  rewrite IH. apply Permutation_swap.
Qed.

Lemma sortBy_perm {A} (key : A -> Z) (l : list A) : sortBy key l ≡ₚ l.
Proof.
  induction l as [|x l IH]; [reflexivity|].
  unfold sortBy in *. cbn [foldr]. rewrite insertSorted_perm, IH. reflexivity.
Qed.

Lemma insertSorted_sorted {A} (key : A -> Z) (x : A) (l : list A) :
  Sorted (fun a b => (key a <= key b)%Z) l ->
  Sorted (fun a b => (key a <= key b)%Z) (insertSorted key x l).
Proof.
  induction 1 as [|y l Hs IH Hhd]; cbn [insertSorted].
  - repeat constructor.
  - destruct (key x <=? key y)%Z eqn:E.
    + apply Z.leb_le in E. repeat constructor; assumption.
    + apply Z.leb_gt in E. constructor; [exact IH|].
      destruct l as [|z l]; cbn [insertSorted].
      * constructor. lia.
      * inversion Hhd; subst. destruct (key x <=? key z)%Z; constructor; lia.
Qed.

Lemma sortBy_sorted {A} (key : A -> Z) (l : list A) :
  Sorted (fun a b => (key a <= key b)%Z) (sortBy key l).
Proof.
  induction l as [|x l IH]; [constructor|].
  unfold sortBy in *. cbn [foldr]. apply insertSorted_sorted. exact IH.
Qed.

Lemma findIndex_unique (l : list Candle) :
  NoDup (map c_id l) ->
  forall k c,
    l !! k = Some c ->
    findIndex (fun x => (c_id x =? c_id c)%nat) l = Some k.
Proof.
  induction l as [|x l IH]; intros Hnd k c Hk; [discriminate|].
  cbn [map] in Hnd. apply NoDup_cons in Hnd as [Hx Hnd].
  cbn [findIndex]. destruct k as [|k]; cbn in Hk.
  - injection Hk as ->. rewrite Nat.eqb_refl. reflexivity.
  - destruct (c_id x =? c_id c)%nat eqn:E.
    + exfalso. apply Nat.eqb_eq in E. apply Hx. rewrite E.
      apply list_elem_of_fmap. exists c. split; [reflexivity|].
      eapply list_elem_of_lookup_2. exact Hk.
    + rewrite (IH Hnd k c Hk). reflexivity.
Qed.

Lemma pairUpdates_lookup (sorted : list Candle) (i : nat) (previous current : Candle) :
  sorted !! i = Some previous ->
  sorted !! S i = Some current ->
  pairUpdates sorted !! i
  = Some (mkOIUpdate (c_id current)
            (interpretation (calculateOIInterpretation previous current))).
Proof.
  intros Hp Hc. unfold pairUpdates.
  rewrite lookup_zip_with, Hp. cbn. rewrite lookup_drop. cbn [Nat.add].
  rewrite Hc. reflexivity.
Qed.

Lemma pairUpdates_length (sorted : list Candle) :
  length (pairUpdates sorted) = (length sorted - 1)%nat.
Proof. unfold pairUpdates. rewrite length_zip_with, length_drop. lia. Qed.

(** The inner loop over bars that sit at consecutive places of the series. *)
Lemma batchUpdates_run (sorted : list Candle) :
  NoDup (map c_id sorted) ->
  forall (batch : list Candle) (i : nat),
    (forall j c, batch !! j = Some c -> sorted !! (S i + j)%nat = Some c) ->
    batchUpdates sorted batch
    = inr (take (length batch) (drop i (pairUpdates sorted))).
Proof.
  intros Hnd. induction batch as [|c rest IH]; intros i Hb; [reflexivity|].
  cbn [batchUpdates length].
  assert (Hc : sorted !! S i = Some c).
  { specialize (Hb 0%nat c eq_refl). rewrite Nat.add_0_r in Hb. exact Hb. }
  rewrite (findIndex_unique sorted Hnd (S i) c Hc).
  destruct (lookup_lt_is_Some_2 sorted i) as [previous Hp].
  { apply lookup_lt_Some in Hc. lia. }
  rewrite Hp. rewrite (IH (S i)).
  - rewrite (drop_S _ _ _ (pairUpdates_lookup sorted i previous c Hp Hc)).
    reflexivity.
  - intros j c' Hj. specialize (Hb (S j) c' Hj).
    replace (S (S i) + j)%nat with (S i + S j)%nat by lia. exact Hb.
Qed.

Lemma slice_length {A} (xs : list A) (start stop : nat) :
  length (slice xs start stop) = Nat.min (stop - start) (length xs - start).
Proof. unfold slice. rewrite length_take, length_drop. reflexivity. Qed.

(** When every write succeeds, all the batches are written. *)
Lemma writeAll_ok (query : list (list OIUpdate) -> list OIUpdate -> Error + unit)
    (todo : list (list OIUpdate)) :
  forall done,
    (forall k batch, todo !! k = Some batch -> query (done ++ take k todo) batch = inr tt) ->
    writeAll query done todo = inr (done ++ todo).
Proof.
  induction todo as [|b rest IH]; intros done H; cbn [writeAll].
  - rewrite app_nil_r. reflexivity.
  - pose proof (H 0%nat b eq_refl) as H0. cbn [take] in H0. rewrite app_nil_r in H0.
    rewrite H0, IH.
    + rewrite <- app_assoc. reflexivity.
    + intros k batch Hk. rewrite <- app_assoc. cbn [app]. apply (H (S k) batch Hk).
Qed.

(** The outer loop from place [S i] on: with a positive batch size and
    enough fuel it ends. The remaining updates are cut, in order, into
    non-empty batches of [batchSize] (the last one may be shorter), which
    are written one after the other until a write fails. *)
Lemma batchLoop_run (query : list (list OIUpdate) -> list OIUpdate -> Error + unit)
    (sorted : list Candle) (batchSize : nat) :
  NoDup (map c_id sorted) ->
  (0 < batchSize)%nat ->
  forall (fuel i : nat),
    (length sorted - S i < fuel)%nat ->
    exists chunks,
      concat chunks = drop i (pairUpdates sorted)
      /\ (forall k chunk,
            chunks !! k = Some chunk ->
            chunk = take batchSize (drop (i + k * batchSize) (pairUpdates sorted))
            /\ chunk <> [])
      /\ forall (calls : list (list OIUpdate)) (count : nat),
           batchLoop query fuel sorted batchSize (S i) calls count
           = Some (match writeAll query calls chunks with
                   | inl e => inl e
                   | inr written =>
                       inr (written,
                            (count + length (drop i (pairUpdates sorted)))%nat)
                   end).
Proof.
  intros Hnd Hb. induction fuel as [|fuel IH]; intros i Hfuel; [lia|].
  destruct (S i <? length sorted)%nat eqn:Eb.
  - pose proof Eb as E. apply Nat.ltb_lt in E.
    set (u := take batchSize (drop i (pairUpdates sorted))).
    assert (Hbatch : batchUpdates sorted (slice sorted (S i) (S i + batchSize)) = inr u).
    { rewrite (batchUpdates_run sorted Hnd _ i).
      2:{ intros j c Hj. apply SMAFacts.slice_lookup in Hj as [Hj _]. exact Hj. }
      rewrite slice_length. subst u.
      replace (S i + batchSize - S i)%nat with batchSize by lia.
      destruct (Nat.le_ge_cases batchSize (length sorted - S i)) as [Hle | Hge].
      - rewrite Nat.min_l by exact Hle. reflexivity.
      - rewrite Nat.min_r by exact Hge.
        rewrite !take_ge; [reflexivity | |];
          rewrite length_drop, pairUpdates_length; lia. }
    assert (Hlen : (0 < length u <= batchSize)%nat).
    { subst u. rewrite length_take, length_drop, pairUpdates_length. lia. }
    destruct (IH (i + batchSize)%nat) as (chunks & Hcat & Hchunks & Hrun); [lia|].
    exists (u :: chunks). split; [|split].
    + cbn [concat]. rewrite Hcat. subst u.
      rewrite <- (drop_drop (pairUpdates sorted) batchSize i). apply take_drop.
    + intros k chunk Hk. destruct k as [|k]; cbn in Hk.
      * injection Hk as <-. rewrite Nat.add_0_r. split; [reflexivity|].
        intros Hnil. rewrite Hnil in Hlen. cbn in Hlen. lia.
      * destruct (Hchunks k chunk Hk) as [Hc Hne]. split; [|exact Hne].
        rewrite Hc. do 2 f_equal. cbn [Nat.mul]. lia.
    + intros calls count. cbn [batchLoop]. rewrite Eb. cbn [negb].
      rewrite Hbatch.
      assert (Hpos : (0 <? length u)%nat = true) by (apply Nat.ltb_lt; lia).
      rewrite Hpos. unfold updateOIInterpretations.
      assert (Hnz : (length u =? 0)%nat = false) by (apply Nat.eqb_neq; lia).
      rewrite Hnz. cbn [writeAll].
      destruct (query calls u) as [e|[]]; [reflexivity|].
      replace (S i + batchSize)%nat with (S (i + batchSize)) by lia.
      rewrite Hrun.
      destruct (writeAll query (calls ++ [u]) chunks) as [e|written]; [reflexivity|].
      do 3 f_equal. subst u. rewrite length_take, !length_drop. lia.
  - pose proof Eb as E. apply Nat.ltb_ge in E. exists [].
    assert (Hd : drop i (pairUpdates sorted) = []).
    { apply drop_ge. rewrite pairUpdates_length. lia. }
    split; [rewrite Hd; reflexivity|]. split; [intros k chunk Hk; discriminate Hk|].
    intros calls count. cbn [batchLoop]; rewrite Eb; cbn [negb writeAll];
      rewrite Hd; cbn [length]; rewrite Nat.add_0_r; reflexivity.
Qed.

(** X25: batching is a performance device only. For a valid instrument
    and timeframe, at least two rows with distinct ids and positive closes,
    a positive batch size and enough fuel, the analysis ends, whatever the
    database answers to the writes. What it hands to [updateOIInterpretations] is the
    classification of every bar of the time-sorted series against the bar
    just before it, cut in order into non-empty batches of [batchSize]
    updates; the batches are written one after the other and the first
    write that fails ends the analysis with its error (so a database that
    rejects the first batch makes the whole analysis fail); when every
    write succeeds it reports [updated = n - 1] and [total = n]. *)
Theorem analysis_batches_pair_updates
    (query : list (list OIUpdate) -> list OIUpdate -> Error + unit) (fuel : nat)
    (instrument timeframe : string) (candles : list Candle) (batchSize : nat) :
  validateInstrument instrument = inr tt ->
  validateTimeframe timeframe = inr tt ->
  NoDup (map c_id candles) ->
  Forall (fun c => 0 < c_close_price c) candles ->
  (2 <= length candles)%nat ->
  (0 < batchSize)%nat ->
  (length candles <= fuel)%nat ->
  let sorted := sortBy c_epoch_time candles in
  let run :=
    analyzeAndUpdateOIInterpretations query fuel instrument timeframe candles batchSize in
  sorted ≡ₚ candles
  /\ Sorted (fun a b => (c_epoch_time a <= c_epoch_time b)%Z) sorted
  /\ exists batches,
       concat batches = pairUpdates sorted
       /\ (forall k batch,
             batches !! k = Some batch ->
             batch = take batchSize (drop (k * batchSize) (pairUpdates sorted))
             /\ batch <> [])
       /\ run = Some (match writeAll query [] batches with
                      | inl e => inl e
                      | inr written =>
                          inr (written, ((length candles - 1)%nat, length candles))
                      end)
       /\ ((forall k batch,
              batches !! k = Some batch -> query (take k batches) batch = inr tt) ->
           run = Some (inr (batches, ((length candles - 1)%nat, length candles))))
       /\ (forall e,
              query [] (take batchSize (pairUpdates sorted)) = inl e ->
              run = Some (inl e)).
Proof.
  intros Hi Ht Hnd _ Hn Hb Hfuel sorted run.
  assert (Hperm : sorted ≡ₚ candles) by apply sortBy_perm.
  assert (Hlen : length sorted = length candles) by (rewrite Hperm; reflexivity).
  assert (Hnd' : NoDup (map c_id sorted)) by (rewrite Hperm; exact Hnd).
  split; [exact Hperm|]. split; [apply sortBy_sorted|].
  destruct (batchLoop_run query sorted batchSize Hnd' Hb fuel 0)
    as (batches & Hcat & Hchunks & Hloop); [lia|].
  rewrite drop_0 in Hcat.
  assert (Hrun : run = Some (match writeAll query [] batches with
                             | inl e => inl e
                             | inr written =>
                                 inr (written,
                                      ((length candles - 1)%nat, length candles))
                             end)).
  { subst run. unfold analyzeAndUpdateOIInterpretations. rewrite Hi, Ht.
    assert (E : (length candles <? 2)%nat = false) by (apply Nat.ltb_ge; exact Hn).
    rewrite E. fold sorted. rewrite (Hloop [] 0%nat).
    destruct (writeAll query [] batches) as [e|written]; [reflexivity|].
    rewrite drop_0, pairUpdates_length, Hlen. reflexivity. }
  exists batches. split; [exact Hcat|]. split; [exact Hchunks|].
  split; [exact Hrun|]. split.
  - intros Hok. rewrite Hrun, (writeAll_ok query batches []); [reflexivity|].
    intros k batch Hk. cbn [app]. apply Hok. exact Hk.
  - intros e He. rewrite Hrun.
    destruct batches as [|b0 rest].
    + exfalso. cbn in Hcat.
      assert (Hz : length (pairUpdates sorted) = 0%nat) by (rewrite <- Hcat; reflexivity).
      rewrite pairUpdates_length in Hz. lia.
    + destruct (Hchunks 0%nat b0 eq_refl) as [Hb0 _]. cbn [Nat.mul] in Hb0.
      rewrite drop_0 in Hb0. cbn [writeAll]. rewrite Hb0, He. reflexivity.
Qed.

Lemma analysis_batches_pair_updates_witness :
  analyzeAndUpdateOIInterpretations rejectingDatabase 3 "NIFTY" "1m" threeBars 1000
  = Some (inl (GenericError
                 "column oi_interpretation is of type oi_interpretation but expression is of type text"))
  /\ analyzeAndUpdateOIInterpretations acceptingDatabase 3 "NIFTY" "1m" threeBars 1
     = Some (inr ([ [mkOIUpdate 12 LONG_BUILDUP]; [mkOIUpdate 13 LONG_BUILDUP] ],
                  (2%nat, 3%nat))).
Proof.
  split.
  - destruct (analysis_batches_pair_updates rejectingDatabase 3 "NIFTY" "1m" threeBars 1000)
      as (_ & _ & batches & _ & _ & _ & _ & Hfail);
      [reflexivity | reflexivity | compute_done
      | repeat (constructor; [reflexivity|]); constructor
      | cbn; lia | lia | cbn; lia |].
    apply Hfail. reflexivity.
  - destruct (analysis_batches_pair_updates acceptingDatabase 3 "NIFTY" "1m" threeBars 1)
      as (_ & _ & batches & Hcat & Hchunks & Hrun & _);
      [reflexivity | reflexivity | compute_done
      | repeat (constructor; [reflexivity|]); constructor
      | cbn; lia | lia | cbn; lia |].
    rewrite Hrun. vm_compute in Hcat.
    destruct batches as [|b0 [|b1 [|b2 rest]]].
    + discriminate Hcat.
    + destruct (Hchunks 0%nat b0 eq_refl) as [H0 _]. vm_compute in H0. subst b0.
      discriminate Hcat.
    + destruct (Hchunks 0%nat b0 eq_refl) as [H0 _]. vm_compute in H0.
      destruct (Hchunks 1%nat b1 eq_refl) as [H1 _]. vm_compute in H1.
      subst b0 b1. reflexivity.
    + destruct (Hchunks 2%nat b2 eq_refl) as [H2 Hne]. vm_compute in H2.
      contradiction.
Defined.

Lemma batchLoop_zero_batch
    (query : list (list OIUpdate) -> list OIUpdate -> Error + unit)
    (sorted : list Candle) (calls : list (list OIUpdate)) (count : nat) :
  (2 <= length sorted)%nat ->
  forall fuel, batchLoop query fuel sorted 0 1 calls count = None.
Proof.
  intros Hn. induction fuel as [|fuel IH]; cbn [batchLoop].
  - assert (E : (1 <? length sorted)%nat = true) by (apply Nat.ltb_lt; lia).
    rewrite E. reflexivity.
  - assert (E : (1 <? length sorted)%nat = true) by (apply Nat.ltb_lt; lia).
    rewrite E. cbn [negb]. unfold slice.
    replace (1 + 0 - 1)%nat with 0%nat by lia. rewrite take_0.
    cbn [batchUpdates length Nat.ltb Nat.leb]. rewrite Nat.add_0_r. exact IH.
Qed.

(** X26: the edges of the analysis, whatever the database would answer to
    a write. With fewer than two rows it writes nothing and reports
    [updated = 0] for any batch size; with two rows or more and a batch
    size of 0 the loop index never advances: no amount of fuel lets it
    finish. *)
Theorem analysis_edge_cases
    (query : list (list OIUpdate) -> list OIUpdate -> Error + unit)
    (instrument timeframe : string) (candles : list Candle) :
  validateInstrument instrument = inr tt ->
  validateTimeframe timeframe = inr tt ->
  ((length candles < 2)%nat ->
   forall fuel batchSize,
     analyzeAndUpdateOIInterpretations query fuel instrument timeframe candles batchSize
     = Some (inr ([], (0%nat, length candles))))
  /\ ((2 <= length candles)%nat ->
      forall fuel,
        analyzeAndUpdateOIInterpretations query fuel instrument timeframe candles 0
        = None).
Proof.
  intros Hi Ht. unfold analyzeAndUpdateOIInterpretations. rewrite Hi, Ht. split.
  - intros Hn fuel batchSize.
    assert (E : (length candles <? 2)%nat = true) by (apply Nat.ltb_lt; exact Hn).
    rewrite E. reflexivity.
  - intros Hn fuel.
    assert (E : (length candles <? 2)%nat = false) by (apply Nat.ltb_ge; exact Hn).
    rewrite E. rewrite batchLoop_zero_batch; [reflexivity|].
    rewrite (sortBy_perm c_epoch_time candles). exact Hn.
Qed.

Lemma analysis_edge_cases_witness :
  (forall fuel batchSize,
      analyzeAndUpdateOIInterpretations rejectingDatabase fuel "NIFTY" "1m"
        (take 1 threeBars) batchSize
      = Some (inr ([], (0%nat, 1%nat))))
  /\ (forall fuel,
        analyzeAndUpdateOIInterpretations rejectingDatabase fuel "NIFTY" "1m"
          threeBars 0 = None).
Proof.
  destruct (analysis_edge_cases rejectingDatabase "NIFTY" "1m" (take 1 threeBars)
              eq_refl eq_refl) as [Hfew _].
  destruct (analysis_edge_cases rejectingDatabase "NIFTY" "1m" threeBars eq_refl eq_refl)
    as [_ Hzero].
  split.
  - apply Hfew. cbn. lia.
  - apply Hzero. cbn. lia.
Defined.

End BatchFacts.

(** ** Marking positions and holdings to market *)

Module MarkFacts.
Import JS JSFacts PaperTradingService Ledger LedgerMore LedgerFacts.

(** The re-pricing loop over OPEN rows with distinct ids that are stored
    as listed. *)
Lemma reprice_loop (price : Q) (targets : list Position) :
  NoDup (map p_id targets) ->
  forall db : Db,
    (forall p, p ∈ targets -> positions db !! p_id p = Some p /\ p_status p = OPEN) ->
    exists db',
      forEachPosition targets
        (fun position => PositionRepository.updatePositionPnl (p_id position) price) db
      = (inr tt, db')
      /\ orders db' = orders db
      /\ holdings db' = holdings db
      /\ next_id db' = next_id db
      /\ (forall p, p ∈ targets -> positions db' !! p_id p = Some (repriced p price))
      /\ (forall id, id ∉ map p_id targets -> positions db' !! id = positions db !! id).
Proof.
  induction targets as [|p rest IH]; intros Hnd db Hrows.
  - exists db. cbn. repeat split; auto. intros p Hp. apply elem_of_nil in Hp. contradiction.
  - cbn [map] in Hnd. apply NoDup_cons in Hnd as [Hp Hnd].
    destruct (Hrows p) as [Hrow Hopen]; [left|].
    pose proof (PositionFacts.updatePositionPnl_open db (p_id p) p price Hrow Hopen) as Hrun.
    cbv zeta in Hrun. fold (repriced p price) in Hrun.
    set (db1 := set_positions (insert (p_id p) (repriced p price)) db) in *.
    destruct (IH Hnd db1) as (db' & Hloop & Ho & Hh & Hn & Hin & Hout).
    { intros q Hq. destruct (Hrows q) as [Hq1 Hq2]; [right; exact Hq|].
      split; [|exact Hq2]. subst db1. cbn [positions set_positions].
      rewrite lookup_insert_ne; [exact Hq1|].
      intros E. apply Hp. rewrite E. apply list_elem_of_fmap. eauto. }
    exists db'. cbn [forEachPosition]. unfold bind. rewrite Hrun.
    split; [exact Hloop|]. split; [exact Ho|]. split; [exact Hh|]. split; [exact Hn|].
    split.
    + intros q Hq. apply elem_of_cons in Hq as [-> | Hq]; [|apply Hin; exact Hq].
      rewrite (Hout (p_id p) Hp). subst db1. cbn [positions set_positions].
      apply lookup_insert_eq.
    + intros id Hid. cbn [map] in Hid. apply not_elem_of_cons in Hid as [Hne Hid].
      rewrite (Hout id Hid). subst db1. cbn [positions set_positions].
      apply lookup_insert_ne. congruence.
Qed.

Lemma filter_sublist {A} (f : A -> bool) (l : list A) : List.filter f l `sublist_of` l.
Proof.
  induction l as [|x l IH]; cbn [List.filter]; [constructor|].
  destruct (f x); [apply sublist_skip | apply sublist_cons]; exact IH.
Qed.

Lemma markedRows_facts (rowOrder : gmap nat Position -> list Position)
    (instrument : string) (db : Db) :
  enumerates rowOrder ->
  keyedById db ->
  NoDup (map p_id (markedRows rowOrder instrument db))
  /\ (forall p, p ∈ markedRows rowOrder instrument db ->
        positions db !! p_id p = Some p
        /\ p_status p = OPEN
        /\ (instrument = "" \/ p_instrument p = instrument)).
Proof.
  intros Henum Hkey.
  assert (Hsub : markedRows rowOrder instrument db `sublist_of` rowOrder (positions db)).
  { unfold markedRows. etransitivity; [apply sublist_take | apply filter_sublist]. }
  assert (Hmem : forall p, p ∈ rowOrder (positions db) -> positions db !! p_id p = Some p).
  { intros p Hp. rewrite (Henum (positions db)) in Hp.
    apply list_elem_of_fmap in Hp as ([id q] & -> & Hq). cbn [snd].
    apply elem_of_map_to_list in Hq. rewrite (Hkey id q Hq). exact Hq. }
  split.
  - eapply sublist_NoDup; [|apply fmap_sublist; exact Hsub].
    rewrite (Henum (positions db)).
    assert (E : p_id <$> (map_to_list (positions db)).*2 = (map_to_list (positions db)).*1).
    { rewrite <- list_fmap_compose. apply list_fmap_ext.
      intros k [id q] Hq. cbn. apply Hkey.
      apply elem_of_map_to_list. eapply list_elem_of_lookup_2. exact Hq. }
    rewrite E. apply NoDup_fst_map_to_list.
  - intros p Hp. split; [apply Hmem; eapply elem_of_sublist; eassumption|].
    unfold markedRows in Hp. apply elem_of_take in Hp as (k & Hk & _).
    apply list_elem_of_lookup_2 in Hk. apply list_elem_of_In in Hk.
    apply filter_In in Hk as [_ Hm]. unfold PositionRepository.positionMatches in Hm.
    apply andb_true_iff in Hm as [Hm _]. apply andb_true_iff in Hm as [Hi Hs].
    split.
    + destruct (p_status p); [reflexivity | discriminate].
    + apply orb_true_iff in Hi as [Hi | Hi]; apply String.eqb_eq in Hi; auto.
Qed.

Lemma updateUnrealizedPnl_run (db : Db) (instrument : string) (price : Q) :
  exists r,
    HoldingRepository.updateUnrealizedPnl instrument price db
    = (inr r,
       match holdings db !! instrument with
       | Some h => set_holdings (insert instrument (markedHolding h price)) db
       | None => db
       end).
Proof.
  unfold HoldingRepository.updateUnrealizedPnl, HoldingRepository.getHolding,
    bind, get, put, ret.
  destruct (holdings db !! instrument) as [h|] eqn:L.
  - rewrite L. eexists. reflexivity.
  - eexists. reflexivity.
Qed.

Lemma updatePositionPrices_run (rowOrder : gmap nat Position -> list Position)
    (instrument : string) (price : Q) (db : Db) :
  enumerates rowOrder ->
  keyedById db ->
  exists db',
    updatePositionPrices rowOrder instrument price db = (inr tt, db')
    /\ orders db' = orders db
    /\ holdings db'
       = match holdings db !! instrument with
         | Some h => <[instrument := markedHolding h price]> (holdings db)
         | None => holdings db
         end
    /\ (forall p, p ∈ markedRows rowOrder instrument db ->
          positions db' !! p_id p = Some (repriced p price))
    /\ (forall id, id ∉ map p_id (markedRows rowOrder instrument db) ->
          positions db' !! id = positions db !! id)
    /\ (forall id p,
          positions db !! id = Some p ->
          p_status p = CLOSED \/ (instrument <> "" /\ p_instrument p <> instrument) ->
          positions db' !! id = Some p).
Proof.
  intros Henum Hkey.
  destruct (markedRows_facts rowOrder instrument db Henum Hkey) as [Hnd Hrows].
  destruct (reprice_loop price (markedRows rowOrder instrument db) Hnd db)
    as (db1 & Hloop & Ho & Hh & Hn & Hin & Hout).
  { intros p Hp. destruct (Hrows p Hp) as (H1 & H2 & _). auto. }
  destruct (updateUnrealizedPnl_run db1 instrument price) as (r & Hmark).
  eexists. split.
  { unfold updatePositionPrices, PositionRepository.getOpenPositions,
      PositionRepository.getPositions, bind, get, ret.
    rewrite drop_0. fold (markedRows rowOrder instrument db).
    rewrite Hloop, Hmark. reflexivity. }
  rewrite Hh.
  assert (Hpos : forall id,
             positions (match holdings db !! instrument with
                        | Some h => set_holdings (insert instrument (markedHolding h price)) db1
                        | None => db1
                        end) !! id = positions db1 !! id)
    by (intros id; destruct (holdings db !! instrument); reflexivity).
  split; [destruct (holdings db !! instrument); [exact Ho | exact Ho]|].
  split; [destruct (holdings db !! instrument); [cbn; rewrite Hh; reflexivity | exact Hh]|].
  split; [intros p Hp; rewrite Hpos; apply Hin; exact Hp|].
  split; [intros id Hid; rewrite Hpos; apply Hout; exact Hid|].
  intros id p Hp Hcase. rewrite Hpos, Hout; [exact Hp|].
  intros Hid. apply list_elem_of_fmap in Hid as (q & Hq1 & Hq2).
  destruct (Hrows q Hq2) as (Hrow & Hopen & Hinst).
  rewrite <- Hq1 in Hrow. rewrite Hp in Hrow. injection Hrow as ->.
  destruct Hcase as [Hc | [Hne1 Hne2]]; [congruence|].
  destruct Hinst; contradiction.
Qed.

(** X27: marking an instrument to market never throws and never touches
    realized figures: orders are untouched; every holding keeps its
    quantity, average price and realized P&L (only the market columns of
    the instrument's own holding are recomputed); the rows re-priced are the
    first 100 matching OPEN rows, each getting the P&L of its lot at the
    current price, and every other position row, CLOSED ones and other
    instruments' included, is left as it was. *)
Theorem updatePositionPrices_frame (rowOrder : gmap nat Position -> list Position)
    (instrument : string) (price : Q) (db : Db) :
  enumerates rowOrder ->
  keyedById db ->
  exists db',
    updatePositionPrices rowOrder instrument price db = (inr tt, db')
    /\ orders db' = orders db
    /\ holdings db'
       = match holdings db !! instrument with
         | Some h => <[instrument := markedHolding h price]> (holdings db)
         | None => holdings db
         end
    /\ (forall p, p ∈ markedRows rowOrder instrument db ->
          positions db' !! p_id p = Some (repriced p price))
    /\ (forall id, id ∉ map p_id (markedRows rowOrder instrument db) ->
          positions db' !! id = positions db !! id)
    /\ (forall id p,
          positions db !! id = Some p ->
          p_status p = CLOSED \/ (instrument <> "" /\ p_instrument p <> instrument) ->
          positions db' !! id = Some p).
Proof. apply updatePositionPrices_run. Qed.

Lemma newestFirst_enumerates : enumerates newestFirst.
Proof. intros m. unfold newestFirst. apply BatchFacts.sortBy_perm. Qed.

Lemma ledgerLong10Open_keyed : keyedById ledgerLong10Open.
Proof.
  intros id p H. cbn in H. apply lookup_singleton_Some in H as [<- <-]. reflexivity.
Qed.

Lemma updatePositionPrices_frame_witness :
  exists db',
    updatePositionPrices newestFirst "NIFTY" 105 ledgerLong10Open = (inr tt, db')
    /\ orders db' = orders ledgerLong10Open
    /\ holdings db'
       = match holdings ledgerLong10Open !! "NIFTY" with
         | Some h => <["NIFTY" := markedHolding h 105]> (holdings ledgerLong10Open)
         | None => holdings ledgerLong10Open
         end
    /\ (forall p, p ∈ markedRows newestFirst "NIFTY" ledgerLong10Open ->
          positions db' !! p_id p = Some (repriced p 105))
    /\ (forall id, id ∉ map p_id (markedRows newestFirst "NIFTY" ledgerLong10Open) ->
          positions db' !! id = positions ledgerLong10Open !! id)
    /\ (forall id p,
          positions ledgerLong10Open !! id = Some p ->
          p_status p = CLOSED \/ ("NIFTY" <> "" /\ p_instrument p <> "NIFTY") ->
          positions db' !! id = Some p).
Proof.
  apply (updatePositionPrices_frame newestFirst "NIFTY" 105 ledgerLong10Open).
  - exact newestFirst_enumerates.
  - exact ledgerLong10Open_keyed.
Defined.

(** X28: when the instrument has at most 100 OPEN position rows, a
    mark-to-market re-prices every one of them: each ends with the P&L of
    its lot at the current price, still OPEN. (Beyond 100 rows only the
    first 100 the database returns are re-priced.) *)
Theorem updatePositionPrices_covers_open_rows
    (rowOrder : gmap nat Position -> list Position)
    (instrument : string) (price : Q) (db : Db) :
  enumerates rowOrder ->
  keyedById db ->
  (length (List.filter (PositionRepository.positionMatches instrument (Some OPEN) None)
             (rowOrder (positions db))) <= 100)%nat ->
  exists db',
    updatePositionPrices rowOrder instrument price db = (inr tt, db')
    /\ forall id p,
         positions db !! id = Some p ->
         p_status p = OPEN ->
         instrument = "" \/ p_instrument p = instrument ->
         positions db' !! id = Some (repriced p price)
         /\ p_status (repriced p price) = OPEN
         /\ p_pnl (repriced p price) = closingPnl p price.
Proof.
  intros Henum Hkey Hfew.
  destruct (updatePositionPrices_run rowOrder instrument price db Henum Hkey)
    as (db' & Hrun & _ & _ & Hin & _).
  exists db'. split; [exact Hrun|].
  intros id p Hp Hopen Hinst.
  split; [|split; [exact Hopen | reflexivity]].
  rewrite <- (Hkey id p Hp). apply Hin.
  unfold markedRows. rewrite take_ge by exact Hfew.
  apply list_elem_of_In, filter_In. split.
  - apply list_elem_of_In. rewrite (Henum (positions db)).
    apply list_elem_of_fmap. exists (id, p). split; [reflexivity|].
    apply elem_of_map_to_list. exact Hp.
  - unfold PositionRepository.positionMatches. rewrite Hopen.
    cbn [PositionStatus_eqb]. rewrite andb_true_r, andb_true_r.
    apply orb_true_iff. destruct Hinst as [-> | <-].
    + left. reflexivity.
    + right. apply String.eqb_refl.
Qed.

Lemma updatePositionPrices_covers_open_rows_witness :
  exists db',
    updatePositionPrices newestFirst "NIFTY" 105 ledgerLong10Open = (inr tt, db')
    /\ forall id p,
         positions ledgerLong10Open !! id = Some p ->
         p_status p = OPEN ->
         "NIFTY" = "" \/ p_instrument p = "NIFTY" ->
         positions db' !! id = Some (repriced p 105)
         /\ p_status (repriced p 105) = OPEN
         /\ p_pnl (repriced p 105) = closingPnl p 105.
Proof.
  apply (updatePositionPrices_covers_open_rows newestFirst "NIFTY" 105 ledgerLong10Open).
  - exact newestFirst_enumerates.
  - exact ledgerLong10Open_keyed.
  - vm_compute. lia.
Defined.


End MarkFacts.
